(** * Spiel catalog service: search predicate builder, read and write services

    A shallow embedding of the TypeScript sources

    - [src/spiel/service/query-builder.ts], class [QueryBuilder],
    - the read service, class [SpielReadService],
    - the write service, class [SpielWriteService],
    - the REST controller for writing, class [SpielWriteController],
    - [src/spiel/entity/spiel.entity.ts] and the DDL in [create.sql],

    together with the properties the specification states about them.

    The ORM (TypeORM) and the database are not part of the repository; the few
    operations the services call on them are modelled here by their documented
    behaviour and by the DDL, and every such definition says so where it is
    declared. *)

From Stdlib Require Import ZArith Lia Ascii String.
From stdpp Require Import gmap strings list pretty.

Local Open Scope string_scope.
Local Open Scope list_scope.
Local Open Scope Z_scope.

(** ** JavaScript values and strings *)

(** The values a criteria object can hold.  Numbers are modelled as integers
    together with [NaN]; fractional values and the rounding of doubles are
    outside the model. *)
Inductive JsValue :=
| JsUndefined
| JsNull
| JsBool (b : bool)
| JsNumber (z : Z)
| JsNaN
| JsString (s : string).

Module Js.

(** The double quote character, code 34. *)
Definition dquote : ascii := "034"%char.

Definition isDigit (c : ascii) : bool :=
  let n := nat_of_ascii c in (48 <=? n)%nat && (n <=? 57)%nat.

Definition digitValue (c : ascii) : Z := Z.of_nat (nat_of_ascii c) - 48.

Definition hexDigitValue (c : ascii) : option Z :=
  let n := Z.of_nat (nat_of_ascii c) in
  if (48 <=? n) && (n <=? 57) then Some (n - 48)
  else if (65 <=? n) && (n <=? 70) then Some (n - 55)
  else if (97 <=? n) && (n <=? 102) then Some (n - 87)
  else None.

(** White space and line terminators that [parseInt] skips, as far as they
    are ASCII characters: TAB, LF, VT, FF, CR, SP.  A string is a sequence of
    one-byte characters here; the white space beyond ASCII (U+00A0, U+FEFF,
    the space separators) has no character of its own in it, and what is
    proved of [parseInt] on criteria is proved for ASCII strings. *)
Definition isWhiteSpace (c : ascii) : bool :=
  let n := nat_of_ascii c in
  ((9 <=? n)%nat && (n <=? 13)%nat) || (n =? 32)%nat.

Fixpoint trimStart (s : string) : string :=
  match s with
  | String c s' => if isWhiteSpace c then trimStart s' else s
  | EmptyString => s
  end.

(** The longest prefix of decimal digits, read as a number; [None] when
    there is no digit at all. *)
Fixpoint decimalDigits (acc : option Z) (s : string) : option Z :=
  match s with
  | String c s' =>
      if isDigit c
      then decimalDigits (Some (default 0 acc * 10 + digitValue c)) s'
      else acc
  | EmptyString => acc
  end.

Fixpoint hexDigits (acc : option Z) (s : string) : option Z :=
  match s with
  | String c s' =>
      match hexDigitValue c with
      | Some d => hexDigits (Some (default 0 acc * 16 + d)) s'
      | None => acc
      end
  | EmptyString => acc
  end.

(** [s.startsWith(p)], case sensitive. *)
Fixpoint startsWith (p s : string) : bool :=
  match p, s with
  | EmptyString, _ => true
  | String a p', String b s' => Ascii.eqb a b && startsWith p' s'
  | String _ _, EmptyString => false
  end.

Definition dropTwo (s : string) : string :=
  match s with
  | String _ (String _ s') => s'
  | _ => EmptyString
  end.

Definition stripSign (s : string) : Z * string :=
  match s with
  | String c s' =>
      if Ascii.eqb c "-" then (-1, s')
      else if Ascii.eqb c "+" then (1, s')
      else (1, s)
  | EmptyString => (1, s)
  end.

Definition numberOrNaN (sign : Z) (digits : option Z) : JsValue :=
  match digits with
  | Some n => JsNumber (sign * n)
  | None => JsNaN
  end.

(** [Number.parseInt(s, 10)]. *)
Definition parseInt10 (s : string) : JsValue :=
  let '(sign, body) := stripSign (trimStart s) in
  numberOrNaN sign (decimalDigits None body).

(** [parseInt(s)] without a radix: a [0x]/[0X] prefix selects base 16.  The
    result is the integer that the digits write; it is the number the code
    computes as long as it is a safe integer (see [isSafeInteger]), beyond
    which a double rounds. *)
Definition parseInt (s : string) : JsValue :=
  let '(sign, body) := stripSign (trimStart s) in
  if startsWith "0x" body || startsWith "0X" body
  then numberOrNaN sign (hexDigits None (dropTwo body))
  else numberOrNaN sign (decimalDigits None body).

(** [Number.MAX_SAFE_INTEGER]: an integer up to it in absolute value is held
    exactly by a number (a double), and so is a product of integers that stays
    within it. *)
Definition MAX_SAFE_INTEGER : Z := 2 ^ 53 - 1.

(** [Number.isSafeInteger(z)] on an integer. *)
Definition isSafeInteger (z : Z) : bool :=
  (- MAX_SAFE_INTEGER <=? z) && (z <=? MAX_SAFE_INTEGER).

(** [isNaN(v)] for the values it is applied to in the sources: the result
    of [parseInt] or a criteria value that is not a string. *)
Definition isNaN (v : JsValue) : bool :=
  match v with
  | JsNaN | JsUndefined => true
  | _ => false
  end.

(** [s.slice(1, -1)]: the string without its first and its last
    character. *)
Fixpoint dropLast (s : string) : string :=
  match s with
  | String c EmptyString => EmptyString
  | String c s' => String c (dropLast s')
  | EmptyString => EmptyString
  end.

Definition slice_1_m1 (s : string) : string :=
  match s with
  | String _ s' => dropLast s'
  | EmptyString => EmptyString
  end.

(** [s.includes(x)], case sensitive. *)
Fixpoint includes (x s : string) : bool :=
  startsWith x s ||
  match s with
  | String _ s' => includes x s'
  | EmptyString => false
  end.

End Js.

(** A JavaScript object used as a flat record of criteria: its own enumerable
    properties in insertion order.  Keys are unique in an object; [getProp]
    reads the first binding. *)
Definition JsObject := list (string * JsValue).

Definition getProp (o : JsObject) (key : string) : JsValue :=
  match List.find (fun kv => String.eqb kv.1 key) o with
  | Some kv => kv.2
  | None => JsUndefined
  end.

(** [Object.keys(o)]. *)
Definition objectKeys (o : JsObject) : list string := map fst o.

(** ** SQL fragments used by the query builder *)

Module Sql.

(** [s LIKE pattern] with the wildcards [%] (any run of characters) and [_]
    (one character), compared case sensitively as PostgreSQL does. *)
Fixpoint like (pattern : string) : string -> bool :=
  match pattern with
  | EmptyString =>
      fun s => match s with EmptyString => true | _ => false end
  | String c p =>
      if Ascii.eqb c "%" then
        fix anyRun (s : string) : bool :=
          like p s ||
          match s with
          | String _ s' => anyRun s'
          | EmptyString => false
          end
      else if Ascii.eqb c "_" then
        fun s =>
          match s with
          | String _ s' => like p s'
          | EmptyString => false
          end
      else
        fun s =>
          match s with
          | String d s' => Ascii.eqb c d && like p s'
          | EmptyString => false
          end
  end.

(** [REPLACE(s, from, '')]: every occurrence of [from], found left to right
    without overlap, is removed.  [skip] counts the characters of the
    occurrence in progress that are still to be dropped. *)
Fixpoint removeFrom (skip : nat) (from s : string) : string :=
  match s with
  | EmptyString => EmptyString
  | String c s' =>
      match skip with
      | S k => removeFrom k from s'
      | O =>
          if negb (String.eqb from "") && Js.startsWith from s
          then removeFrom (String.length from - 1)%nat from s'
          else String c (removeFrom 0 from s')
      end
  end.

Definition removeAll (s from : string) : string := removeFrom 0 from s.

End Sql.

(** ** The search predicate builder ([query-builder.ts]) *)

(** The condition strings that [QueryBuilder.build] hands to the ORM, one
    constructor per template literal of the source.  The aliases are
    [spiel] and [name]. *)
Inductive Condition :=
| NameLike (ilike : bool)
    (** [name.name ilike :name] on PostgreSQL, [name.name like :name]
        elsewhere *)
| RatingGe (ratingNumber : JsValue)
    (** [spiel.rating >= ${ratingNumber}] *)
| PreisLe (preis : string)
    (** [spiel.preis <= ${Number(preis)}], the conversion left symbolic *)
| SchlagwoerterLike (pattern : string)
    (** [spiel.schlagwoerter like '<pattern>'] *)
| SchlagwoerterReplaceLike (from pattern : string)
    (** [REPLACE(spiel.schlagwoerter, '<from>', '') like '<pattern>'] *)
| PropEq (key : string)
    (** [spiel.<key> = :<key>] *).

(** How the ORM records a condition: [where] stores it as type
    [simple], [andWhere] as type [and]. *)
Inductive WhereType := WhereSimple | WhereAnd.

(** The part of TypeORM's [SelectQueryBuilder] that [build] touches: the
    list of where clauses, the bound parameters, and the limit and offset. *)
Record SelectQueryBuilder := mkQuery {
  wheres : list (WhereType * Condition);
  parameters : gmap string JsValue;
  take_ : option Z;
  skip_ : option Z
}.

Module Orm.

(** [repo.createQueryBuilder(alias)] followed by the join on [name]: no
    condition, no parameter, no limit, no offset. *)
Definition createQueryBuilder : SelectQueryBuilder :=
  mkQuery [] ∅ None None.

(** [setParameters]: one assignment per own property of the object. *)
Definition setParameters (qb : SelectQueryBuilder) (ps : JsObject)
  : SelectQueryBuilder :=
  mkQuery (wheres qb)
          (fold_left (fun m kv => <[kv.1 := kv.2]> m) ps (parameters qb))
          (take_ qb) (skip_ qb).

(** [qb.where(condition, parameters)]: TypeORM documents that it replaces
    every where clause set before. *)
Definition where_ (qb : SelectQueryBuilder) (c : Condition) (ps : JsObject)
  : SelectQueryBuilder :=
  setParameters
    (mkQuery [(WhereSimple, c)] (parameters qb) (take_ qb) (skip_ qb)) ps.

(** [qb.andWhere(condition, parameters)]: appends a clause joined with
    [AND]. *)
Definition andWhere (qb : SelectQueryBuilder) (c : Condition) (ps : JsObject)
  : SelectQueryBuilder :=
  setParameters
    (mkQuery (wheres qb ++ [(WhereAnd, c)]) (parameters qb)
             (take_ qb) (skip_ qb)) ps.

Definition take (qb : SelectQueryBuilder) (n : Z) : SelectQueryBuilder :=
  mkQuery (wheres qb) (parameters qb) (Some n) (skip_ qb).

Definition skip (qb : SelectQueryBuilder) (n : Z) : SelectQueryBuilder :=
  mkQuery (wheres qb) (parameters qb) (take_ qb) (Some n).

End Orm.

(** [Pageable]: both fields are read with [?.] and [??], so either may be
    missing, and so may the descriptor itself. *)
Module Pageable.
Record t := mk {
  number : option Z;
  size : option Z
}.
End Pageable.

(** [pageable?.size] and [pageable?.number]. *)
Definition pageableSize (p : option Pageable.t) : option Z :=
  p ≫= Pageable.size.
Definition pageableNumber (p : option Pageable.t) : option Z :=
  p ≫= Pageable.number.

(** [flag === 'true']. *)
Definition isTrueString (flag : JsValue) : bool :=
  match flag with
  | JsString s => String.eqb s "true"
  | _ => false
  end.

(** The keys that [build] takes out of the criteria by destructuring; every
    other own property lands in [restProps]. *)
Definition destructuredKeys : list string :=
  ["name"; "rating"; "preis"; "javascript"; "typescript"; "java"; "python"].

Definition restProps (c : JsObject) : JsObject :=
  filter (fun kv => kv.1 ∉ destructuredKeys) c.

Section QueryBuilder.

(** [typeOrmModuleOptions.type === 'postgres'], from the configuration. *)
Variable postgres : bool.

(** The constants of [pageable.ts], which is not among the sources. *)
Variable DEFAULT_PAGE_SIZE : Z.
Variable DEFAULT_PAGE_NUMBER : Z.

(** The pair [(queryBuilder, useWhere)] threaded through [build]. *)
Definition BuildState : Type := SelectQueryBuilder * bool.

(** [useWhere ? queryBuilder.where(c, ps) : queryBuilder.andWhere(c, ps)],
    then [useWhere = false]. *)
Definition whereOrAnd (st : BuildState) (c : Condition) (ps : JsObject)
  : BuildState :=
  ((if st.2 then Orm.where_ st.1 c ps else Orm.andWhere st.1 c ps), false).

(** [if (name !== undefined && typeof name === 'string')] *)
Definition stepName (name : JsValue) (st : BuildState) : BuildState :=
  match name with
  | JsString n =>
      (Orm.where_ st.1 (NameLike postgres)
                  [("name", JsString ("%" +:+ n +:+ "%"))], false)
  | _ => st
  end.

(** [typeof rating === 'string' ? parseInt(rating) : rating] *)
Definition ratingNumberOf (rating : JsValue) : JsValue :=
  match rating with
  | JsString s => Js.parseInt s
  | _ => rating
  end.

(** [if (rating !== undefined) { ... if (!isNaN(ratingNumber)) ... }] *)
Definition stepRating (rating : JsValue) (st : BuildState) : BuildState :=
  match rating with
  | JsUndefined => st
  | _ =>
      let ratingNumber := ratingNumberOf rating in
      if negb (Js.isNaN ratingNumber)
      then (Orm.where_ st.1 (RatingGe ratingNumber) [], false)
      else st
  end.

(** [if (preis !== undefined && typeof preis === 'string')] *)
Definition stepPreis (preis : JsValue) (st : BuildState) : BuildState :=
  match preis with
  | JsString p => (Orm.where_ st.1 (PreisLe p) [], false)
  | _ => st
  end.

(** [if (flag === 'true')] for one of the four keyword flags. *)
Definition stepFlag (flag : JsValue) (c : Condition) (st : BuildState)
  : BuildState :=
  if isTrueString flag then whereOrAnd st c [] else st.

Definition condJavascript : Condition := SchlagwoerterLike "%JAVASCRIPT%".
Definition condTypescript : Condition := SchlagwoerterLike "%TYPESCRIPT%".
Definition condJava : Condition :=
  SchlagwoerterReplaceLike "JAVASCRIPT" "%JAVA%".
Definition condPython : Condition := SchlagwoerterLike "%PYTHON%".

(** [Object.entries(restProps).forEach(([key, value]) => ...)] *)
Definition stepRest (rest : JsObject) (st : BuildState) : BuildState :=
  fold_left (fun st kv => whereOrAnd st (PropEq kv.1) [(kv.1, kv.2)])
            rest st.

(** The where part of [build], lines 131 to 232. *)
Definition buildWhere (c : JsObject) : BuildState :=
  let st0 := (Orm.createQueryBuilder, true) in
  let st1 := stepName (getProp c "name") st0 in
  let st2 := stepRating (getProp c "rating") st1 in
  let st3 := stepPreis (getProp c "preis") st2 in
  let st4 := stepFlag (getProp c "javascript") condJavascript st3 in
  let st5 := stepFlag (getProp c "typescript") condTypescript st4 in
  let st6 := stepFlag (getProp c "java") condJava st5 in
  let st7 := stepFlag (getProp c "python") condPython st6 in
  stepRest (restProps c) st7.

(** The pagination part of [build], lines 236 to 243.  Page number and page
    size are integers here; [number * size] multiplies two numbers (doubles)
    in the code, and the integer product is that product whenever it is a
    safe integer. *)
Definition paginate (qb : SelectQueryBuilder) (pageable : option Pageable.t)
  : SelectQueryBuilder :=
  if decide (pageableSize pageable = Some 0) then qb
  else
    let size := default DEFAULT_PAGE_SIZE (pageableSize pageable) in
    let number := default DEFAULT_PAGE_NUMBER (pageableNumber pageable) in
    let skip := number * size in
    Orm.skip (Orm.take qb size) skip.

(** [QueryBuilder.build(suchkriterien, pageable)]. *)
Definition build (c : JsObject) (pageable : option Pageable.t)
  : SelectQueryBuilder :=
  paginate (buildWhere c).1 pageable.

End QueryBuilder.

(** ** Entities ([spiel.entity.ts], [name.entity.ts], [bild.entity.ts]) *)

(** A [Decimal] of decimal.js: the value is [coefficient * 10 ^ exponent]. *)
Record Decimal := mkDecimal { coefficient : Z; exponent : Z }.

Module Name.
(** The back reference [spiel] is left out: it points to the owner. *)
Record t := mk {
  id : option Z;
  name : string;
  untertitel : option string
}.
End Name.

Module Bild.
Record t := mk {
  id : option Z;
  beschriftung : string;
  contentType : string
}.
End Bild.

Module Spiel.
(** [undefined] is [None].  [art] is a string at run time; the type
    [SpielArt] names ['BRETTSPIEL' | 'COMPUTERSPIEL' | 'ACTIONSPIEL'].  The
    relation [file] plays no part in create, update and delete and is left
    out.  Dates are instants. *)
Record t := mk {
  id : option Z;
  version : option Z;
  barcode : string;
  rating : option Z;
  art : option string;
  preis : Decimal;
  rabatt : option Decimal;
  lieferbar : option bool;
  datum : option string;
  homepage : option string;
  schlagwoerter : option (list string);
  name : option Name.t;
  bilder : option (list Bild.t);
  erzeugt : option Z;
  aktualisiert : option Z
}.

Definition withIdVersion (i v : option Z) (s : t) : t :=
  mk i v (barcode s) (rating s) (art s) (preis s) (rabatt s) (lieferbar s)
     (datum s) (homepage s) (schlagwoerter s) (name s) (bilder s)
     (erzeugt s) (aktualisiert s).

Definition withSchlagwoerter (k : option (list string)) (s : t) : t :=
  mk (id s) (version s) (barcode s) (rating s) (art s) (preis s) (rabatt s)
     (lieferbar s) (datum s) (homepage s) k (name s) (bilder s)
     (erzeugt s) (aktualisiert s).

Definition withRelations (n : option Name.t) (b : option (list Bild.t))
  (s : t) : t :=
  mk (id s) (version s) (barcode s) (rating s) (art s) (preis s) (rabatt s)
     (lieferbar s) (datum s) (homepage s) (schlagwoerter s) n b
     (erzeugt s) (aktualisiert s).

(** The property names of [new Spiel()], in declaration order: the declared
    fields (class fields are defined on construction) and the arrow function
    [toString]. *)
Definition ownPropertyNames : list string :=
  ["id"; "version"; "barcode"; "rating"; "art"; "preis"; "rabatt";
   "lieferbar"; "datum"; "homepage"; "schlagwoerter"; "name"; "bilder";
   "file"; "erzeugt"; "aktualisiert"; "toString"].
End Spiel.

(** The category values of the entity, [SpielArt] in [spiel.entity.ts] and
    the enum [spielart] in [create.sql]. *)
Definition spielArtValues : list string :=
  ["BRETTSPIEL"; "COMPUTERSPIEL"; "ACTIONSPIEL"].

(** ** The database and the effects of the services *)

(** A row of table [spiel] with the rows of [name] and [bild] that refer to
    it.  The columns [id] (the key of the map below) and [version] are
    managed by the database and the ORM and kept apart from the values the
    application writes; the fields [id] and [version] of [row_data] are not
    read. *)
Record Row := mkRow {
  row_version : Z;
  row_data : Spiel.t
}.

Record Mail := mkMail { subject : string; body : string }.

(** What a service call does to the outside, in the order it happens: the
    writes, the search queries and the mails.  Reads by key ([getOne],
    [existsBy]) leave no entry. *)
Inductive Effect :=
| DbInsert (id : Z)
| DbUpdate (id : Z)
| DbDeleteName (nameId : Z)
| DbDeleteBild (bildId : Z)
| DbDeleteSpiel (id : Z)
| DbSelect (q : SelectQueryBuilder)
| DbCount (q : SelectQueryBuilder)
| SendMail (m : Mail).

Record State := mkState {
  spiele : gmap Z Row;
  spielIdSeq : Z;
  nameIdSeq : Z;
  bildIdSeq : Z;
  effects : list Effect
}.

(** The sequences start at 1000 ([create.sql], [START WITH 1000]). *)
Definition emptyState : State := mkState ∅ 1000 1000 1000 [].

Definition setSpiele (m : gmap Z Row) (st : State) : State :=
  mkState m (spielIdSeq st) (nameIdSeq st) (bildIdSeq st) (effects st).

Definition emit (e : Effect) (st : State) : State :=
  mkState (spiele st) (spielIdSeq st) (nameIdSeq st) (bildIdSeq st)
          (effects st ++ [e]).

(** ** Exceptions ([exceptions.ts] and [NotFoundException] of the framework) *)

Inductive NotFoundMessage :=
| KeinSpielMitId (id : option Z)
    (** [Es gibt kein Spiel mit der ID ${id}.] *)
| UngueltigeSuchkriterien
    (** [Ungueltige Suchkriterien] *)
| KeineSpieleGefunden (suchkriterien : JsObject) (page : option Z)
    (** [Keine Spiele gefunden: ${JSON.stringify(suchkriterien)}, Seite ...] *)
| UngueltigeSeite (page : option Z)
    (** [Ungueltige Seite ${pageable.number}] *).

Inductive Exception :=
| NotFoundException (message : NotFoundMessage)
| BarcodeExistsException (barcode : string)
| VersionInvalidException (version : string)
| VersionOutdatedException (version : JsValue)
| QueryFailedError
    (** the error of the ORM when the database refuses a statement *).

(** ** Asynchronous service code as a state and exception monad *)

Definition M (A : Type) : Type := State -> (Exception + A) * State.

Definition ret {A} (a : A) : M A := fun st => (inr a, st).

Definition throw {A} (e : Exception) : M A := fun st => (inl e, st).

Definition bind {A B} (m : M A) (k : A -> M B) : M B :=
  fun st =>
    match m st with
    | (inl e, st') => (inl e, st')
    | (inr a, st') => k a st'
    end.

Notation "x <- m ;; k" := (bind m (fun x => k))
  (at level 100, m at next level, right associativity).
Notation "m ;;; k" := (bind m (fun _ => k))
  (at level 100, right associativity).

(** [for (const x of xs) { await f(x) }] *)
Fixpoint forEach {A} (xs : list A) (f : A -> M unit) : M unit :=
  match xs with
  | [] => ret tt
  | x :: xs' => f x ;;; forEach xs' f
  end.

(** [manager.transaction(body)]: the writes of a body that throws are rolled
    back. *)
Definition transaction {A} (body : M A) : M A :=
  fun st =>
    match body st with
    | (inl e, _) => (inl e, st)
    | ok => ok
    end.

(** ** The database engine behind the ORM

    TypeORM and the database are outside the repository.  Of them the
    service code sees only the outcome of [save]: the entity with its key and
    version, or the error of a statement that the database refuses.  What
    decides that outcome is not in the sources: the constraints and the
    column types of the tables as the server enforces them, the values that
    the columns keep of what is written, and the comparison by which the ORM
    finds out whether it has a column to write.  An [Engine] is one such
    behaviour; the services are modelled over an arbitrary one. *)
Record Engine := mkEngine {
  (** The tables take the values of the entity, as a new row ([None]) or as
      the new values of the row with the given key: the unique, check and
      not-null constraints, the labels of the enum, the limits of the column
      types. *)
  admits : gmap Z Row -> option Z -> Spiel.t -> bool;
  (** The entity with the values that the columns [preis], [rabatt],
      [lieferbar], [datum], [schlagwoerter], [erzeugt] and [aktualisiert]
      keep of it and give back: decimals in the scale of their column, the
      keyword list joined and split again, the default of a column without a
      value.  The first argument holds the values of the row before an
      update. *)
  kept : option Spiel.t -> Spiel.t -> Spiel.t;
  (** On [save] of an entity that has a row, the ORM finds a value in one
      of those columns that differs from the one it reads from the
      database. *)
  differsElsewhere : Spiel.t -> Spiel.t -> bool;
  (** The values of the identity sequences of [spiel], [name] and [bild]
      that an insert has used up when the database refuses it. *)
  wasted : gmap Z Row -> Spiel.t -> nat * nat * nat
}.

(** ** The repository operations the services call

    These definitions follow the ORM's documented behaviour and the DDL of
    [create.sql], over an [Engine] for what the database decides.
    Connection failures are outside the model. *)

Module Repo.

(** The version of a row that the ORM has just inserted: it writes the
    literal 1 into the [@VersionColumn].  The default 0 of [create.sql]
    (line 52) is for rows that are inserted without the ORM. *)
Definition FIRST_VERSION : Z := 1.

(** [buildId({ id, mitBilder }).getOne()]: the row with the key [id], joined
    with its name by an inner join, so a row without a name is not found;
    the images are loaded only on request. *)
Definition getOneById (id : Z) (mitBilder : bool) (st : State)
  : option Spiel.t :=
  match spiele st !! id with
  | Some row =>
      match Spiel.name (row_data row) with
      | Some n =>
          Some (Spiel.withRelations (Some n)
                  (if mitBilder
                   then Some (default [] (Spiel.bilder (row_data row)))
                   else None)
                  (Spiel.withIdVersion (Some id) (Some (row_version row))
                     (row_data row)))
      | None => None
      end
  | None => None
  end.

(** [repo.existsBy({ barcode })]. *)
Definition existsByBarcode (barcode : string) (st : State) : bool :=
  bool_decide
    (map_Exists (fun _ row => Spiel.barcode (row_data row) = barcode)
                (spiele st)).

Fixpoint assignBildIds (next : Z) (bs : list Bild.t) : list Bild.t :=
  match bs with
  | [] => []
  | b :: bs' =>
      Bild.mk (Some next) (Bild.beschriftung b) (Bild.contentType b)
        :: assignBildIds (next + 1) bs'
  end.

(** The values of a row: the text and integer columns [barcode], [rating],
    [art] and [homepage] hold what is written, the other columns what the
    engine keeps of it. *)
Definition columns (engine : Engine) (old : option Spiel.t) (e : Spiel.t)
  : Spiel.t :=
  let k := kept engine old e in
  Spiel.mk (Spiel.id e) (Spiel.version e) (Spiel.barcode e) (Spiel.rating e)
    (Spiel.art e) (Spiel.preis k) (Spiel.rabatt k) (Spiel.lieferbar k)
    (Spiel.datum k) (Spiel.homepage e) (Spiel.schlagwoerter k)
    (Spiel.name e) (Spiel.bilder e) (Spiel.erzeugt k) (Spiel.aktualisiert k).

(** The state after an insert that the database has refused: no row and no
    entry of the log, but the sequences do not go back. *)
Definition waste (engine : Engine) (e : Spiel.t) (st : State) : State :=
  let '(spielIds, nameIds, bildIds) := wasted engine (spiele st) e in
  mkState (spiele st)
          (spielIdSeq st + Z.of_nat spielIds)
          (nameIdSeq st + Z.of_nat nameIds)
          (bildIdSeq st + Z.of_nat bildIds)
          (effects st).

(** [INSERT]: the keys come from the identity sequences, the ORM writes the
    first version, name and images are inserted with the row
    ([cascade: ['insert', ...]]), all in one transaction.  The result is the
    entity that was passed in, completed by the keys and the version. *)
Definition insertSpiel (engine : Engine) (e : Spiel.t) : M Spiel.t :=
  fun st =>
    if admits engine (spiele st) None e then
      let i := spielIdSeq st in
      let n : option Name.t :=
        (fun n =>
           Name.mk (Some (nameIdSeq st)) (Name.name n) (Name.untertitel n))
          <$> Spiel.name e in
      let bs : option (list Bild.t) :=
        assignBildIds (bildIdSeq st) <$> Spiel.bilder e in
      let data := Spiel.withRelations n bs (columns engine None e) in
      (inr (Spiel.withIdVersion (Some i) (Some FIRST_VERSION)
              (Spiel.withRelations n bs e)),
       mkState (<[i := mkRow FIRST_VERSION data]> (spiele st))
               (i + 1)
               (nameIdSeq st + match n with Some _ => 1 | None => 0 end)
               (bildIdSeq st + Z.of_nat (length (default [] bs)))
               (effects st ++ [DbInsert i]))
    else (inl QueryFailedError, waste engine e st).

(** The columns whose values the ORM compares as they are. *)
Definition exactColumns (e : Spiel.t)
  : string * option Z * option string * option string :=
  (Spiel.barcode e, Spiel.rating e, Spiel.art e, Spiel.homepage e).

(** The ORM compares the entity with the one it reads from the database and
    has a column to write when a value differs. *)
Definition differs (engine : Engine) (db e : Spiel.t) : bool :=
  negb (bool_decide (exactColumns db = exactColumns e))
  || differsElsewhere engine db e.

(** [save] of an entity that has a row.  When no column differs the ORM
    issues no statement and gives the entity back as it is.  Otherwise
    [UPDATE ... SET version = version + 1]: the columns are overwritten, the
    version counter of the row is incremented, the rows of name and images
    stay as they are (the relations cascade on insert and remove only), and
    the entity comes back with the new version; a statement that the
    database refuses changes nothing. *)
Definition updateSpiel (engine : Engine) (i : Z) (row : Row) (e : Spiel.t)
  : M Spiel.t :=
  fun st =>
    let db := Spiel.withIdVersion (Some i) (Some (row_version row))
                (row_data row) in
    if negb (differs engine db e) then (inr e, st)
    else if admits engine (spiele st) (Some i) e then
      let v := row_version row + 1 in
      let data :=
        Spiel.withRelations (Spiel.name (row_data row))
                            (Spiel.bilder (row_data row))
                            (columns engine (Some (row_data row)) e) in
      (inr (Spiel.withIdVersion (Some i) (Some v) e),
       emit (DbUpdate i) (setSpiele (<[i := mkRow v data]> (spiele st)) st))
    else (inl QueryFailedError, st).

(** [repo.save(entity)]: an entity without a key, or with a key that has no
    row, is inserted under a generated key; otherwise its row is updated. *)
Definition save (engine : Engine) (e : Spiel.t) : M Spiel.t :=
  fun st =>
    match Spiel.id e with
    | Some i =>
        match spiele st !! i with
        | Some row => updateSpiel engine i row e st
        | None => insertSpiel engine e st
        end
    | None => insertSpiel engine e st
    end.

(** [repo.merge(target, source)]: every defined property of [source]
    overwrites the one of [target]. *)
Definition orElse {A} (source target : option A) : option A :=
  match source with
  | Some x => Some x
  | None => target
  end.

Definition merge (target source : Spiel.t) : Spiel.t :=
  Spiel.mk
    (orElse (Spiel.id source) (Spiel.id target))
    (orElse (Spiel.version source) (Spiel.version target))
    (Spiel.barcode source)
    (orElse (Spiel.rating source) (Spiel.rating target))
    (orElse (Spiel.art source) (Spiel.art target))
    (Spiel.preis source)
    (orElse (Spiel.rabatt source) (Spiel.rabatt target))
    (orElse (Spiel.lieferbar source) (Spiel.lieferbar target))
    (orElse (Spiel.datum source) (Spiel.datum target))
    (orElse (Spiel.homepage source) (Spiel.homepage target))
    (orElse (Spiel.schlagwoerter source) (Spiel.schlagwoerter target))
    (orElse (Spiel.name source) (Spiel.name target))
    (orElse (Spiel.bilder source) (Spiel.bilder target))
    (orElse (Spiel.erzeugt source) (Spiel.erzeugt target))
    (orElse (Spiel.aktualisiert source) (Spiel.aktualisiert target)).

Definition hasNameId (nameId : Z) (row : Row) : bool :=
  match Spiel.name (row_data row) with
  | Some n => bool_decide (Name.id n = Some nameId)
  | None => false
  end.

(** [transactionalMgr.delete(Name, nameId)]. *)
Definition deleteName (nameId : Z) : M unit :=
  fun st =>
    (inr tt,
     emit (DbDeleteName nameId)
       (setSpiele
          ((fun row =>
              if hasNameId nameId row
              then mkRow (row_version row)
                     (Spiel.withRelations None (Spiel.bilder (row_data row))
                        (row_data row))
              else row) <$> spiele st) st)).

(** [transactionalMgr.delete(Bild, bildId)]. *)
Definition deleteBild (bildId : Z) : M unit :=
  fun st =>
    (inr tt,
     emit (DbDeleteBild bildId)
       (setSpiele
          ((fun row =>
              mkRow (row_version row)
                (Spiel.withRelations (Spiel.name (row_data row))
                   (filter (fun b => Bild.id b ≠ Some bildId)
                      <$> Spiel.bilder (row_data row))
                   (row_data row))) <$> spiele st) st)).

(** [transactionalMgr.delete(Spiel, id)]; the result is the [affected] count
    of the [DeleteResult]. *)
Definition deleteSpiel (id : Z) : M (option Z) :=
  fun st =>
    (inr (Some match spiele st !! id with Some _ => 1 | None => 0 end),
     emit (DbDeleteSpiel id) (setSpiele (delete id (spiele st)) st)).

End Repo.

(** ** The read service ([SpielReadService]) *)

Module SpielReadService.

(** [content] and [totalElements] of a [Slice<Spiel>]. *)
Record Slice := mkSlice {
  content : list Spiel.t;
  totalElements : Z
}.

(** [if (spiel.schlagwoerter === null) { spiel.schlagwoerter = []; }] *)
Definition nullToEmpty (spiel : Spiel.t) : Spiel.t :=
  match Spiel.schlagwoerter spiel with
  | None => Spiel.withSchlagwoerter (Some []) spiel
  | Some _ => spiel
  end.

(** [SpielReadService.findById({ id, mitBilder })]. *)
Definition findById (id : Z) (mitBilder : bool) : M Spiel.t :=
  fun st =>
    match Repo.getOneById id mitBilder st with
    | None => throw (NotFoundException (KeinSpielMitId (Some id))) st
    | Some spiel => ret (nullToEmpty spiel) st
    end.

(** [#checkKeys(keys)]: the loop clears [validKeys] at every key that is
    neither a property of [Spiel] nor a keyword flag. *)
Definition checkKeys (keys : list string) : bool :=
  fold_left
    (fun validKeys key =>
       if negb (bool_decide (key ∈ Spiel.ownPropertyNames))
          && negb (String.eqb key "javascript")
          && negb (String.eqb key "typescript")
          && negb (String.eqb key "java")
          && negb (String.eqb key "python")
       then false
       else validKeys)
    keys true.

(** [#checkEnums(suchkriterien)]. *)
Definition checkEnums (suchkriterien : JsObject) : bool :=
  match getProp suchkriterien "art" with
  | JsUndefined => true
  | JsString art =>
      String.eqb art "EPUB" || String.eqb art "HARDCOVER"
      || String.eqb art "PAPERBACK"
  | _ => false
  end.

(** [#createSlice(spiele, totalElements)]. *)
Definition createSlice (spiele : list Spiel.t) (totalElements : Z) : Slice :=
  mkSlice (map nullToEmpty spiele) totalElements.

Section ReadService.

(** The configuration of the query builder. *)
Variable postgres : bool.
Variable DEFAULT_PAGE_SIZE : Z.
Variable DEFAULT_PAGE_NUMBER : Z.

(** The database engine answering a search query: the rows it selects and
    the number of rows it counts. *)
Variable selectMany : SelectQueryBuilder -> gmap Z Row -> list Spiel.t.
Variable selectCount : SelectQueryBuilder -> gmap Z Row -> Z.

(** [queryBuilder.getMany()] and [queryBuilder.getCount()]. *)
Definition getMany (q : SelectQueryBuilder) : M (list Spiel.t) :=
  fun st => (inr (selectMany q (spiele st)), emit (DbSelect q) st).

Definition getCount (q : SelectQueryBuilder) : M Z :=
  fun st => (inr (selectCount q (spiele st)), emit (DbCount q) st).

(** [#findAll(pageable)]. *)
Definition findAll (pageable : Pageable.t) : M Slice :=
  let queryBuilder :=
    build postgres DEFAULT_PAGE_SIZE DEFAULT_PAGE_NUMBER [] (Some pageable) in
  spiele <- getMany queryBuilder ;;
  if bool_decide (spiele = [])
  then throw (NotFoundException (UngueltigeSeite (Pageable.number pageable)))
  else
    totalElements <- getCount queryBuilder ;;
    ret (createSlice spiele totalElements).

(** [SpielReadService.find(suchkriterien, pageable)]. *)
Definition find (suchkriterien : option JsObject) (pageable : Pageable.t)
  : M Slice :=
  match suchkriterien with
  | None => findAll pageable
  | Some suchkriterien =>
      let keys := objectKeys suchkriterien in
      if bool_decide (keys = []) then findAll pageable
      else if negb (checkKeys keys) || negb (checkEnums suchkriterien)
      then throw (NotFoundException UngueltigeSuchkriterien)
      else
        let queryBuilder :=
          build postgres DEFAULT_PAGE_SIZE DEFAULT_PAGE_NUMBER
                suchkriterien (Some pageable) in
        spiele <- getMany queryBuilder ;;
        if bool_decide (spiele = [])
        then throw (NotFoundException
                      (KeineSpieleGefunden suchkriterien
                         (Pageable.number pageable)))
        else
          totalElements <- getCount queryBuilder ;;
          ret (createSlice spiele totalElements)
  end.

End ReadService.

End SpielReadService.

(** ** The write service ([SpielWriteService]) *)

Module SpielWriteService.

Definition startsWithDquote (s : string) : bool :=
  match s with
  | String c _ => Ascii.eqb c Js.dquote
  | EmptyString => false
  end.

(** The part of the version pattern after the opening quote, [\d{1,n}]
    and the closing quote: between one and [n] decimal digits, then a double
    quote. *)
Fixpoint digitsThenDquote (n : nat) (s : string) : bool :=
  match n, s with
  | S n', String c s' =>
      Js.isDigit c && (startsWithDquote s' || digitsThenDquote n' s')
  | _, _ => false
  end.

(** [VERSION_PATTERN.test(versionStr)]: the pattern is a double quote, one
    to three decimal digits and a double quote, anchored at the start of the
    string only. *)
Definition VERSION_PATTERN_test (versionStr : string) : bool :=
  match versionStr with
  | String c s => Ascii.eqb c Js.dquote && digitsThenDquote 3 s
  | EmptyString => false
  end.

(** [version < versionDb] on a parsed number and a value that may be
    [undefined]: comparisons with [NaN] and [undefined] are false. *)
Definition jsLess (version : JsValue) (versionDb : option Z) : bool :=
  match version, versionDb with
  | JsNumber a, Some b => a <? b
  | _, _ => false
  end.

(** [#validateCreate({ barcode })]. *)
Definition validateCreate (spiel : Spiel.t) : M unit :=
  fun st =>
    if Repo.existsByBarcode (Spiel.barcode spiel) st
    then throw (BarcodeExistsException (Spiel.barcode spiel)) st
    else ret tt st.

(** [#sendmail(spiel)]; an [undefined] in a template literal prints as
    [undefined]. *)
Definition sendmail (spiel : Spiel.t) : M unit :=
  fun st =>
    let subject :=
      "Neues Spiel " +:+
      match Spiel.id spiel with
      | Some i => pretty i
      | None => "undefined"
      end in
    let name := default "N/A" (Name.name <$> Spiel.name spiel) in
    let body :=
      "Das Spiel mit dem Name <strong>" +:+ name
      +:+ "</strong> ist angelegt" in
    (inr tt, emit (SendMail (mkMail subject body)) st).

(** [SpielWriteService.create(spiel)]; the result [spielDb.id!] is the
    property as it is, the assertion has no effect at run time. *)
Definition create (engine : Engine) (spiel : Spiel.t) : M (option Z) :=
  validateCreate spiel ;;;
  spielDb <- Repo.save engine spiel ;;
  sendmail spielDb ;;;
  ret (Spiel.id spielDb).

(** [#validateUpdate(spiel, id, versionStr)]. *)
Definition validateUpdate (spiel : Spiel.t) (id : Z) (versionStr : string)
  : M Spiel.t :=
  if negb (VERSION_PATTERN_test versionStr)
  then throw (VersionInvalidException versionStr)
  else
    let version := Js.parseInt10 (Js.slice_1_m1 versionStr) in
    spielDb <- SpielReadService.findById id false ;;
    let versionDb := Spiel.version spielDb in
    if jsLess version versionDb
    then throw (VersionOutdatedException version)
    else ret spielDb.

(** [SpielWriteService.update({ id, spiel, version })].  The test
    [validateResult instanceof Spiel] always succeeds, since
    [#validateUpdate] returns the entity read from the database or throws. *)
Definition update (engine : Engine) (id : option Z) (spiel : Spiel.t)
  (version : string) : M (option Z) :=
  match id with
  | None => throw (NotFoundException (KeinSpielMitId None))
  | Some id =>
      spielNeu <- validateUpdate spiel id version ;;
      let merged := Repo.merge spielNeu spiel in
      updated <- Repo.save engine merged ;;
      ret (Spiel.version updated)
  end.

(** The body of the transaction in [delete].  The images read from the
    database all carry a key. *)
Definition deleteInTransaction (spiel : Spiel.t) (id : Z) : M (option Z) :=
  match Spiel.name spiel ≫= Name.id with
  | Some nameId => Repo.deleteName nameId
  | None => ret tt
  end ;;;
  let bilder := default [] (Spiel.bilder spiel) in
  forEach bilder
    (fun bild =>
       match Bild.id bild with
       | Some bildId => Repo.deleteBild bildId
       | None => ret tt
       end) ;;;
  Repo.deleteSpiel id.

(** [SpielWriteService.delete(id)]. *)
Definition delete (id : Z) : M bool :=
  spiel <- SpielReadService.findById id true ;;
  affected <- transaction (deleteInTransaction spiel id) ;;
  ret match affected with
      | Some n => 0 <? n
      | None => false
      end.

End SpielWriteService.

(** ** The REST controller for writing ([SpielWriteController]) *)

Record NameDTO := mkNameDTO {
  dto_name : string;
  dto_untertitel : option string
}.

Record BildDTO := mkBildDTO {
  dto_beschriftung : string;
  dto_contentType : string
}.

Record SpielDtoOhneRef := mkSpielDtoOhneRef {
  dto_barcode : string;
  dto_rating : Z;
  dto_art : option string;
  dto_preis : Decimal;
  dto_rabatt : option Decimal;
  dto_lieferbar : option bool;
  dto_datum : option string;
  dto_homepage : option string;
  dto_schlagwoerter : option (list string)
}.

(** [SpielDTO extends SpielDtoOhneRef]. *)
Record SpielDTO := mkSpielDTO {
  dto_base : SpielDtoOhneRef;
  dto_nameDTO : NameDTO;
  dto_bilder : option (list BildDTO)
}.

(** [Decimal(spielDTO.rabatt ?? '0')]. *)
Definition rabattOrZero (rabatt : option Decimal) : Decimal :=
  default (mkDecimal 0 0) rabatt.

(** [#spielDtoToSpiel(spielDTO)]; [now] is [new Date()]. *)
Definition spielDtoToSpiel (spielDTO : SpielDTO) (now : Z) : Spiel.t :=
  let nameDTO := dto_nameDTO spielDTO in
  let name := Name.mk None (dto_name nameDTO) (dto_untertitel nameDTO) in
  let bilder :=
    map (fun bildDTO =>
           Bild.mk None (dto_beschriftung bildDTO) (dto_contentType bildDTO))
      <$> dto_bilder spielDTO in
  let d := dto_base spielDTO in
  Spiel.mk None None (dto_barcode d) (Some (dto_rating d)) (dto_art d)
    (dto_preis d) (Some (rabattOrZero (dto_rabatt d))) (dto_lieferbar d)
    (dto_datum d) (dto_homepage d) (dto_schlagwoerter d)
    (Some name) bilder (Some now) (Some now).

(** [#spielDtoOhneRefToSpiel(spielDTO)]. *)
Definition spielDtoOhneRefToSpiel (d : SpielDtoOhneRef) (now : Z) : Spiel.t :=
  Spiel.mk None None (dto_barcode d) (Some (dto_rating d)) (dto_art d)
    (dto_preis d) (Some (rabattOrZero (dto_rabatt d))) (dto_lieferbar d)
    (dto_datum d) (dto_homepage d) (dto_schlagwoerter d)
    None None None (Some now).

Inductive Request :=
| POST (spielDTO : SpielDTO) (now : Z)
| PUT (id : Z) (spielDTO : SpielDtoOhneRef) (ifMatch : option string) (now : Z)
| DELETE (id : Z).

Inductive Response :=
| Created (id : option Z)
    (** 201 with the header [Location] *)
| NoContentETag (version : option Z)
    (** 204 with the header [ETag] *)
| NoContent
    (** 204 *)
| PreconditionRequired
    (** 428, the header [If-Match] is missing *)
| Failed (e : Exception)
    (** an exception of the services, turned into its status code by the
        framework *)
| InternalServerError
    (** 500: an error that is no HTTP exception, as the one of a statement
        that the database refuses *).

Definition respond {A} (f : A -> Response) (m : M A) (st : State)
  : Response * State :=
  match m st with
  | (inl QueryFailedError, st') => (InternalServerError, st')
  | (inl e, st') => (Failed e, st')
  | (inr a, st') => (f a, st')
  end.

(** [post], [put] and [delete] of the controller. *)
Definition handle (engine : Engine) (req : Request) (st : State)
  : Response * State :=
  match req with
  | POST spielDTO now =>
      respond Created
        (SpielWriteService.create engine (spielDtoToSpiel spielDTO now)) st
  | PUT id spielDTO ifMatch now =>
      match ifMatch with
      | None => (PreconditionRequired, st)
      | Some version =>
          respond NoContentETag
            (SpielWriteService.update engine (Some id)
               (spielDtoOhneRefToSpiel spielDTO now) version)
            st
      end
  | DELETE id => respond (fun _ => NoContent) (SpielWriteService.delete id) st
  end.

(** ** Vocabulary of the specification *)

(** *** Search predicates *)

(** The predicates the specification calls recognized, in the order in which
    [build] looks at the criteria: name substring, minimum rating, maximum
    price, the four keyword flags, then the remaining equality filters. *)
Definition recognizedName (postgres : bool) (name : JsValue)
  : list Condition :=
  match name with
  | JsString _ => [NameLike postgres]
  | _ => []
  end.

Definition recognizedRating (rating : JsValue) : list Condition :=
  match rating with
  | JsUndefined => []
  | _ =>
      if Js.isNaN (ratingNumberOf rating) then []
      else [RatingGe (ratingNumberOf rating)]
  end.

Definition recognizedPreis (preis : JsValue) : list Condition :=
  match preis with
  | JsString p => [PreisLe p]
  | _ => []
  end.

Definition recognizedFlag (flag : JsValue) (c : Condition)
  : list Condition :=
  if isTrueString flag then [c] else [].

Definition recognizedPredicates (postgres : bool) (c : JsObject)
  : list Condition :=
  recognizedName postgres (getProp c "name")
  ++ recognizedRating (getProp c "rating")
  ++ recognizedPreis (getProp c "preis")
  ++ recognizedFlag (getProp c "javascript") condJavascript
  ++ recognizedFlag (getProp c "typescript") condTypescript
  ++ recognizedFlag (getProp c "java") condJava
  ++ recognizedFlag (getProp c "python") condPython
  ++ map (fun kv => PropEq kv.1) (restProps c).

(** The conjunction of a list of predicates as the ORM holds it: the first
    one set with [where], every other one added with [andWhere]. *)
Definition conjunction (preds : list Condition)
  : list (WhereType * Condition) :=
  match preds with
  | [] => []
  | p :: ps => (WhereSimple, p) :: map (fun q => (WhereAnd, q)) ps
  end.

(** The conditions of a query, whatever way they were joined. *)
Definition conditions (q : SelectQueryBuilder) : list Condition :=
  map snd (wheres q).

(** The column [schlagwoerter] is a [simple-array]: the keywords joined with
    commas. *)
Fixpoint simpleArray (keywords : list string) : string :=
  match keywords with
  | [] => ""
  | [k] => k
  | k :: ks => k +:+ "," +:+ simpleArray ks
  end.

(** Whether a row whose column [schlagwoerter] holds [blob] satisfies a
    keyword condition; [None] for the conditions on other columns. *)
Definition holdsOnSchlagwoerter (c : Condition) (blob : string)
  : option bool :=
  match c with
  | SchlagwoerterLike pattern => Some (Sql.like pattern blob)
  | SchlagwoerterReplaceLike from pattern =>
      Some (Sql.like pattern (Sql.removeAll blob from))
  | _ => None
  end.

(** No wildcard of [LIKE] occurs in the string. *)
Fixpoint wildcardFree (s : string) : bool :=
  match s with
  | EmptyString => true
  | String c s' =>
      negb (Ascii.eqb c "%") && negb (Ascii.eqb c "_") && wildcardFree s'
  end.

(** *** Version tokens *)

Fixpoint allDigits (s : string) : bool :=
  match s with
  | EmptyString => true
  | String c s' => Js.isDigit c && allDigits s'
  end.

(** [digits] wrapped in double quotes. *)
Definition quoted (digits : string) : string :=
  String Js.dquote (digits +:+ String Js.dquote "").

(** A decimal number wrapped in double quotes, with nothing else in the
    string. *)
Definition isQuotedNumber (token : string) : Prop :=
  exists digits,
    digits <> "" /\ allDigits digits = true /\ token = quoted digits.

(** The token begins with a double quote, one to three decimal digits and a
    double quote. *)
Definition beginsWithQuotedDigits (token : string) : Prop :=
  exists digits rest,
    (1 <= String.length digits <= 3)%nat /\ allDigits digits = true /\
    token = String Js.dquote (digits +:+ String Js.dquote rest).

(** The number written by a string of decimal digits. *)
Definition valueOfDigits (digits : string) : Z :=
  default 0 (Js.decimalDigits None digits).

(** *** Version counters *)

(** The version column of every row. *)
Definition versions (st : State) : gmap Z Z := row_version <$> spiele st.

(** A request that is an update of item [j] answered with a new version. *)
Definition isSuccessfulUpdate (j : Z) (req : Request) (resp : Response)
  : Prop :=
  exists spielDTO version now v,
    req = PUT j spielDTO (Some version) now /\ resp = NoContentETag v.

(** One if the request is an update of item [j] answered with a new
    version, zero otherwise. *)
Definition updateCount (req : Request) (resp : Response) (j : Z) : Z :=
  match req, resp with
  | PUT i _ (Some _) _, NoContentETag _ =>
      if bool_decide (i = j) then 1 else 0
  | _, _ => 0
  end.

(** The requests handled so far, from the empty database, together with the
    number of successful updates of every item. *)
Inductive history (engine : Engine) : State -> (Z -> Z) -> Prop :=
| history_empty : history engine emptyState (fun _ => 0)
| history_handle st count req :
    history engine st count ->
    history engine (handle engine req st).2
      (fun j => count j + updateCount req (handle engine req st).1 j).

(** The specification's reading of the pattern: a token is rejected as
    invalid exactly when it is not a quoted number. *)
Definition rejectsExactlyUnquoted (engine : Engine) (st : State) (id : Z)
  (spiel : Spiel.t) (token : string) : Prop :=
  (SpielWriteService.update engine (Some id) spiel token st).1
  = inl (VersionInvalidException token)
  <-> ~ isQuotedNumber token.

(** The specification's reading of an update with a token that is not
    outdated: the version of the item, incremented, comes back. *)
Definition returnsIncremented (engine : Engine) (st : State) (id : Z)
  (spiel : Spiel.t) (token : string) : Prop :=
  exists v,
    versions st !! id = Some v /\
    (SpielWriteService.update engine (Some id) spiel token st).1
    = inr (Some (v + 1)).

(** The specification's reading of a create with a new barcode: the item is
    inserted. *)
Definition insertsItem (engine : Engine) (st : State) (spiel : Spiel.t)
  : Prop :=
  exists id st' row,
    SpielWriteService.create engine spiel st = (inr (Some id), st') /\
    spiele st' !! id = Some row.

(** The specification's reading of the version of a new item: the item that
    a request creates has version zero. *)
Definition startsAtZero (engine : Engine) (st : State) (req : Request)
  : Prop :=
  forall k,
    (handle engine req st).1 = Created (Some k) ->
    versions (handle engine req st).2 !! k = Some 0.

(** The specification's reading of a successful update: it increments the
    version of its item by one. *)
Definition incrementsOnSuccess (engine : Engine) (st : State)
  (req : Request) : Prop :=
  forall j v,
    isSuccessfulUpdate j req (handle engine req st).1 ->
    versions st !! j = Some v ->
    versions (handle engine req st).2 !! j = Some (v + 1).

(** *** An engine for the examples *)

#[global] Instance Decimal_eq_dec : EqDecision Decimal.
Proof. solve_decision. Defined.

(** No other row holds the barcode ([UNIQUE], [create.sql] line 55). *)
Definition barcodeIsFree (rows : gmap Z Row) (self : option Z)
  (barcode : string) : bool :=
  bool_decide
    (map_Forall
       (fun j row =>
          Some j = self \/ Spiel.barcode (row_data row) <> barcode)
       rows).

(** An engine that enforces the constraints which [create.sql] declares on
    [barcode] (unique), [rating] (not null, from 0 to 5), [art] (a label of
    [spielart], or null) and [rabatt] (not null), keeps the values as they
    are written apart from the default of [lieferbar], and compares the other
    columns as they are.  A row that fails a constraint has used up its key;
    a value that is no label of the enum is refused before a key is drawn.
    It stands for the database on the values of the examples. *)
Definition createSql : Engine :=
  {| admits rows self e :=
       barcodeIsFree rows self (Spiel.barcode e)
       && match Spiel.rating e with
          | Some rating => (0 <=? rating) && (rating <=? 5)
          | None => false
          end
       && match Spiel.art e with
          | Some art => bool_decide (art ∈ spielArtValues)
          | None => true
          end
       && bool_decide (is_Some (Spiel.rabatt e));
     kept _ e :=
       Spiel.mk (Spiel.id e) (Spiel.version e) (Spiel.barcode e)
         (Spiel.rating e) (Spiel.art e) (Spiel.preis e) (Spiel.rabatt e)
         (Some (default false (Spiel.lieferbar e))) (Spiel.datum e)
         (Spiel.homepage e) (Spiel.schlagwoerter e) (Spiel.name e)
         (Spiel.bilder e) (Spiel.erzeugt e) (Spiel.aktualisiert e);
     differsElsewhere db e :=
       negb (bool_decide
               ((Spiel.preis db, Spiel.rabatt db, Spiel.lieferbar db,
                 Spiel.datum db, Spiel.schlagwoerter db, Spiel.erzeugt db,
                 Spiel.aktualisiert db)
                = (Spiel.preis e, Spiel.rabatt e, Spiel.lieferbar e,
                   Spiel.datum e, Spiel.schlagwoerter e, Spiel.erzeugt e,
                   Spiel.aktualisiert e)));
     wasted _ e :=
       match Spiel.art e with
       | Some art =>
           if bool_decide (art ∈ spielArtValues) then (1, 0, 0)%nat
           else (0, 0, 0)%nat
       | None => (1, 0, 0)%nat
       end |}.

(** *** Sample data *)

(** A request body that passes the validation of [SpielDtoOhneRef] and that
    the tables of [create.sql] take: no [art], since the pattern of the DTO
    and the enum of the table have no value in common. *)
Definition sampleDtoOhneRef : SpielDtoOhneRef :=
  mkSpielDtoOhneRef "978-0-007-00644-1" 5 None (mkDecimal 1 0)
    None (Some true) None None (Some ["JAVA"; "JAVASCRIPT"]).

Definition sampleDTO : SpielDTO :=
  mkSpielDTO sampleDtoOhneRef (mkNameDTO "Alpha" None)
    (Some [mkBildDTO "Cover" "image/png"]).

(** The database after one successful [POST]: item 1000 at version 1. *)
Definition sampleState : State :=
  (handle createSql (POST sampleDTO 7) emptyState).2.

(** *** Invariants of the proofs *)

(** The build state after a run of conjunctive steps over [preds]. *)
Definition conjState (preds : list Condition) (st : BuildState) : Prop :=
  wheres st.1 = conjunction preds /\ st.2 = bool_decide (preds = []).

(** No step of the where part touches the limit or the offset. *)
Definition unpaged (st : BuildState) : Prop :=
  take_ st.1 = None /\ skip_ st.1 = None.

(** Once [useWhere] is cleared the later steps only append. *)
Definition appended (x : WhereType * Condition) (st : BuildState) : Prop :=
  x ∈ wheres st.1 /\ st.2 = false.

(** Every condition of the build state satisfies [P]. *)
Definition allConditions (P : Condition -> Prop) (st : BuildState) : Prop :=
  Forall P (map snd (wheres st.1)).

(** [#checkKeys] key by key. *)
Definition validKey (key : string) : bool :=
  bool_decide (key ∈ Spiel.ownPropertyNames)
  || String.eqb key "javascript" || String.eqb key "typescript"
  || String.eqb key "java" || String.eqb key "python".

(** A step that changes neither a version counter nor the key sequence. *)
Definition sameVersions (st st' : State) : Prop :=
  versions st' = versions st /\ spielIdSeq st' = spielIdSeq st.

(** ** The REST controller for reading ([SpielGetController]) *)

Module SpielGetController.

(** A number, or [undefined], in a template literal. *)
Definition template (n : option Z) : string :=
  match n with
  | Some z => pretty z
  | None => "undefined"
  end.

(** The entity tag of a version: the version in double quotes, as [getById]
    writes it and as [put] of the write controller writes it into the header
    [ETag]. *)
Definition etag (version : option Z) : string := quoted (template version).

Inductive Response :=
| NotAcceptable
    (** 406 *)
| NotModified
    (** 304 *)
| Ok (spiel : Spiel.t) (etag : string)
    (** 200 with the entity and the header [ETag] *)
| Failed (e : Exception).

(** [getById(id, req, version, res)]; [accepts] is the result of
    [req.accepts(['json', 'html'])] being other than false, [version] the
    header [If-None-Match]. *)
Definition getById (id : Z) (accepts : bool) (version : option string)
  (st : State) : Response * State :=
  if negb accepts then (NotAcceptable, st)
  else
    match SpielReadService.findById id false st with
    | (inl e, st') => (Failed e, st')
    | (inr spiel, st') =>
        let versionDb := Spiel.version spiel in
        match version with
        | Some v =>
            if String.eqb v (etag versionDb) then (NotModified, st')
            else (Ok spiel (etag versionDb), st')
        | None => (Ok spiel (etag versionDb), st')
        end
    end.

(** [value === undefined]. *)
Definition isUndefined (v : JsValue) : bool :=
  match v with
  | JsUndefined => true
  | _ => false
  end.

(** The query object after [delete query['page']], [delete query['size']]
    and the loop that deletes every property whose value is [undefined]. *)
Definition criteriaOf (query : JsObject) : JsObject :=
  List.filter (fun kv => negb (isUndefined kv.2))
    (List.filter
       (fun kv => negb (String.eqb kv.1 "page" || String.eqb kv.1 "size"))
       query).

Section Get.

Variable postgres : bool.
Variable DEFAULT_PAGE_SIZE : Z.
Variable DEFAULT_PAGE_NUMBER : Z.
Variable selectMany : SelectQueryBuilder -> gmap Z Row -> list Spiel.t.
Variable selectCount : SelectQueryBuilder -> gmap Z Row -> Z.

(** [createPageable({ number, size })] of [pageable.ts] and [createPage] of
    [page.ts], which are not among the sources. *)
Variable createPageable : JsValue -> JsValue -> Pageable.t.
Variable Page : Type.
Variable createPage : SpielReadService.Slice -> Pageable.t -> Page.

Inductive ListResponse :=
| ListNotAcceptable
| ListOk (page : Page)
| ListFailed (e : Exception).

(** [get(query, req, res)]. *)
Definition get (query : JsObject) (accepts : bool) (st : State)
  : ListResponse * State :=
  if negb accepts then (ListNotAcceptable, st)
  else
    let page := getProp query "page" in
    let size := getProp query "size" in
    let pageable := createPageable page size in
    match SpielReadService.find postgres DEFAULT_PAGE_SIZE
            DEFAULT_PAGE_NUMBER selectMany selectCount
            (Some (criteriaOf query)) pageable st with
    | (inl e, st') => (ListFailed e, st')
    | (inr spieleSlice, st') => (ListOk (createPage spieleSlice pageable), st')
    end.

End Get.

End SpielGetController.

(** ** More vocabulary *)

(** The predicates that are left in the filter [build] produces: of name,
    rating and price only the last one that is recognized, then the keyword
    flags and the remaining equality filters. *)
Definition effectivePredicates (postgres : bool) (c : JsObject)
  : list Condition :=
  match recognizedPreis (getProp c "preis"),
        recognizedRating (getProp c "rating") with
  | _ :: _, _ => recognizedPreis (getProp c "preis")
  | [], _ :: _ => recognizedRating (getProp c "rating")
  | [], [] => recognizedName postgres (getProp c "name")
  end
  ++ recognizedFlag (getProp c "javascript") condJavascript
  ++ recognizedFlag (getProp c "typescript") condTypescript
  ++ recognizedFlag (getProp c "java") condJava
  ++ recognizedFlag (getProp c "python") condPython
  ++ map (fun kv => PropEq kv.1) (restProps c).

(** In a log of effects, every insert is followed at once by its mail, whose
    subject names the inserted key, and no other mail is sent. *)
Fixpoint mailedInserts (log : list Effect) : Prop :=
  match log with
  | [] => True
  | DbInsert i :: rest =>
      match rest with
      | SendMail m :: rest' =>
          subject m = "Neues Spiel " +:+ pretty i /\ mailedInserts rest'
      | _ => False
      end
  | SendMail _ :: _ => False
  | _ :: rest => mailedInserts rest
  end.

(** An effect that is neither an insert nor a mail. *)
Definition isQuiet (e : Effect) : Prop :=
  match e with
  | DbInsert _ | SendMail _ => False
  | _ => True
  end.

(** An effect that removes a row. *)
Definition isRemoval (e : Effect) : Prop :=
  match e with
  | DbDeleteName _ | DbDeleteBild _ | DbDeleteSpiel _ => True
  | _ => False
  end.

(** The number of [UPDATE] statements for item [j] in a log of effects. *)
Fixpoint updatesIssued (j : Z) (log : list Effect) : Z :=
  match log with
  | [] => 0
  | DbUpdate i :: rest =>
      (if bool_decide (i = j) then 1 else 0) + updatesIssued j rest
  | _ :: rest => updatesIssued j rest
  end.

(** One request, by what it does to the version counters, the key sequence
    and the log of effects. *)
Definition stepKind (engine : Engine) (req : Request) (st : State) : Prop :=
  let resp := (handle engine req st).1 in
  let st' := (handle engine req st).2 in
  (st' = st /\ ((exists e, resp = Failed e) \/ resp = PreconditionRequired))
  \/ (resp = InternalServerError /\
      spiele st' = spiele st /\ effects st' = effects st /\
      spielIdSeq st <= spielIdSeq st')
  \/ (exists spielDTO now mail,
        req = POST spielDTO now /\ resp = Created (Some (spielIdSeq st)) /\
        versions st' = <[spielIdSeq st := 1]> (versions st) /\
        spielIdSeq st' = spielIdSeq st + 1 /\
        effects st' = effects st ++ [DbInsert (spielIdSeq st); SendMail mail]
        /\ subject mail = "Neues Spiel " +:+ pretty (spielIdSeq st))
  \/ (exists j spielDTO version now v,
        req = PUT j spielDTO (Some version) now /\
        resp = NoContentETag (Some (v + 1)) /\
        versions st !! j = Some v /\
        versions st' = <[j := v + 1]> (versions st) /\
        spielIdSeq st' = spielIdSeq st /\
        effects st' = effects st ++ [DbUpdate j])
  \/ (exists j spielDTO version now v,
        req = PUT j spielDTO (Some version) now /\
        resp = NoContentETag (Some v) /\
        versions st !! j = Some v /\ st' = st)
  \/ (exists j log,
        req = DELETE j /\ resp = NoContent /\
        versions st' = base.delete j (versions st) /\
        spielIdSeq st' = spielIdSeq st /\
        effects st' = effects st ++ log /\ Forall isRemoval log).

(** The invariant of the reachable states: every version counter is one
    more than the number of [UPDATE] statements issued for its item, every
    key lies below the key sequence, and no statement was issued for an item
    that is still to be created. *)
Definition counted (st : State) : Prop :=
  (forall j v,
     versions st !! j = Some v ->
     v = 1 + updatesIssued j (effects st) /\ j < spielIdSeq st)
  /\ (forall j, spielIdSeq st <= j -> updatesIssued j (effects st) = 0).

(** A rating that the model reads as the code does: a value that is no
    string, or a string of at most 15 ASCII characters, on which [parseInt]
    finds no white space beyond the one-byte one and reads a safe integer. *)
Definition isPlainRating (rating : JsValue) : bool :=
  match rating with
  | JsString s =>
      (String.length s <=? 15)%nat
      && forallb (fun c => (nat_of_ascii c <? 128)%nat)
           (list_ascii_of_string s)
  | _ => true
  end.

(** Criteria that [find] rejects: some key is neither a property of the
    entity nor a keyword flag, or [art] is there and is not one of EPUB,
    HARDCOVER and PAPERBACK. *)
Definition invalidCriteria (c : JsObject) : Prop :=
  (exists key,
     key ∈ objectKeys c /\ (key ∉ Spiel.ownPropertyNames) /\
     (key ∉ ["javascript"; "typescript"; "java"; "python"]))
  \/ (getProp c "art" <> JsUndefined /\
      forall art, art ∈ ["EPUB"; "HARDCOVER"; "PAPERBACK"] ->
                  getProp c "art" <> JsString art).

(** * Properties *)

(** ** The search predicate builder *)

Section QueryBuilderFacts.

Variable postgres : bool.
Variable DEFAULT_PAGE_SIZE : Z.
Variable DEFAULT_PAGE_NUMBER : Z.

Lemma conjunction_snoc preds c :
  conjunction (preds ++ [c]) =
  if bool_decide (preds = []) then [(WhereSimple, c)]
  else conjunction preds ++ [(WhereAnd, c)].
Proof.
  destruct preds as [|p ps]; simpl; [reflexivity|].
  by rewrite map_app.
Qed.

Lemma whereOrAnd_conj preds st c ps :
  conjState preds st -> conjState (preds ++ [c]) (whereOrAnd st c ps).
Proof.
  intros [Hw Hu]. split.
  - rewrite conjunction_snoc. unfold whereOrAnd. rewrite Hu. simpl.
    case_bool_decide; simpl; [reflexivity|]. by rewrite Hw.
  - simpl. symmetry. apply bool_decide_eq_false.
    by destruct preds.
Qed.

Lemma stepFlag_conj preds st flag c :
  conjState preds st ->
  conjState (preds ++ recognizedFlag flag c) (stepFlag flag c st).
Proof.
  intros H. unfold stepFlag, recognizedFlag. destruct (isTrueString flag).
  - by apply whereOrAnd_conj.
  - by rewrite app_nil_r.
Qed.

Lemma stepRest_conj rest : forall preds st,
  conjState preds st ->
  conjState (preds ++ map (fun kv => PropEq kv.1) rest) (stepRest rest st).
Proof.
  induction rest as [|kv rest IH]; intros preds st H; simpl.
  - by rewrite app_nil_r.
  - rewrite cons_middle, (assoc_L (++)).
    apply IH. by apply whereOrAnd_conj.
Qed.

Lemma stepName_conj name :
  conjState (recognizedName postgres name)
            (stepName postgres name (Orm.createQueryBuilder, true)).
Proof. destruct name; split; reflexivity. Qed.

(** Where [build] joins with the flag [useWhere], the result is the
    conjunction: a criteria object in which neither a rating nor a price is
    recognized yields every recognized predicate, the first one with [where]
    and the others with [andWhere]. *)
Lemma buildWhere_conjunction_without_rating_preis c :
  recognizedRating (getProp c "rating") = [] ->
  recognizedPreis (getProp c "preis") = [] ->
  wheres (buildWhere postgres c).1 =
  conjunction (recognizedPredicates postgres c).
Proof.
  intros Hr Hp. unfold buildWhere, recognizedPredicates.
  rewrite Hr, Hp.
  assert (Hrating : forall st, stepRating (getProp c "rating") st = st).
  { intros st. revert Hr. unfold stepRating, recognizedRating.
    destruct (getProp c "rating"); try reflexivity;
      by destruct (Js.isNaN _). }
  assert (Hpreis : forall st, stepPreis (getProp c "preis") st = st).
  { intros st. revert Hp. by destruct (getProp c "preis"). }
  rewrite Hrating, Hpreis. rewrite 2!app_nil_l.
  rewrite !(assoc_L (++)).
  apply stepRest_conj.
  do 4 apply stepFlag_conj.
  apply stepName_conj.
Qed.

Lemma whereOrAnd_unpaged st c ps : unpaged st -> unpaged (whereOrAnd st c ps).
Proof. intros [??]. unfold whereOrAnd. by destruct st.2. Qed.

Lemma stepRest_unpaged rest : forall st,
  unpaged st -> unpaged (stepRest rest st).
Proof.
  induction rest as [|kv rest IH]; intros st H; simpl; [done|].
  apply IH. by apply whereOrAnd_unpaged.
Qed.

Lemma buildWhere_unpaged c : unpaged (buildWhere postgres c).
Proof.
  unfold buildWhere. apply stepRest_unpaged.
  assert (Hflag : forall flag cond st,
             unpaged st -> unpaged (stepFlag flag cond st)).
  { intros flag cond st H. unfold stepFlag.
    destruct (isTrueString flag); [by apply whereOrAnd_unpaged | done]. }
  do 4 apply Hflag.
  assert (Hpreis : forall v st, unpaged st -> unpaged (stepPreis v st)).
  { intros v st H. by destruct v. }
  apply Hpreis.
  assert (Hrating : forall v st, unpaged st -> unpaged (stepRating v st)).
  { intros v st H. unfold stepRating.
    destruct v; try done;
      by destruct (negb (Js.isNaN _)). }
  apply Hrating.
  by destruct (getProp c "name").
Qed.

Lemma whereOrAnd_appended x st c ps :
  appended x st -> appended x (whereOrAnd st c ps).
Proof.
  intros [Hin Hu]. split; [|reflexivity].
  unfold whereOrAnd. rewrite Hu. simpl. set_solver.
Qed.

Lemma stepFlag_appended x st flag c :
  appended x st -> appended x (stepFlag flag c st).
Proof.
  intros H. unfold stepFlag.
  destruct (isTrueString flag); [by apply whereOrAnd_appended | done].
Qed.

Lemma stepRest_appended x rest : forall st,
  appended x st -> appended x (stepRest rest st).
Proof.
  induction rest as [|kv rest IH]; intros st H; simpl; [done|].
  apply IH. by apply whereOrAnd_appended.
Qed.

Lemma stepFlag_adds st flag c :
  isTrueString flag = true ->
  appended (WhereSimple, c) (stepFlag flag c st) \/
  appended (WhereAnd, c) (stepFlag flag c st).
Proof.
  intros H. unfold stepFlag, whereOrAnd, appended. rewrite H.
  destruct st.2; simpl; [left | right]; split; set_solver.
Qed.

Lemma paginate_wheres qb pageable :
  wheres (paginate DEFAULT_PAGE_SIZE DEFAULT_PAGE_NUMBER qb pageable)
  = wheres qb.
Proof. unfold paginate. by case_decide. Qed.

(** A recognized rating sets its condition with [where] and so replaces
    whatever was set before it. *)
Lemma stepRating_resets rating st :
  recognizedRating rating <> [] ->
  wheres (stepRating rating st).1
  = [(WhereSimple, RatingGe (ratingNumberOf rating))]
  /\ (stepRating rating st).2 = false.
Proof.
  unfold recognizedRating, stepRating.
  destruct rating; try done; by destruct (Js.isNaN _).
Qed.

Lemma whereOrAnd_all P st c ps :
  P c -> allConditions P st -> allConditions P (whereOrAnd st c ps).
Proof.
  unfold allConditions, whereOrAnd. intros Hc H.
  destruct st.2; simpl.
  - by repeat constructor.
  - rewrite map_app. apply Forall_app. split; [done | by repeat constructor].
Qed.

Lemma stepFlag_all P st flag c :
  P c -> allConditions P st -> allConditions P (stepFlag flag c st).
Proof.
  intros Hc H. unfold stepFlag.
  destruct (isTrueString flag); [by apply whereOrAnd_all | done].
Qed.

Lemma stepRest_all P rest : forall st,
  (forall key, P (PropEq key)) ->
  allConditions P st -> allConditions P (stepRest rest st).
Proof.
  induction rest as [|kv rest IH]; intros st HP H; simpl; [done|].
  apply IH; [done|]. by apply whereOrAnd_all.
Qed.

Lemma stepPreis_all P preis st :
  (forall p, P (PreisLe p)) ->
  allConditions P st -> allConditions P (stepPreis preis st).
Proof.
  intros HP H. destruct preis; try done.
  unfold allConditions. simpl. by repeat constructor.
Qed.

(** C1, the defect: whenever a criteria object carries a name to search for
    and a rating that is recognized, the query that [build] produces has lost
    the name predicate, so it is not the conjunction of the recognized
    predicates: [where] for the rating overwrites the filter instead of
    adding to it with [andWhere]. *)
Theorem build_rating_discards_name c pageable :
  recognizedName postgres (getProp c "name") <> [] ->
  recognizedRating (getProp c "rating") <> [] ->
  let q := build postgres DEFAULT_PAGE_SIZE DEFAULT_PAGE_NUMBER c pageable in
  (NameLike postgres ∉ conditions q) /\
  wheres q <> conjunction (recognizedPredicates postgres c).
Proof.
  intros Hname Hrating q.
  assert (Hnot : NameLike postgres ∉ conditions q).
  { unfold q, conditions, build. rewrite paginate_wheres.
    assert (H : allConditions (fun x => x <> NameLike postgres)
                  (buildWhere postgres c)).
    { unfold buildWhere.
      apply stepRest_all; [done|].
      do 4 (apply stepFlag_all; [done|]).
      apply stepPreis_all; [done|].
      unfold allConditions.
      destruct (stepRating_resets (getProp c "rating")
                  (stepName postgres (getProp c "name")
                     (Orm.createQueryBuilder, true)) Hrating) as [-> _].
      by repeat constructor. }
    unfold allConditions in H. rewrite Forall_forall in H.
    intros Hin. by apply (H _ Hin). }
  split; [done|].
  intros Heq. apply Hnot. unfold conditions. rewrite Heq.
  unfold recognizedPredicates.
  destruct (recognizedName postgres (getProp c "name")) as [|n ns] eqn:E;
    [done|].
  assert (n = NameLike postgres) as ->.
  { revert E. unfold recognizedName.
    destruct (getProp c "name"); intros; simplify_eq; done. }
  simpl. set_solver.
Qed.

(** C8: pagination.  A page size that is exactly zero leaves the query
    without limit and offset, whatever the page number.  Otherwise the limit
    is the page size and the offset is page number times page size, with
    [DEFAULT_PAGE_SIZE] standing in for an absent size and
    [DEFAULT_PAGE_NUMBER] for an absent number, also when there is no page
    descriptor at all.  The products are the ones of the code where they are
    safe integers.  The filter is the one of the where part. *)
Theorem build_pagination c pageable :
  let q := build postgres DEFAULT_PAGE_SIZE DEFAULT_PAGE_NUMBER c pageable in
  (forall number,
     pageable = Some (Pageable.mk number (Some 0)) ->
     take_ q = None /\ skip_ q = None) /\
  (forall number size,
     pageable = Some (Pageable.mk (Some number) (Some size)) ->
     size <> 0 -> Js.isSafeInteger (number * size) = true ->
     take_ q = Some size /\ skip_ q = Some (number * size)) /\
  (forall size,
     pageable = Some (Pageable.mk None (Some size)) ->
     size <> 0 -> Js.isSafeInteger (DEFAULT_PAGE_NUMBER * size) = true ->
     take_ q = Some size /\ skip_ q = Some (DEFAULT_PAGE_NUMBER * size)) /\
  (forall number,
     pageable = Some (Pageable.mk (Some number) None) ->
     Js.isSafeInteger (number * DEFAULT_PAGE_SIZE) = true ->
     take_ q = Some DEFAULT_PAGE_SIZE /\
     skip_ q = Some (number * DEFAULT_PAGE_SIZE)) /\
  (pageable = Some (Pageable.mk None None) \/ pageable = None ->
   Js.isSafeInteger (DEFAULT_PAGE_NUMBER * DEFAULT_PAGE_SIZE) = true ->
   take_ q = Some DEFAULT_PAGE_SIZE /\
   skip_ q = Some (DEFAULT_PAGE_NUMBER * DEFAULT_PAGE_SIZE)) /\
  wheres q = wheres (buildWhere postgres c).1.
Proof.
  intros q.
  destruct (buildWhere_unpaged c) as [Ht Hs].
  unfold q, build, paginate.
  split; [|split; [|split; [|split; [|split]]]].
  - by intros number ->.
  - intros number size -> Hsize _. cbn.
    by rewrite decide_False by congruence.
  - intros size -> Hsize _. cbn. by rewrite decide_False by congruence.
  - by intros number -> _.
  - by intros [-> | ->] _.
  - by case_decide.
Qed.

End QueryBuilderFacts.

(** The third page of five items, and the page size zero. *)
Lemma build_pagination_witness :
  (let q := build true 10 0 [] (Some (Pageable.mk (Some 2) (Some 5))) in
   take_ q = Some 5 /\ skip_ q = Some (2 * 5)) /\
  (let q := build true 10 0 [] (Some (Pageable.mk (Some 2) (Some 0))) in
   take_ q = None /\ skip_ q = None) /\
  (let q := build true 10 0 [] None in
   take_ q = Some 10 /\ skip_ q = Some (0 * 10)).
Proof.
  split; [|split]; intros q.
  - destruct (build_pagination true 10 0 []
                (Some (Pageable.mk (Some 2) (Some 5))))
      as (_ & Hpage & _).
    apply (Hpage 2 5); [reflexivity | lia | reflexivity].
  - destruct (build_pagination true 10 0 []
                (Some (Pageable.mk (Some 2) (Some 0))))
      as (Hzero & _).
    apply (Hzero (Some 2)). reflexivity.
  - destruct (build_pagination true 10 0 [] None)
      as (_ & _ & _ & _ & Hdefault & _).
    apply Hdefault; [by right | reflexivity].
Defined.

(** ** Keyword flags *)

Lemma append_String c a b : String c a +:+ b = String c (a +:+ b).
Proof. reflexivity. Qed.

Lemma append_empty_l b : "" +:+ b = b.
Proof. reflexivity. Qed.

Lemma append_assoc a b c : (a +:+ b) +:+ c = a +:+ (b +:+ c).
Proof.
  induction a as [|x a IH]; [reflexivity|].
  by rewrite !append_String, IH.
Qed.

(** One unfolding of [LIKE] at a leading [%]. *)
Lemma like_percent p s :
  Sql.like (String "%" p) s =
  Sql.like p s || match s with
                  | String _ s' => Sql.like (String "%" p) s'
                  | EmptyString => false
                  end.
Proof. by destruct s. Qed.

Lemma like_percent_only s : Sql.like "%" s = true.
Proof.
  induction s as [|c s IH]; [reflexivity|].
  rewrite like_percent, IH. apply orb_true_r.
Qed.

Lemma like_literal c p s :
  Ascii.eqb c "%" = false -> Ascii.eqb c "_" = false ->
  Sql.like (String c p) s =
  match s with
  | String d s' => Ascii.eqb c d && Sql.like p s'
  | EmptyString => false
  end.
Proof. intros H1 H2. simpl. rewrite H1, H2. by destruct s. Qed.

(** A wildcard-free text followed by [%] matches the strings that start
    with the text. *)
Lemma like_prefix x : forall s,
  wildcardFree x = true ->
  Sql.like (x +:+ "%") s = Js.startsWith x s.
Proof.
  induction x as [|c x IH]; intros s Hx.
  - rewrite append_empty_l. apply like_percent_only.
  - simpl in Hx. apply andb_true_iff in Hx as [Hx Hx'].
    apply andb_true_iff in Hx as [H1 H2].
    apply negb_true_iff in H1, H2.
    rewrite append_String, like_literal by done.
    destruct s as [|d s]; [reflexivity|]. simpl. by rewrite IH.
Qed.

(** [LIKE '%x%'] is the case sensitive substring test. *)
Lemma like_includes x s :
  wildcardFree x = true ->
  Sql.like (String "%" (x +:+ "%")) s = Js.includes x s.
Proof.
  intros Hx. induction s as [|d s IH].
  - rewrite like_percent, like_prefix by done. simpl.
    by destruct (Js.startsWith x "").
  - rewrite like_percent, like_prefix, IH by done. by destruct x.
Qed.

Lemma like_JAVA s : Sql.like "%JAVA%" s = Js.includes "JAVA" s.
Proof. exact (like_includes "JAVA" s eq_refl). Qed.

Lemma like_JAVASCRIPT s :
  Sql.like "%JAVASCRIPT%" s = Js.includes "JAVASCRIPT" s.
Proof. exact (like_includes "JAVASCRIPT" s eq_refl). Qed.

Lemma like_TYPESCRIPT s :
  Sql.like "%TYPESCRIPT%" s = Js.includes "TYPESCRIPT" s.
Proof. exact (like_includes "TYPESCRIPT" s eq_refl). Qed.

Lemma like_PYTHON s : Sql.like "%PYTHON%" s = Js.includes "PYTHON" s.
Proof. exact (like_includes "PYTHON" s eq_refl). Qed.

Lemma removeFrom_skip k from c s :
  Sql.removeFrom (S k) from (String c s) = Sql.removeFrom k from s.
Proof. reflexivity. Qed.

Lemma removeFrom_scan from c s :
  Sql.removeFrom 0 from (String c s) =
  if negb (String.eqb from "") && Js.startsWith from (String c s)
  then Sql.removeFrom (String.length from - 1) from s
  else String c (Sql.removeFrom 0 from s).
Proof. reflexivity. Qed.

Lemma includes_String x c t :
  Js.includes x (String c t) =
  Js.startsWith x (String c t) || Js.includes x t.
Proof. by destruct x. Qed.

(** An occurrence of JAVASCRIPT that starts before a keyword JAVA ends
    before it: no letter of JAVASCRIPT after the first is a J. *)
Lemma occurrence_before_java pre post :
  pre <> "" ->
  Js.startsWith "JAVASCRIPT" (pre +:+ "JAVA" +:+ post) = true ->
  (10 <= String.length pre)%nat.
Proof.
  intros Hne H.
  destruct pre as [|c0 pre]; [done|].
  do 9 (destruct pre as [|? pre];
        [exfalso; rewrite ?append_String, ?append_empty_l in H;
         simpl in H;
         repeat (apply andb_true_iff in H as [_ H]); discriminate|]).
  simpl. lia.
Qed.

(** Removing JAVASCRIPT leaves a keyword JAVA in place when no SCRIPT
    follows it. *)
Lemma removeFrom_keeps_java post :
  Js.startsWith "SCRIPT" post = false ->
  forall pre k,
    (k <= String.length pre)%nat ->
    Js.includes "JAVA"
      (Sql.removeFrom k "JAVASCRIPT" (pre +:+ "JAVA" +:+ post)) = true.
Proof.
  intros Hpost. induction pre as [|c pre IH]; intros k Hk.
  - simpl in Hk. assert (k = 0%nat) as -> by lia.
    rewrite append_empty_l, !append_String, append_empty_l.
    rewrite removeFrom_scan.
    change (Js.startsWith "JAVASCRIPT"
              (String "J" (String "A" (String "V" (String "A" post)))))
      with (Js.startsWith "SCRIPT" post).
    rewrite Hpost. reflexivity.
  - rewrite append_String. destruct k as [|k].
    + rewrite removeFrom_scan.
      destruct (negb (String.eqb "JAVASCRIPT" "")
                && Js.startsWith "JAVASCRIPT"
                     (String c (pre +:+ "JAVA" +:+ post))) eqn:E.
      * apply IH.
        apply andb_true_iff in E as [_ E].
        rewrite <- append_String in E.
        apply occurrence_before_java in E; [|done].
        simpl in E. simpl. lia.
      * rewrite includes_String, IH by lia. apply orb_true_r.
    + rewrite removeFrom_skip. apply IH. simpl in Hk. lia.
Qed.

Lemma append_empty_r a : a +:+ "" = a.
Proof.
  induction a as [|c a IH]; [reflexivity|].
  by rewrite append_String, IH.
Qed.

(** A keyword of the list stands in the stored text, followed by nothing or
    by the comma that separates it from the next one. *)
Lemma simpleArray_elem k ks :
  k ∈ ks ->
  exists pre post,
    simpleArray ks = pre +:+ k +:+ post /\
    (post = "" \/ exists post', post = String "," post').
Proof.
  induction ks as [|a ks IH]; intros Hin; [by apply elem_of_nil in Hin|].
  apply elem_of_cons in Hin as [-> | Hin].
  - exists "". destruct ks as [|b ks].
    + exists "". split; [|by left]. simpl.
      by rewrite append_empty_l, append_empty_r.
    + exists ("," +:+ simpleArray (b :: ks)). split; [reflexivity|].
      right. by eexists.
  - destruct (IH Hin) as (pre & post & Heq & Hpost).
    destruct ks as [|b ks]; [by apply elem_of_nil in Hin|].
    exists (a +:+ "," +:+ pre), post. split; [|done].
    change (simpleArray (a :: b :: ks))
      with (a +:+ "," +:+ simpleArray (b :: ks)).
    by rewrite Heq, !append_assoc.
Qed.

Lemma startsWith_String a p b s :
  Js.startsWith (String a p) (String b s) = Ascii.eqb a b && Js.startsWith p s.
Proof. reflexivity. Qed.

Lemma includes_J_String c t :
  Js.includes "J" (String c t) = false ->
  Ascii.eqb "J" c = false /\ Js.includes "J" t = false.
Proof.
  rewrite includes_String. intros H. apply orb_false_iff in H as [H1 H2].
  simpl in H1. rewrite andb_true_r in H1. done.
Qed.

Lemma includes_J_append a b :
  Js.includes "J" a = false -> Js.includes "J" b = false ->
  Js.includes "J" (a +:+ b) = false.
Proof.
  intros Ha Hb. induction a as [|c a IH]; [done|].
  apply includes_J_String in Ha as [Hc Ha].
  rewrite append_String, includes_String, IH by done.
  by rewrite startsWith_String, Hc.
Qed.

(** Text without the letter J is copied as it is. *)
Lemma removeFrom_no_J k s :
  Js.includes "J" k = false ->
  Sql.removeFrom 0 "JAVASCRIPT" (k +:+ s)
  = k +:+ Sql.removeFrom 0 "JAVASCRIPT" s.
Proof.
  induction k as [|c k IH]; intros Hk; [reflexivity|].
  apply includes_J_String in Hk as [Hc Hk].
  rewrite !append_String, removeFrom_scan.
  rewrite startsWith_String, Hc, IH by done.
  reflexivity.
Qed.

(** A keyword JAVASCRIPT is removed whole. *)
Lemma removeFrom_JAVASCRIPT s :
  Sql.removeFrom 0 "JAVASCRIPT" ("JAVASCRIPT" +:+ s)
  = Sql.removeFrom 0 "JAVASCRIPT" s.
Proof. reflexivity. Qed.

Lemma removeFrom_empty k from : Sql.removeFrom k from "" = "".
Proof. by destruct k. Qed.

Lemma removeAll_without_J ks :
  (forall k, k ∈ ks -> k = "JAVASCRIPT" \/ Js.includes "J" k = false) ->
  Js.includes "J" (Sql.removeAll (simpleArray ks) "JAVASCRIPT") = false.
Proof.
  unfold Sql.removeAll.
  induction ks as [|a ks IH]; intros H; [reflexivity|].
  assert (Ha : a = "JAVASCRIPT" \/ Js.includes "J" a = false)
    by (apply H, elem_of_cons; by left).
  assert (IH' : Js.includes "J"
                  (Sql.removeFrom 0 "JAVASCRIPT" (simpleArray ks)) = false)
    by (apply IH; intros k Hk; apply H, elem_of_cons; by right).
  destruct ks as [|b ks].
  - destruct Ha as [-> | Ha]; [reflexivity|].
    simpl simpleArray. rewrite <- (append_empty_r a).
    rewrite removeFrom_no_J, removeFrom_empty, append_empty_r by done.
    done.
  - change (simpleArray (a :: b :: ks))
      with (a +:+ "," +:+ simpleArray (b :: ks)).
    destruct Ha as [-> | Ha].
    + rewrite removeFrom_JAVASCRIPT, (removeFrom_no_J ",") by done.
      by apply includes_J_append.
    + rewrite removeFrom_no_J, (removeFrom_no_J ",") by done.
      apply includes_J_append; [done|]. by apply includes_J_append.
Qed.

Lemma includes_JAVA_needs_J t :
  Js.includes "J" t = false -> Js.includes "JAVA" t = false.
Proof.
  induction t as [|c t IH]; intros H; [reflexivity|].
  apply includes_J_String in H as [Hc Ht].
  rewrite includes_String, IH by done.
  by rewrite startsWith_String, Hc.
Qed.

Lemma appended_condition t c st :
  appended (t, c) st -> c ∈ map snd (wheres st.1).
Proof.
  intros [Hin _]. apply list_elem_of_In, in_map_iff.
  exists (t, c). split; [done | by apply list_elem_of_In].
Qed.

Lemma flag_condition_kept c st :
  appended (WhereSimple, c) st \/ appended (WhereAnd, c) st ->
  c ∈ map snd (wheres st.1).
Proof. intros [H | H]; by eapply appended_condition. Qed.

Lemma appended_or x y st st' :
  (forall z, appended z st -> appended z st') ->
  appended x st \/ appended y st -> appended x st' \/ appended y st'.
Proof. intros H [?|?]; [left | right]; by apply H. Qed.

(** C9: keyword flags.  A flag that is ['true'] puts its condition into the
    query, whatever else the criteria hold.  The conditions are case
    sensitive substring tests on the stored keyword text; the one of [java]
    tests the text from which every JAVASCRIPT was removed.  So an item with
    the keyword JAVA matches the [java] flag, also next to JAVASCRIPT, and an
    item whose keywords are JAVASCRIPT and others without the letter J does
    not. *)
Theorem keyword_flag_matching postgres pageSize pageNumber :
  (forall c pageable,
     let q := build postgres pageSize pageNumber c pageable in
     (isTrueString (getProp c "javascript") = true ->
      condJavascript ∈ conditions q) /\
     (isTrueString (getProp c "typescript") = true ->
      condTypescript ∈ conditions q) /\
     (isTrueString (getProp c "java") = true -> condJava ∈ conditions q) /\
     (isTrueString (getProp c "python") = true ->
      condPython ∈ conditions q)) /\
  (forall blob,
     holdsOnSchlagwoerter condJavascript blob
     = Some (Js.includes "JAVASCRIPT" blob) /\
     holdsOnSchlagwoerter condTypescript blob
     = Some (Js.includes "TYPESCRIPT" blob) /\
     holdsOnSchlagwoerter condPython blob
     = Some (Js.includes "PYTHON" blob) /\
     holdsOnSchlagwoerter condJava blob
     = Some (Js.includes "JAVA" (Sql.removeAll blob "JAVASCRIPT"))) /\
  (forall keywords,
     "JAVA" ∈ keywords ->
     holdsOnSchlagwoerter condJava (simpleArray keywords) = Some true) /\
  (forall keywords,
     (forall k, k ∈ keywords ->
                k = "JAVASCRIPT" \/ Js.includes "J" k = false) ->
     holdsOnSchlagwoerter condJava (simpleArray keywords) = Some false) /\
  holdsOnSchlagwoerter condJavascript (simpleArray ["javascript"])
  = Some false.
Proof.
  split; [|split; [|split; [|split]]].
  - intros c pageable q. unfold q, conditions, build.
    rewrite paginate_wheres. unfold buildWhere.
    repeat split; intros H; apply flag_condition_kept.
    + eapply appended_or; [intros z; apply stepRest_appended|].
      do 3 (eapply appended_or; [intros z; apply stepFlag_appended|]).
      by apply stepFlag_adds.
    + eapply appended_or; [intros z; apply stepRest_appended|].
      do 2 (eapply appended_or; [intros z; apply stepFlag_appended|]).
      by apply stepFlag_adds.
    + eapply appended_or; [intros z; apply stepRest_appended|].
      eapply appended_or; [intros z; apply stepFlag_appended|].
      by apply stepFlag_adds.
    + eapply appended_or; [intros z; apply stepRest_appended|].
      by apply stepFlag_adds.
  - intros blob. unfold holdsOnSchlagwoerter, condJavascript, condTypescript,
      condPython, condJava.
    by rewrite like_JAVASCRIPT, like_TYPESCRIPT, like_PYTHON, like_JAVA.
  - intros keywords Hin. unfold holdsOnSchlagwoerter, condJava.
    rewrite like_JAVA. f_equal.
    destruct (simpleArray_elem _ _ Hin) as (pre & post & -> & Hpost).
    apply removeFrom_keeps_java; [|lia].
    by destruct Hpost as [-> | [post' ->]].
  - intros keywords H. unfold holdsOnSchlagwoerter, condJava.
    rewrite like_JAVA. f_equal.
    by apply includes_JAVA_needs_J, removeAll_without_J.
  - reflexivity.
Qed.

(** The two items the specification names: the keywords JAVA and JAVASCRIPT
    together match the [java] flag, JAVASCRIPT alone does not; and the
    criteria [{ java: 'true' }] carry the condition. *)
Lemma keyword_flag_matching_witness :
  holdsOnSchlagwoerter condJava (simpleArray ["JAVA"; "JAVASCRIPT"])
  = Some true /\
  holdsOnSchlagwoerter condJava (simpleArray ["JAVASCRIPT"]) = Some false /\
  condJava ∈ conditions (build true 10 0 [("java", JsString "true")] None).
Proof.
  destruct (keyword_flag_matching true 10 0) as (Hq & _ & Hyes & Hno & _).
  split; [|split].
  - apply Hyes. apply elem_of_cons. by left.
  - apply Hno. intros k Hk. left.
    apply elem_of_cons in Hk as [-> | Hk]; [done|].
    by apply elem_of_nil in Hk.
  - by apply (Hq [("java", JsString "true")] None).
Defined.

(** The defect on the criteria [{ name: 'a', rating: 5 }]: the only
    condition left is the one on the rating. *)
Lemma build_rating_discards_name_witness :
  let c := [("name", JsString "a"); ("rating", JsNumber 5)] in
  let q := build true 10 0 c None in
  wheres q = [(WhereSimple, RatingGe (JsNumber 5))] /\
  (NameLike true ∉ conditions q) /\
  wheres q <> conjunction (recognizedPredicates true c).
Proof.
  intros c q. split; [reflexivity|].
  apply (build_rating_discards_name true 10 0 c None); by vm_compute.
Defined.

(** ** The read service *)

Lemma checkKeys_fold keys : forall b,
  fold_left
    (fun validKeys key =>
       if negb (bool_decide (key ∈ Spiel.ownPropertyNames))
          && negb (String.eqb key "javascript")
          && negb (String.eqb key "typescript")
          && negb (String.eqb key "java")
          && negb (String.eqb key "python")
       then false
       else validKeys)
    keys b
  = b && forallb validKey keys.
Proof.
  induction keys as [|k keys IH]; intros b; simpl.
  - by rewrite andb_true_r.
  - rewrite IH. unfold validKey.
    destruct (bool_decide (k ∈ Spiel.ownPropertyNames)),
      (String.eqb k "javascript"), (String.eqb k "typescript"),
      (String.eqb k "java"), (String.eqb k "python"), b; reflexivity.
Qed.

Lemma checkKeys_forallb keys :
  SpielReadService.checkKeys keys = forallb validKey keys.
Proof. unfold SpielReadService.checkKeys. by rewrite checkKeys_fold. Qed.

Lemma validKey_false key :
  key ∉ Spiel.ownPropertyNames ->
  key ∉ ["javascript"; "typescript"; "java"; "python"] ->
  validKey key = false.
Proof.
  intros Hprop Hflag. unfold validKey.
  rewrite bool_decide_eq_false_2 by done. simpl.
  repeat (apply orb_false_iff; split);
    apply String.eqb_neq; intros ->; apply Hflag; set_solver.
Qed.

Lemma getProp_keys c key v :
  getProp c key = v -> v <> JsUndefined -> objectKeys c <> [].
Proof. intros H Hv. destruct c; [by subst|done]. Qed.

(** C5: a criteria object with a key that is neither a property of the
    entity nor a keyword flag makes [find] fail with the not-found failure
    of invalid criteria; the state is left as it was, in particular no query
    was issued. *)
Theorem find_unrecognized_key postgres pageSize pageNumber selectMany
    selectCount (c : JsObject) pageable st key :
  key ∈ objectKeys c ->
  key ∉ Spiel.ownPropertyNames ->
  key ∉ ["javascript"; "typescript"; "java"; "python"] ->
  SpielReadService.find postgres pageSize pageNumber selectMany selectCount
    (Some c) pageable st
  = (inl (NotFoundException UngueltigeSuchkriterien), st).
Proof.
  intros Hin Hprop Hflag. unfold SpielReadService.find.
  rewrite bool_decide_eq_false_2
    by (intros E; rewrite E in Hin; by apply elem_of_nil in Hin).
  assert (SpielReadService.checkKeys (objectKeys c) = false) as ->;
    [|reflexivity].
  rewrite checkKeys_forallb. apply not_true_is_false. intros Hall.
  rewrite forallb_forall in Hall.
  apply list_elem_of_In, Hall in Hin.
  by rewrite validKey_false in Hin.
Qed.

(** The criteria [{ foo: 'bar' }] of the test suite. *)
Lemma find_unrecognized_key_witness :
  SpielReadService.find true 10 0 (fun _ _ => []) (fun _ _ => 0)
       (Some [("foo", JsString "bar")]) (Pageable.mk (Some 0) (Some 10))
       emptyState
  = (inl (NotFoundException UngueltigeSuchkriterien), emptyState).
Proof.
  apply (find_unrecognized_key true 10 0 _ _ _ _ _ "foo");
    compute_done.
Defined.

(** C10: a criteria object whose [art] is one of the category values of the
    entity makes [find] fail with the not-found failure of invalid criteria,
    because [#checkEnums] accepts EPUB, HARDCOVER and PAPERBACK only. *)
Theorem find_by_category postgres pageSize pageNumber selectMany selectCount
    (c : JsObject) pageable st art :
  art ∈ spielArtValues ->
  getProp c "art" = JsString art ->
  SpielReadService.find postgres pageSize pageNumber selectMany selectCount
    (Some c) pageable st
  = (inl (NotFoundException UngueltigeSuchkriterien), st).
Proof.
  intros Hart Hget. unfold SpielReadService.find.
  rewrite bool_decide_eq_false_2 by (by eapply getProp_keys).
  assert (SpielReadService.checkEnums c = false) as ->.
  { unfold SpielReadService.checkEnums. rewrite Hget.
    unfold spielArtValues in Hart.
    repeat (apply elem_of_cons in Hart as [-> | Hart]; [reflexivity|]).
    by apply elem_of_nil in Hart. }
  by rewrite orb_true_r.
Qed.

(** The search for the category BRETTSPIEL of the test suite. *)
Lemma find_by_category_witness :
  SpielReadService.find true 10 0 (fun _ _ => []) (fun _ _ => 0)
       (Some [("art", JsString "BRETTSPIEL")])
       (Pageable.mk (Some 0) (Some 10)) emptyState
  = (inl (NotFoundException UngueltigeSuchkriterien), emptyState).
Proof.
  apply (find_by_category true 10 0 _ _ _ _ _ "BRETTSPIEL");
    [compute_done | reflexivity].
Defined.

(** ** Version tokens *)

Lemma isDigit_not_whiteSpace c :
  Js.isDigit c = true -> Js.isWhiteSpace c = false.
Proof.
  unfold Js.isDigit, Js.isWhiteSpace. intros H.
  apply andb_true_iff in H as [H1 H2].
  apply Nat.leb_le in H1, H2.
  apply orb_false_iff. split.
  - apply andb_false_iff. right. apply Nat.leb_gt. lia.
  - apply Nat.eqb_neq. lia.
Qed.

Lemma isDigit_not_sign c :
  Js.isDigit c = true ->
  Ascii.eqb c "-" = false /\ Ascii.eqb c "+" = false.
Proof.
  intros H. split; apply Ascii.eqb_neq; intros ->; discriminate.
Qed.

Lemma isDigit_not_dquote c :
  Js.isDigit c = true -> Ascii.eqb c Js.dquote = false.
Proof. intros H. apply Ascii.eqb_neq. intros ->. discriminate. Qed.

Lemma startsWithDquote_inv s :
  SpielWriteService.startsWithDquote s = true ->
  exists rest, s = String Js.dquote rest.
Proof.
  destruct s as [|c s]; [done|]. simpl. intros H.
  apply Ascii.eqb_eq in H as ->. by eexists.
Qed.

(** The matcher accepts exactly the strings that begin with one to [n]
    digits and a double quote. *)
Lemma digitsThenDquote_sound n : forall s,
  SpielWriteService.digitsThenDquote n s = true ->
  exists digits rest,
    (1 <= String.length digits <= n)%nat /\ allDigits digits = true /\
    s = digits +:+ String Js.dquote rest.
Proof.
  induction n as [|n IH]; intros s H; [by destruct s|].
  destruct s as [|c s]; [done|]. simpl in H.
  apply andb_true_iff in H as [Hc H].
  apply orb_true_iff in H as [H | H].
  - apply startsWithDquote_inv in H as [rest ->].
    exists (String c ""), rest. simpl. rewrite Hc. repeat split; lia.
  - apply IH in H as (digits & rest & Hlen & Hall & ->).
    exists (String c digits), rest. simpl. rewrite Hc, Hall.
    repeat split; lia.
Qed.

Lemma digitsThenDquote_complete digits : forall n rest,
  (1 <= String.length digits <= n)%nat -> allDigits digits = true ->
  SpielWriteService.digitsThenDquote n (digits +:+ String Js.dquote rest)
  = true.
Proof.
  induction digits as [|c digits IH]; intros n rest Hlen Hall;
    [simpl in Hlen; lia|].
  destruct n as [|n]; [simpl in Hlen; lia|].
  simpl in Hall. apply andb_true_iff in Hall as [Hc Hall].
  rewrite append_String. simpl. rewrite Hc. simpl.
  destruct digits as [|d digits].
  - by rewrite append_empty_l.
  - rewrite IH; [apply orb_true_r | simpl in *; lia | done].
Qed.

Lemma VERSION_PATTERN_test_spec token :
  SpielWriteService.VERSION_PATTERN_test token = true
  <-> beginsWithQuotedDigits token.
Proof.
  split.
  - destruct token as [|c s]; [done|].
    unfold SpielWriteService.VERSION_PATTERN_test.
    intros H. apply andb_true_iff in H as [Hc H].
    apply Ascii.eqb_eq in Hc as ->.
    apply digitsThenDquote_sound in H as (digits & rest & Hlen & Hall & ->).
    by exists digits, rest.
  - intros (digits & rest & Hlen & Hall & ->).
    unfold SpielWriteService.VERSION_PATTERN_test.
    rewrite Ascii.eqb_refl. by apply digitsThenDquote_complete.
Qed.

Lemma decimalDigits_stop digits : forall acc tail,
  allDigits digits = true ->
  SpielWriteService.startsWithDquote tail = true \/ tail = "" ->
  Js.decimalDigits acc (digits +:+ tail) = Js.decimalDigits acc digits.
Proof.
  induction digits as [|c digits IH]; intros acc tail Hall Htail.
  - rewrite append_empty_l. destruct Htail as [H | ->]; [|done].
    apply startsWithDquote_inv in H as [rest ->]. reflexivity.
  - simpl in Hall. apply andb_true_iff in Hall as [Hc Hall].
    rewrite append_String. simpl. rewrite Hc. by apply IH.
Qed.

Lemma decimalDigits_Some digits : forall acc,
  digits <> "" -> allDigits digits = true ->
  is_Some (Js.decimalDigits acc digits).
Proof.
  induction digits as [|c digits IH]; intros acc Hne Hall; [done|].
  simpl in Hall. apply andb_true_iff in Hall as [Hc Hall].
  simpl. rewrite Hc. destruct digits as [|d digits]; [by eexists|].
  by apply IH.
Qed.

Lemma dropLast_append digits : forall tail,
  tail <> "" -> Js.dropLast (digits +:+ tail) = digits +:+ Js.dropLast tail.
Proof.
  induction digits as [|c digits IH]; intros tail Hne; [reflexivity|].
  rewrite !append_String. simpl.
  destruct (digits +:+ tail) eqn:E.
  - destruct digits, tail; simpl in E; done.
  - rewrite <- E. by rewrite IH.
Qed.

Lemma dropLast_dquote rest :
  SpielWriteService.startsWithDquote (Js.dropLast (String Js.dquote rest))
  = true
  \/ Js.dropLast (String Js.dquote rest) = "".
Proof. destruct rest; [by right | by left]. Qed.

(** The number that [#validateUpdate] reads out of a token that passes the
    pattern is the number its digits write. *)
Lemma parse_version_token digits rest :
  (1 <= String.length digits)%nat -> allDigits digits = true ->
  Js.parseInt10
    (Js.slice_1_m1 (String Js.dquote (digits +:+ String Js.dquote rest)))
  = JsNumber (valueOfDigits digits).
Proof.
  intros Hlen Hall. unfold Js.slice_1_m1.
  rewrite dropLast_append by done.
  assert (Hne : digits <> "") by (intros ->; simpl in Hlen; lia).
  destruct digits as [|c digits]; [done|].
  pose proof Hall as Hall'. simpl in Hall'.
  apply andb_true_iff in Hall' as [Hc _].
  unfold Js.parseInt10. rewrite append_String.
  simpl Js.trimStart. rewrite (isDigit_not_whiteSpace c Hc).
  unfold Js.stripSign.
  destruct (isDigit_not_sign c Hc) as [-> ->].
  rewrite <- append_String.
  rewrite decimalDigits_stop by (done || apply dropLast_dquote).
  unfold valueOfDigits.
  destruct (decimalDigits_Some (String c digits) None Hne Hall) as [v ->].
  simpl. f_equal. lia.
Qed.

(** ** The write service *)

Lemma findById_found id mitBilder st spiel :
  Repo.getOneById id mitBilder st = Some spiel ->
  SpielReadService.findById id mitBilder st
  = (inr (SpielReadService.nullToEmpty spiel), st).
Proof. intros H. unfold SpielReadService.findById. by rewrite H. Qed.

Lemma findById_missing id mitBilder st :
  Repo.getOneById id mitBilder st = None ->
  SpielReadService.findById id mitBilder st
  = (inl (NotFoundException (KeinSpielMitId (Some id))), st).
Proof. intros H. unfold SpielReadService.findById. by rewrite H. Qed.

Lemma findById_inv id mitBilder st r st' :
  SpielReadService.findById id mitBilder st = (r, st') ->
  st' = st /\
  match r with
  | inl e => e = NotFoundException (KeinSpielMitId (Some id))
             /\ Repo.getOneById id mitBilder st = None
  | inr spiel =>
      exists row n,
        spiele st !! id = Some row /\
        Spiel.name (row_data row) = Some n /\
        Spiel.id spiel = Some id /\
        Spiel.version spiel = Some (row_version row)
  end.
Proof.
  unfold SpielReadService.findById, Repo.getOneById.
  destruct (spiele st !! id) as [row|] eqn:Hrow.
  - destruct (Spiel.name (row_data row)) as [n|] eqn:Hn.
    + intros [= <- <-]. split; [done|]. exists row, n.
      repeat split; try done;
        unfold SpielReadService.nullToEmpty; simpl;
        by destruct (Spiel.schlagwoerter (row_data row)).
    + by intros [= <- <-].
  - by intros [= <- <-].
Qed.

Lemma versions_setSpiele m st :
  versions (setSpiele m st) = row_version <$> m.
Proof. reflexivity. Qed.

Lemma versions_emit e st : versions (emit e st) = versions st.
Proof. reflexivity. Qed.

Lemma versions_lookup st j :
  versions st !! j = row_version <$> spiele st !! j.
Proof. unfold versions. apply lookup_fmap. Qed.

Lemma deleteName_sameVersions nameId st :
  exists st', Repo.deleteName nameId st = (inr tt, st') /\
              sameVersions st st'.
Proof.
  eexists. split; [reflexivity|]. split; [|reflexivity].
  rewrite versions_emit, versions_setSpiele, <- map_fmap_compose.
  apply map_fmap_ext. intros j row _. simpl.
  by destruct (Repo.hasNameId nameId row).
Qed.

Lemma deleteBild_sameVersions bildId st :
  exists st', Repo.deleteBild bildId st = (inr tt, st') /\
              sameVersions st st'.
Proof.
  eexists. split; [reflexivity|]. split; [|reflexivity].
  rewrite versions_emit, versions_setSpiele, <- map_fmap_compose.
  by apply map_fmap_ext.
Qed.

Lemma forEach_deleteBild_sameVersions bilder : forall st,
  exists st',
    forEach bilder
      (fun bild =>
         match Bild.id bild with
         | Some bildId => Repo.deleteBild bildId
         | None => ret tt
         end) st = (inr tt, st') /\
    sameVersions st st'.
Proof.
  induction bilder as [|b bilder IH]; intros st; simpl.
  - by exists st.
  - unfold bind.
    assert (exists st1,
               match Bild.id b with
               | Some bildId => Repo.deleteBild bildId
               | None => ret tt
               end st = (inr tt, st1) /\ sameVersions st st1)
      as (st1 & -> & Hv1 & Hs1).
    { destruct (Bild.id b); [apply deleteBild_sameVersions | by exists st]. }
    destruct (IH st1) as (st2 & -> & Hv2 & Hs2).
    exists st2. split; [done|]. split; congruence.
Qed.

Lemma deleteInTransaction_spec spiel id st :
  exists affected st',
    SpielWriteService.deleteInTransaction spiel id st = (inr affected, st') /\
    versions st' = delete id (versions st) /\
    spielIdSeq st' = spielIdSeq st.
Proof.
  unfold SpielWriteService.deleteInTransaction, bind.
  assert (exists st1,
             match Spiel.name spiel ≫= Name.id with
             | Some nameId => Repo.deleteName nameId
             | None => ret tt
             end st = (inr tt, st1) /\ sameVersions st st1)
    as (st1 & -> & Hv1 & Hs1).
  { destruct (Spiel.name spiel ≫= Name.id);
      [apply deleteName_sameVersions | by exists st]. }
  destruct (forEach_deleteBild_sameVersions
              (default [] (Spiel.bilder spiel)) st1)
    as (st2 & -> & Hv2 & Hs2).
  eexists _, _. split; [reflexivity|]. split.
  - rewrite versions_emit, versions_setSpiele, fmap_delete.
    unfold versions in *. congruence.
  - simpl. congruence.
Qed.

(** What [delete] does: it throws when the item is not found and changes
    nothing, or it removes the row and leaves every other version counter as
    it was. *)
Lemma delete_spec id st :
  (Repo.getOneById id true st = None /\
   SpielWriteService.delete id st
   = (inl (NotFoundException (KeinSpielMitId (Some id))), st))
  \/ (exists b st',
        SpielWriteService.delete id st = (inr b, st') /\
        versions st' = delete id (versions st) /\
        spielIdSeq st' = spielIdSeq st).
Proof.
  unfold SpielWriteService.delete, bind.
  destruct (Repo.getOneById id true st) as [spiel|] eqn:Hget.
  - right. rewrite (findById_found _ _ _ _ Hget).
    destruct (deleteInTransaction_spec
                (SpielReadService.nullToEmpty spiel) id st)
      as (affected & st' & Htx & Hv & Hs).
    unfold transaction. rewrite Htx. by eexists _, _.
  - left. by rewrite (findById_missing _ _ _ Hget).
Qed.

(** C2, the defect: [delete] of an id that resolves to no item does not
    return false, it fails with the not-found failure that [findById]
    throws; and after a delete that went through, the same call fails in
    that way. *)
Theorem delete_missing_throws st id :
  (Repo.getOneById id true st = None ->
   SpielWriteService.delete id st
   = (inl (NotFoundException (KeinSpielMitId (Some id))), st)) /\
  (forall b st',
     SpielWriteService.delete id st = (inr b, st') ->
     SpielWriteService.delete id st'
     = (inl (NotFoundException (KeinSpielMitId (Some id))), st')).
Proof.
  split.
  - intros H. destruct (delete_spec id st) as [[_ ?] | (b & st' & Hd & _)];
      [done|].
    unfold SpielWriteService.delete, bind in Hd.
    by rewrite (findById_missing _ _ _ H) in Hd.
  - intros b st' Hd.
    destruct (delete_spec id st) as [[_ H] | (b' & st'' & Hd' & Hv & _)];
      [congruence|].
    assert (st'' = st') as -> by congruence.
    assert (Hnone : spiele st' !! id = None).
    { pose proof (versions_lookup st' id) as Hl.
      rewrite Hv, lookup_delete_eq in Hl.
      by destruct (spiele st' !! id). }
    unfold SpielWriteService.delete, bind.
    rewrite findById_missing; [done|].
    unfold Repo.getOneById. by rewrite Hnone.
Qed.

Lemma findById_row id mitBilder st row n :
  spiele st !! id = Some row -> Spiel.name (row_data row) = Some n ->
  SpielReadService.findById id mitBilder st
  = (inr (SpielReadService.nullToEmpty
            (Spiel.withRelations (Some n)
               (if mitBilder
                then Some (default [] (Spiel.bilder (row_data row)))
                else None)
               (Spiel.withIdVersion (Some id) (Some (row_version row))
                  (row_data row)))), st).
Proof.
  intros Hrow Hn. apply findById_found.
  unfold Repo.getOneById. by rewrite Hrow, Hn.
Qed.

Lemma save_existing engine id row e st :
  Spiel.id e = Some id -> spiele st !! id = Some row ->
  Repo.save engine e st = Repo.updateSpiel engine id row e st.
Proof. intros Hid Hrow. unfold Repo.save. by rewrite Hid, Hrow. Qed.

(** The one error of [save] is the one of the database. *)
Lemma save_throws engine e st ex st' :
  Repo.save engine e st = (inl ex, st') -> ex = QueryFailedError.
Proof.
  unfold Repo.save, Repo.updateSpiel, Repo.insertSpiel.
  destruct (Spiel.id e) as [i|]; [destruct (spiele st !! i) as [row|]|];
    repeat (match goal with
            | |- context [if ?b then _ else _] => destruct b
            end);
    by intros [= <- _].
Qed.

Lemma merge_id target source :
  Spiel.id source = None ->
  Spiel.id (Repo.merge target source) = Spiel.id target.
Proof. intros H. simpl. by rewrite H. Qed.

Lemma merge_version target source :
  Spiel.version source = None ->
  Spiel.version (Repo.merge target source) = Spiel.version target.
Proof. intros H. simpl. by rewrite H. Qed.

(** [update] without the monad. *)
Lemma update_unfold engine id spiel token st :
  SpielWriteService.update engine (Some id) spiel token st =
  if negb (SpielWriteService.VERSION_PATTERN_test token)
  then (inl (VersionInvalidException token), st)
  else
    let version := Js.parseInt10 (Js.slice_1_m1 token) in
    match SpielReadService.findById id false st with
    | (inl e, st') => (inl e, st')
    | (inr spielDb, st') =>
        if SpielWriteService.jsLess version (Spiel.version spielDb)
        then (inl (VersionOutdatedException version), st')
        else
          match Repo.save engine (Repo.merge spielDb spiel) st' with
          | (inl e, st'') => (inl e, st'')
          | (inr updated, st'') => (inr (Spiel.version updated), st'')
          end
    end.
Proof.
  unfold SpielWriteService.update, SpielWriteService.validateUpdate, bind.
  destruct (SpielWriteService.VERSION_PATTERN_test token); [|reflexivity].
  simpl.
  destruct (SpielReadService.findById id false st) as [[e|spielDb] st'];
    [reflexivity|].
  by destruct (SpielWriteService.jsLess _ _).
Qed.

(** C3 as the code has it: a token that does not begin with a double quote,
    one to three decimal digits and a double quote fails with the
    invalid-version failure and the state is left as it was; a token that is
    exactly one to three decimal digits in double quotes never fails with
    that failure. *)
Theorem update_version_token engine st id spiel token :
  (~ beginsWithQuotedDigits token ->
   SpielWriteService.update engine (Some id) spiel token st
   = (inl (VersionInvalidException token), st)) /\
  (forall digits,
     (1 <= String.length digits <= 3)%nat -> allDigits digits = true ->
     token = quoted digits ->
     (SpielWriteService.update engine (Some id) spiel token st).1
     <> inl (VersionInvalidException token)).
Proof.
  rewrite update_unfold. split.
  - intros Hno.
    destruct (SpielWriteService.VERSION_PATTERN_test token) eqn:E;
      [|reflexivity].
    by apply VERSION_PATTERN_test_spec in E.
  - intros digits Hlen Hall ->.
    assert (E : SpielWriteService.VERSION_PATTERN_test (quoted digits) = true)
      by (apply VERSION_PATTERN_test_spec; by exists digits, "").
    rewrite E. simpl.
    destruct (SpielReadService.findById id false st) as [[e|spielDb] st1] eqn:F.
    + apply findById_inv in F as [_ [-> _]]. done.
    + destruct (SpielWriteService.jsLess _ _); [done|].
      destruct (Repo.save engine (Repo.merge spielDb spiel) st1)
        as [[ex|saved] st2] eqn:S; [|done].
      apply save_throws in S as ->. done.
Qed.

(** The tokens of one digit and of four digits, on the sample database. *)
Lemma update_version_token_witness :
  SpielWriteService.update createSql (Some 1000)
    (spielDtoOhneRefToSpiel sampleDtoOhneRef 9) (quoted "1234") sampleState
  = (inl (VersionInvalidException (quoted "1234")), sampleState) /\
  (SpielWriteService.update createSql (Some 1000)
     (spielDtoOhneRefToSpiel sampleDtoOhneRef 9) (quoted "0") sampleState).1
  <> inl (VersionInvalidException (quoted "0")).
Proof.
  split.
  - apply update_version_token.
    intros (digits & rest & Hlen & Hall & Heq).
    injection Heq as Heq.
    do 4 (destruct digits as [|? digits]; [by vm_compute in Hall; simplify_eq|];
          try (simpl in Hlen; lia)).
  - apply (update_version_token createSql sampleState 1000 _ (quoted "0"))
      with "0"; [simpl; lia | reflexivity | reflexivity].
Defined.

(** C3 as the specification states it fails: the token of four digits in
    double quotes is a quoted number and nothing else, and it is rejected as
    invalid. *)
Lemma quoted_number_rejected :
  ~ rejectsExactlyUnquoted createSql sampleState 1000
      (spielDtoOhneRefToSpiel sampleDtoOhneRef 9) (quoted "1234").
Proof.
  intros [H _]. apply H; [by vm_compute|].
  by exists "1234".
Qed.

(** ** The optimistic update *)

(** [update] with a token that passes the pattern and is not outdated, on
    an item that [findById] resolves: what [save] makes of the merged
    entity. *)
Lemma update_current engine id spiel token st row n :
  Spiel.id spiel = None -> Spiel.version spiel = None ->
  SpielWriteService.VERSION_PATTERN_test token = true ->
  spiele st !! id = Some row -> Spiel.name (row_data row) = Some n ->
  SpielWriteService.jsLess (Js.parseInt10 (Js.slice_1_m1 token))
    (Some (row_version row)) = false ->
  let spielDb :=
    SpielReadService.nullToEmpty
      (Spiel.withRelations (Some n) None
         (Spiel.withIdVersion (Some id) (Some (row_version row))
            (row_data row))) in
  let merged := Repo.merge spielDb spiel in
  let db := Spiel.withIdVersion (Some id) (Some (row_version row))
              (row_data row) in
  SpielWriteService.update engine (Some id) spiel token st =
  if negb (Repo.differs engine db merged)
  then (inr (Some (row_version row)), st)
  else if admits engine (spiele st) (Some id) merged
  then (inr (Some (row_version row + 1)),
        emit (DbUpdate id)
          (setSpiele
             (<[id := mkRow (row_version row + 1)
                        (Spiel.withRelations (Spiel.name (row_data row))
                           (Spiel.bilder (row_data row))
                           (Repo.columns engine (Some (row_data row))
                              merged))]> (spiele st))
             st))
  else (inl QueryFailedError, st).
Proof.
  intros Hid Hver Hpat Hrow Hn Hless spielDb merged db.
  assert (Hfind : SpielReadService.findById id false st = (inr spielDb, st))
    by exact (findById_row id false st row n Hrow Hn).
  assert (HvDb : Spiel.version spielDb = Some (row_version row)).
  { unfold spielDb, SpielReadService.nullToEmpty. cbn.
    by destruct (Spiel.schlagwoerter (row_data row)). }
  assert (HiDb : Spiel.id spielDb = Some id).
  { unfold spielDb, SpielReadService.nullToEmpty. cbn.
    by destruct (Spiel.schlagwoerter (row_data row)). }
  rewrite update_unfold, Hpat, Hfind. cbn [negb]. cbv zeta.
  rewrite HvDb, Hless.
  rewrite (save_existing engine id row)
    by (by rewrite ?merge_id, ?HiDb).
  unfold Repo.updateSpiel. fold merged. fold db.
  destruct (Repo.differs engine db merged); cbn [negb].
  - destruct (admits engine (spiele st) (Some id) merged); reflexivity.
  - unfold merged. by rewrite merge_version, HvDb.
Qed.

(** C4 as the code has it: the optimistic update.  For an item that
    [findById] resolves and a token that passes the pattern, with [v] the
    number its digits write: if [v] is less than the stored version,
    [update] fails with the outdated-version failure and the state is left
    as it was.  Otherwise [save] decides.  When the ORM finds no column that
    differs, nothing is written and the stored version comes back; the row
    then holds the barcode, rating, category and homepage of the request
    already.  When the database refuses the new values, [update] fails with
    its error and the state is left as it was.  In every other case the row
    becomes the stored record merged with the incoming values: barcode,
    and rating, category and homepage where the request defines them, are
    the ones of the request, the rest of these, the name and the images
    stay; price, discount, availability, date, keywords and the time of the
    update are written from the request where it defines them and from the
    stored record where it does not, and are kept as the engine keeps them;
    the version counter is incremented by one, one [UPDATE] is logged and
    the new version is returned.  The incoming entity has neither id nor
    version, as both callers build it. *)
Theorem update_optimistic engine st id spiel digits rest spielDb :
  (1 <= String.length digits <= 3)%nat ->
  allDigits digits = true ->
  Spiel.id spiel = None -> Spiel.version spiel = None ->
  SpielReadService.findById id false st = (inr spielDb, st) ->
  let token := String Js.dquote (digits +:+ String Js.dquote rest) in
  let v := valueOfDigits digits in
  let result := SpielWriteService.update engine (Some id) spiel token st in
  exists row,
    spiele st !! id = Some row /\
    Spiel.version spielDb = Some (row_version row) /\
    (v < row_version row ->
     result = (inl (VersionOutdatedException (JsNumber v)), st)) /\
    (row_version row <= v ->
     let stored := row_data row in
     let db := Spiel.withIdVersion (Some id) (Some (row_version row)) stored in
     let merged := Repo.merge spielDb spiel in
     if negb (Repo.differs engine db merged) then
       result = (inr (Some (row_version row)), st) /\
       Spiel.barcode stored = Spiel.barcode spiel /\
       (forall rating, Spiel.rating spiel = Some rating ->
                       Spiel.rating stored = Some rating) /\
       (forall art, Spiel.art spiel = Some art ->
                    Spiel.art stored = Some art) /\
       (forall homepage, Spiel.homepage spiel = Some homepage ->
                         Spiel.homepage stored = Some homepage)
     else if admits engine (spiele st) (Some id) merged then
       exists row',
         result = (inr (Some (row_version row + 1)),
                   emit (DbUpdate id)
                     (setSpiele (<[id := row']> (spiele st)) st)) /\
         row_version row' = row_version row + 1 /\
         row_data row'
         = Spiel.withRelations (Spiel.name stored) (Spiel.bilder stored)
             (Repo.columns engine (Some stored) merged) /\
         Spiel.barcode (row_data row') = Spiel.barcode spiel /\
         Spiel.rating (row_data row')
         = match Spiel.rating spiel with
           | Some rating => Some rating
           | None => Spiel.rating stored
           end /\
         Spiel.art (row_data row')
         = match Spiel.art spiel with
           | Some art => Some art
           | None => Spiel.art stored
           end /\
         Spiel.homepage (row_data row')
         = match Spiel.homepage spiel with
           | Some homepage => Some homepage
           | None => Spiel.homepage stored
           end /\
         Spiel.name (row_data row') = Spiel.name stored /\
         Spiel.bilder (row_data row') = Spiel.bilder stored /\
         Spiel.preis merged = Spiel.preis spiel /\
         Spiel.rabatt merged
         = match Spiel.rabatt spiel with
           | Some rabatt => Some rabatt
           | None => Spiel.rabatt stored
           end /\
         Spiel.lieferbar merged
         = match Spiel.lieferbar spiel with
           | Some lieferbar => Some lieferbar
           | None => Spiel.lieferbar stored
           end /\
         Spiel.datum merged
         = match Spiel.datum spiel with
           | Some datum => Some datum
           | None => Spiel.datum stored
           end /\
         Spiel.schlagwoerter merged
         = match Spiel.schlagwoerter spiel with
           | Some schlagwoerter => Some schlagwoerter
           | None => Some (default [] (Spiel.schlagwoerter stored))
           end /\
         Spiel.aktualisiert merged
         = match Spiel.aktualisiert spiel with
           | Some aktualisiert => Some aktualisiert
           | None => Spiel.aktualisiert stored
           end
     else result = (inl QueryFailedError, st)).
Proof.
  intros Hlen Hall Hid Hver Hfind token v result.
  pose proof (findById_inv _ _ _ _ _ Hfind)
    as [_ (row & n & Hrow & Hn & Hi & Hv)].
  exists row. split; [done|]. split; [done|].
  assert (E : SpielWriteService.VERSION_PATTERN_test token = true)
    by (apply VERSION_PATTERN_test_spec; by exists digits, rest).
  assert (Hparse : Js.parseInt10 (Js.slice_1_m1 token) = JsNumber v)
    by (apply parse_version_token; lia || done).
  split; intros Hcmp.
  - unfold result. rewrite update_unfold, E, Hfind. cbn [negb]. cbv zeta.
    rewrite Hparse, Hv. unfold SpielWriteService.jsLess.
    by rewrite (proj2 (Z.ltb_lt _ _) Hcmp).
  - intros stored db merged. subst stored db merged.
    assert (Hdb : spielDb
                  = SpielReadService.nullToEmpty
                      (Spiel.withRelations (Some n) None
                         (Spiel.withIdVersion (Some id)
                            (Some (row_version row)) (row_data row)))).
    { pose proof (findById_row id false st row n Hrow Hn) as Hfind'.
      rewrite Hfind in Hfind'. by injection Hfind'. }
    assert (Hlt : SpielWriteService.jsLess
                    (Js.parseInt10 (Js.slice_1_m1 token))
                    (Some (row_version row)) = false).
    { rewrite Hparse. unfold SpielWriteService.jsLess.
      by apply Z.ltb_ge. }
    pose proof (update_current engine id spiel token st row n
                  Hid Hver E Hrow Hn Hlt) as Hupdate.
    cbv zeta in Hupdate. rewrite <- Hdb in Hupdate.
    fold result in Hupdate.
    destruct (Repo.differs engine _ (Repo.merge spielDb spiel)) eqn:Hdiff;
      cbn [negb] in *.
    + destruct (admits engine (spiele st) (Some id) _); [|done].
      eexists. split; [exact Hupdate|]. split; [reflexivity|].
      split; [reflexivity|].
      rewrite Hdb. unfold SpielReadService.nullToEmpty.
      destruct (row_data row); cbn.
      destruct schlagwoerter; cbn; repeat split;
        first [ done
              | by match goal with
                   | |- context [Repo.orElse ?x _] => destruct x
                   end ].
    + split; [done|].
      apply orb_false_iff in Hdiff as [Hdiff _].
      apply negb_false_iff, bool_decide_eq_true in Hdiff.
      revert Hdiff. rewrite Hdb.
      unfold Repo.exactColumns, SpielReadService.nullToEmpty.
      destruct (Spiel.schlagwoerter _); cbn; intros [= Hb Hr Ha Hh];
        (split; [done|]);
        repeat split; intros x Hx; rewrite Hx in *; done.
Qed.

(** On the sample database, at version 1: the token of 0 is outdated; the
    current token with a new rating takes item 1000 to version 2. *)
Lemma update_optimistic_witness :
  let spiel :=
    spielDtoOhneRefToSpiel
      (mkSpielDtoOhneRef "978-0-007-00644-1" 4 None (mkDecimal 1 0)
         None (Some true) None None (Some ["JAVA"; "JAVASCRIPT"])) 9 in
  (SpielWriteService.update createSql (Some 1000) spiel (quoted "0")
     sampleState)
  = (inl (VersionOutdatedException (JsNumber 0)), sampleState) /\
  exists st' row',
    SpielWriteService.update createSql (Some 1000) spiel (quoted "1")
      sampleState
    = (inr (Some 2), st') /\
    spiele st' !! 1000 = Some row' /\
    row_version row' = 2 /\ Spiel.rating (row_data row') = Some 4.
Proof.
  intros spiel.
  assert (Hfind : SpielReadService.findById 1000 false sampleState
                  = (inr (default spiel
                            (Repo.getOneById 1000 false sampleState)),
                     sampleState)) by (by vm_compute).
  split.
  - destruct (update_optimistic createSql sampleState 1000 spiel "0" "" _
                ltac:(simpl; lia) eq_refl eq_refl eq_refl Hfind)
      as (row & Hrow & _ & Hold & _).
    assert (row_version row = 1) as Hv by (vm_compute in Hrow; by simplify_eq).
    apply Hold. rewrite Hv. by vm_compute.
  - destruct (update_optimistic createSql sampleState 1000 spiel "1" "" _
                ltac:(simpl; lia) eq_refl eq_refl eq_refl Hfind)
      as (row & Hrow & _ & _ & Hok).
    assert (row = default row (spiele sampleState !! 1000)) as Hrow'
      by (by rewrite Hrow).
    assert (row_version row = 1) as Hv by (vm_compute in Hrow; by simplify_eq).
    specialize (Hok ltac:(rewrite Hv; by vm_compute)).
    cbv zeta in Hok. rewrite Hrow' in Hok.
    vm_compute Repo.differs in Hok. cbn [negb] in Hok.
    vm_compute admits in Hok. cbv iota in Hok.
    destruct Hok as (row' & Hres & Hver & _ & _ & Hrating & _).
    eexists _, row'.
    split; [exact Hres|]. split; [apply lookup_insert_eq|].
    split; [by rewrite Hver, Hrow' | exact Hrating].
Defined.

(** C4 as the specification states it fails, with the current token on
    item 1000 of the sample database, at version 1: a [PUT] that repeats the
    stored values at the instant of the last write writes nothing and
    returns the stored version 1, not an incremented one; and an update to
    rating 6 is refused by the table, which has
    [CHECK (rating >= 0 AND rating <= 5)], so that no version is returned. *)
Lemma update_not_always_incremented :
  ~ returnsIncremented createSql sampleState 1000
      (spielDtoOhneRefToSpiel sampleDtoOhneRef 7) (quoted "1") /\
  ~ returnsIncremented createSql sampleState 1000
      (spielDtoOhneRefToSpiel
         (mkSpielDtoOhneRef "978-0-007-00644-1" 6 None (mkDecimal 1 0)
            None (Some true) None None (Some ["JAVA"; "JAVASCRIPT"])) 9)
      (quoted "1").
Proof.
  split; intros (v & Hv & Hres);
    (assert (v = 1) as -> by (vm_compute in Hv; by simplify_eq));
    by vm_compute in Hres.
Qed.

(** ** Creating *)

(** [existsBy({ barcode })] decides whether some row holds the barcode. *)
Lemma existsByBarcode_spec barcode st :
  Repo.existsByBarcode barcode st = true <->
  exists j row,
    spiele st !! j = Some row /\ Spiel.barcode (row_data row) = barcode.
Proof. unfold Repo.existsByBarcode. by rewrite bool_decide_eq_true. Qed.

(** [create] without the monad, for an entity without an id. *)
Lemma create_unfold engine spiel st :
  Spiel.id spiel = None ->
  SpielWriteService.create engine spiel st =
  if Repo.existsByBarcode (Spiel.barcode spiel) st
  then (inl (BarcodeExistsException (Spiel.barcode spiel)), st)
  else
    match Repo.insertSpiel engine spiel st with
    | (inl e, st1) => (inl e, st1)
    | (inr spielDb, st1) =>
        match SpielWriteService.sendmail spielDb st1 with
        | (inl e, st2) => (inl e, st2)
        | (inr _, st2) => (inr (Spiel.id spielDb), st2)
        end
    end.
Proof.
  intros Hid.
  unfold SpielWriteService.create, SpielWriteService.validateCreate, bind,
    Repo.save.
  rewrite Hid.
  by destruct (Repo.existsByBarcode (Spiel.barcode spiel) st).
Qed.

Lemma waste_keeps engine e st :
  spiele (Repo.waste engine e st) = spiele st /\
  effects (Repo.waste engine e st) = effects st /\
  spielIdSeq st <= spielIdSeq (Repo.waste engine e st).
Proof.
  unfold Repo.waste.
  destruct (wasted engine (spiele st) e) as [[a b] c]. cbn.
  repeat split. lia.
Qed.

(** C6 as the code has it: creation.  When a stored item already has the
    barcode, [create] fails with the duplicate-code failure and the state is
    left as it was: no row, no mail.  When no stored item has it, the
    database decides: if it takes the row, the item is inserted under the
    next key with the barcode as given, and after the insert the mail is
    sent, with the new key in its subject; if it refuses the row, [create]
    fails with the error of the database, and there is no row and no mail.
    The entity has no id, as both callers build it. *)
Theorem create_checks_barcode engine st spiel :
  Spiel.id spiel = None ->
  let i := spielIdSeq st in
  let result := SpielWriteService.create engine spiel st in
  ((exists j row,
      spiele st !! j = Some row /\
      Spiel.barcode (row_data row) = Spiel.barcode spiel) ->
   result = (inl (BarcodeExistsException (Spiel.barcode spiel)), st)) /\
  ((forall j row,
      spiele st !! j = Some row ->
      Spiel.barcode (row_data row) <> Spiel.barcode spiel) ->
   if admits engine (spiele st) None spiel then
     exists st' row mail,
       result = (inr (Some i), st') /\
       spiele st' = <[i := row]> (spiele st) /\
       Spiel.barcode (row_data row) = Spiel.barcode spiel /\
       effects st' = effects st ++ [DbInsert i; SendMail mail] /\
       subject mail = "Neues Spiel " +:+ pretty i
   else
     exists st',
       result = (inl QueryFailedError, st') /\
       spiele st' = spiele st /\ effects st' = effects st).
Proof.
  intros Hid i result. unfold result.
  rewrite (create_unfold _ _ _ Hid). split.
  - intros Hdup. by rewrite (proj2 (existsByBarcode_spec _ _) Hdup).
  - intros Hnew.
    assert (Repo.existsByBarcode (Spiel.barcode spiel) st = false) as ->.
    { apply not_true_is_false. intros H.
      apply existsByBarcode_spec in H as (j & row & Hrow & Hb).
      by apply (Hnew j row). }
    unfold Repo.insertSpiel.
    destruct (admits engine (spiele st) None spiel).
    + unfold SpielWriteService.sendmail.
      eexists _, _, _. split; [reflexivity|].
      cbn -[pretty]. rewrite <- (assoc_L (++)). by repeat split.
    + eexists. split; [reflexivity|].
      destruct (waste_keeps engine spiel st) as (? & ? & _). done.
Qed.

(** On the empty database the first [POST] inserts item 1000 and then sends
    the mail; a second [POST] of the same barcode fails. *)
Lemma create_checks_barcode_witness :
  let spiel := spielDtoToSpiel sampleDTO 7 in
  (exists st' row mail,
     SpielWriteService.create createSql spiel emptyState
     = (inr (Some 1000), st') /\
     spiele st' = <[1000 := row]> (spiele emptyState) /\
     Spiel.barcode (row_data row) = Spiel.barcode spiel /\
     effects st' = effects emptyState ++ [DbInsert 1000; SendMail mail] /\
     subject mail = "Neues Spiel " +:+ pretty 1000) /\
  SpielWriteService.create createSql spiel sampleState
  = (inl (BarcodeExistsException (Spiel.barcode spiel)), sampleState).
Proof.
  intros spiel. split.
  - pose proof (proj2 (create_checks_barcode createSql emptyState spiel
                         eq_refl)) as H.
    cbv zeta in H. apply H.
    intros j row Hrow. simpl in Hrow. by rewrite lookup_empty in Hrow.
  - apply (create_checks_barcode createSql sampleState spiel eq_refl).
    exists 1000. eexists. split; [by vm_compute | reflexivity].
Defined.

(** C6 as the specification states it fails: on the empty database every
    barcode is new, and the item with rating 6 is not inserted, since the
    table has [CHECK (rating >= 0 AND rating <= 5)]. *)
Lemma new_barcode_not_inserted :
  ~ insertsItem createSql emptyState
      (spielDtoToSpiel
         (mkSpielDTO
            (mkSpielDtoOhneRef "978-0-007-00644-1" 6 None (mkDecimal 1 0)
               None (Some true) None None None)
            (mkNameDTO "Alpha" None) None) 7).
Proof. intros (id & st' & row & H & _). by vm_compute in H. Qed.

(** The instances of the defect: deleting item 1 from the empty database,
    and deleting item 1000 of the sample database twice. *)
Lemma delete_missing_throws_witness :
  SpielWriteService.delete 1 emptyState
  = (inl (NotFoundException (KeinSpielMitId (Some 1))), emptyState) /\
  (let st' := (SpielWriteService.delete 1000 sampleState).2 in
   SpielWriteService.delete 1000 st'
   = (inl (NotFoundException (KeinSpielMitId (Some 1000))), st')).
Proof.
  split.
  - by apply delete_missing_throws.
  - intros st'.
    apply (proj2 (delete_missing_throws sampleState 1000) true).
    by vm_compute.
Defined.

(** ** The version counter *)

Lemma isRemoval_quiet e : isRemoval e -> isQuiet e.
Proof. by destruct e. Qed.

Lemma forEach_deleteBild_removals bilder : forall st,
  exists st' log,
    forEach bilder
      (fun bild =>
         match Bild.id bild with
         | Some bildId => Repo.deleteBild bildId
         | None => ret tt
         end) st = (inr tt, st') /\
    effects st' = effects st ++ log /\ Forall isRemoval log.
Proof.
  induction bilder as [|b bilder IH]; intros st; simpl.
  - exists st, []. by rewrite app_nil_r.
  - unfold bind.
    assert (exists st1 log1,
               match Bild.id b with
               | Some bildId => Repo.deleteBild bildId
               | None => ret tt
               end st = (inr tt, st1) /\
               effects st1 = effects st ++ log1 /\ Forall isRemoval log1)
      as (st1 & log1 & -> & He1 & Hq1).
    { destruct (Bild.id b) as [bildId|].
      - eexists _, [DbDeleteBild bildId].
        split; [reflexivity|]. split; [reflexivity|]. by repeat constructor.
      - exists st, []. by rewrite app_nil_r. }
    destruct (IH st1) as (st2 & log2 & -> & He2 & Hq2).
    exists st2, (log1 ++ log2). split; [done|]. split.
    + by rewrite He2, He1, (assoc_L (++)).
    + by apply Forall_app.
Qed.

Lemma deleteInTransaction_removals spiel id st :
  exists affected st' log,
    SpielWriteService.deleteInTransaction spiel id st = (inr affected, st') /\
    effects st' = effects st ++ log /\ Forall isRemoval log.
Proof.
  unfold SpielWriteService.deleteInTransaction, bind.
  assert (exists st1 log1,
             match Spiel.name spiel ≫= Name.id with
             | Some nameId => Repo.deleteName nameId
             | None => ret tt
             end st = (inr tt, st1) /\
             effects st1 = effects st ++ log1 /\ Forall isRemoval log1)
    as (st1 & log1 & -> & He1 & Hq1).
  { destruct (Spiel.name spiel ≫= Name.id) as [nameId|].
    - eexists _, [DbDeleteName nameId].
      split; [reflexivity|]. split; [reflexivity|]. by repeat constructor.
    - exists st, []. by rewrite app_nil_r. }
  destruct (forEach_deleteBild_removals (default [] (Spiel.bilder spiel)) st1)
    as (st2 & log2 & -> & He2 & Hq2).
  eexists _, _, (log1 ++ log2 ++ [DbDeleteSpiel id]).
  split; [reflexivity|]. split.
  - simpl. by rewrite He2, He1, !(assoc_L (++)).
  - repeat (apply Forall_app; split); try done. by repeat constructor.
Qed.

Lemma handle_step engine req st : stepKind engine req st.
Proof.
  destruct req as [spielDTO now|id spielDTO ifMatch now|id];
    unfold stepKind, handle, respond.
  - rewrite (create_unfold engine (spielDtoToSpiel spielDTO now) st eq_refl).
    destruct (Repo.existsByBarcode _ st);
      [left; split; [done|]; left; by eexists|].
    unfold Repo.insertSpiel.
    destruct (admits engine (spiele st) None _).
    + right. right. left.
      unfold SpielWriteService.sendmail. cbn -[pretty].
      eexists _, _, _. split; [done|]. split; [done|].
      split; [unfold versions; cbn; by rewrite fmap_insert|].
      split; [done|]. split; [by rewrite <- (assoc_L (++))|done].
    + right. left. cbn.
      destruct (waste_keeps engine (spielDtoToSpiel spielDTO now) st)
        as (? & ? & ?).
      done.
  - destruct ifMatch as [version|];
      [|left; split; [done | by right]].
    rewrite update_unfold.
    destruct (SpielWriteService.VERSION_PATTERN_test version) eqn:Hpat;
      [|left; split; [done|]; left; by eexists].
    cbn [negb]. cbv zeta.
    destruct (SpielReadService.findById id false st) as [[e|spielDb] st1] eqn:F.
    { apply findById_inv in F as [-> [-> _]].
      left. split; [done|]. left. by eexists. }
    pose proof (findById_inv _ _ _ _ _ F) as [-> (row & n & Hrow & Hn & _ & Hv)].
    rewrite Hv.
    destruct (SpielWriteService.jsLess _ _) eqn:Hless;
      [left; split; [done|]; left; by eexists|].
    pose proof (update_current engine id
                  (spielDtoOhneRefToSpiel spielDTO now) version st row n
                  eq_refl eq_refl Hpat Hrow Hn Hless) as Hupdate.
    rewrite update_unfold, Hpat, F in Hupdate.
    cbn [negb] in Hupdate. cbv zeta in Hupdate.
    rewrite Hv, Hless in Hupdate. rewrite Hupdate. clear Hupdate.
    assert (Hl : versions st !! id = Some (row_version row))
      by (by rewrite versions_lookup, Hrow).
    destruct (Repo.differs engine _ _); cbn [negb].
    + destruct (admits engine (spiele st) (Some id) _).
      * do 3 right. left. eexists _, _, _, _, _.
        split; [done|]. split; [done|]. split; [exact Hl|].
        split; [unfold versions; cbn; by rewrite fmap_insert|]. done.
      * right. left. done.
    + do 4 right. left. by eexists _, _, _, _, _.
  - unfold SpielWriteService.delete, bind.
    destruct (SpielReadService.findById id true st) as [[e|spiel] st1] eqn:F;
      apply findById_inv in F as [-> F].
    { destruct F as [-> _]. left. split; [done|]. left. by eexists. }
    destruct (deleteInTransaction_spec spiel id st)
      as (affected & st' & Htx & Hv & Hs).
    destruct (deleteInTransaction_removals spiel id st)
      as (affected' & st'' & log & Htx' & He & Hq).
    rewrite Htx in Htx'. injection Htx' as <- <-.
    unfold transaction. rewrite Htx. cbn.
    do 5 right. by exists id, log.
Qed.

Lemma updatesIssued_app j l l' :
  updatesIssued j (l ++ l') = updatesIssued j l + updatesIssued j l'.
Proof.
  induction l as [|e l IH]; [done|].
  destruct e; cbn; rewrite ?IH; lia.
Qed.

Lemma updatesIssued_removals j log :
  Forall isRemoval log -> updatesIssued j log = 0.
Proof. induction 1 as [|[] log Hq _ IH]; done. Qed.

Lemma history_counted engine st count :
  history engine st count -> counted st.
Proof.
  induction 1 as [|st count req _ [IHv IHs]].
  - split; [|done]. intros j v H.
    unfold versions in H. simpl in H.
    by rewrite fmap_empty, lookup_empty in H.
  - unfold counted.
    destruct (handle_step engine req st)
      as [[Hst _]
         | [(_ & Hrows & He & Hs)
           | [(spielDTO & now & mail & _ & _ & Hv & Hs & He & _)
             | [(i & spielDTO & version & now & v & _ & _ & Hl & Hv & Hs & He)
               | [(i & spielDTO & version & now & v & _ & _ & _ & Hst)
                 | (i & log & _ & _ & Hv & Hs & He & Hq)]]]]].
    + rewrite Hst. by split.
    + assert (Hvs : versions (handle engine req st).2 = versions st)
        by (unfold versions; by rewrite Hrows).
      rewrite Hvs, He. split.
      * intros j v Hj. destruct (IHv j v Hj). split; [done | lia].
      * intros j Hj. apply IHs. lia.
    + rewrite Hv, Hs, He. split.
      * intros j v Hj. rewrite updatesIssued_app. cbn.
        destruct (decide (spielIdSeq st = j)) as [<- | Hne].
        -- rewrite lookup_insert_eq in Hj. simplify_eq.
           rewrite IHs by lia. split; lia.
        -- rewrite lookup_insert_ne in Hj by done.
           destruct (IHv j v Hj). split; lia.
      * intros j Hj. rewrite updatesIssued_app. cbn.
        rewrite IHs by lia. lia.
    + rewrite Hv, Hs, He. split.
      * intros j w Hj. rewrite updatesIssued_app. cbn.
        destruct (decide (i = j)) as [<- | Hne].
        -- rewrite lookup_insert_eq in Hj. simplify_eq.
           rewrite bool_decide_eq_true_2 by done.
           destruct (IHv i v Hl). split; lia.
        -- rewrite lookup_insert_ne in Hj by done.
           rewrite bool_decide_eq_false_2 by done.
           destruct (IHv j w Hj). split; lia.
      * intros j Hj. rewrite updatesIssued_app. cbn.
        destruct (IHv i v Hl) as [_ Hlt].
        rewrite bool_decide_eq_false_2 by lia.
        rewrite IHs by lia. lia.
    + rewrite Hst. by split.
    + rewrite Hv, Hs, He. split.
      * intros j v Hj. rewrite updatesIssued_app.
        rewrite (updatesIssued_removals j log Hq).
        apply lookup_delete_Some in Hj as [_ Hj].
        destruct (IHv j v Hj). split; lia.
      * intros j Hj. rewrite updatesIssued_app.
        rewrite (updatesIssued_removals j log Hq), IHs by lia. lia.
Qed.

Lemma updateCount_successful req resp j :
  isSuccessfulUpdate j req resp <-> updateCount req resp j = 1.
Proof.
  unfold isSuccessfulUpdate, updateCount. split.
  - intros (spielDTO & version & now & v & -> & ->).
    by rewrite bool_decide_eq_true_2.
  - destruct req as [| i spielDTO [version|] now |]; try done.
    destruct resp as [| v | | | |]; try done.
    case_bool_decide; [|done]. subst. intros _. by eexists _, _, _, _.
Qed.

Lemma updateCount_range req resp j : 0 <= updateCount req resp j <= 1.
Proof.
  unfold updateCount.
  destruct req as [| i spielDTO [version|] now |]; try lia.
  destruct resp; try lia. case_bool_decide; lia.
Qed.

(** Every [UPDATE] of the log was issued by a successful update. *)
Lemma history_issued engine st count :
  history engine st count ->
  forall j, 0 <= updatesIssued j (effects st) <= count j.
Proof.
  induction 1 as [|st count req _ IH]; intros j; [done|].
  pose proof (updateCount_range req (handle engine req st).1 j) as Hrange.
  specialize (IH j).
  destruct (handle_step engine req st)
    as [[Hst _]
       | [(_ & _ & He & _)
         | [(spielDTO & now & mail & _ & _ & _ & _ & He & _)
           | [(i & spielDTO & version & now & v & Hreq & Hresp & _ & _ & _
               & He)
             | [(i & spielDTO & version & now & v & _ & _ & _ & Hst)
               | (i & log & _ & _ & _ & _ & He & Hq)]]]]].
  - rewrite Hst. lia.
  - rewrite He. lia.
  - rewrite He, updatesIssued_app. cbn. lia.
  - rewrite He, updatesIssued_app, Hresp, Hreq. cbn.
    case_bool_decide; lia.
  - rewrite Hst. lia.
  - rewrite He, updatesIssued_app, (updatesIssued_removals j log Hq). lia.
Qed.

(** C7 as the code has it: the version counter.  In every state reached
    from the empty database by requests to the controller, and for every
    further request: an item that is created starts at version one, under a
    key that was not in use; a successful update either increments the
    version of its item by exactly one, returns it and has issued one
    [UPDATE], or, when the ORM found no column to write, changes nothing and
    returns the version as it is; no other request, and no failed one,
    changes the version of an item that stays; and the version of every item
    is one more than the number of [UPDATE] statements issued for it, which
    is at most the number of its successful updates. *)
Theorem version_counter engine st count req :
  history engine st count ->
  let resp := (handle engine req st).1 in
  let st' := (handle engine req st).2 in
  (forall i, resp = Created i ->
     exists k, i = Some k /\ versions st !! k = None /\
               versions st' !! k = Some 1) /\
  (forall j, isSuccessfulUpdate j req resp ->
     exists v,
       versions st !! j = Some v /\
       ((versions st' !! j = Some (v + 1) /\
         resp = NoContentETag (Some (v + 1)) /\
         effects st' = effects st ++ [DbUpdate j])
        \/ (st' = st /\ resp = NoContentETag (Some v)))) /\
  (forall j v v',
     versions st !! j = Some v -> versions st' !! j = Some v' ->
     ~ isSuccessfulUpdate j req resp -> v' = v) /\
  (forall j v,
     versions st !! j = Some v ->
     v = 1 + updatesIssued j (effects st) /\
     updatesIssued j (effects st) <= count j).
Proof.
  intros Hist resp st'.
  destruct (history_counted _ _ _ Hist) as [Hcv Hcs].
  assert (Hlast : forall j v, versions st !! j = Some v ->
                              v = 1 + updatesIssued j (effects st) /\
                              updatesIssued j (effects st) <= count j).
  { intros j v Hj. split; [by apply Hcv|].
    by apply (history_issued _ _ _ Hist). }
  unfold resp, st'. clear resp st'.
  destruct (handle_step engine req st)
    as [[Hst Hresp]
       | [(Hresp & Hrows & _)
         | [(spielDTO & now & mail & -> & Hresp & Hv & _)
           | [(i & spielDTO & version & now & v & -> & Hresp & Hl & Hv & _ & He)
             | [(i & spielDTO & version & now & v & -> & Hresp & Hl & Hst)
               | (i & log & -> & Hresp & Hv & _)]]]]].
  - rewrite Hst. split; [|split; [|split; [|exact Hlast]]];
      [| |congruence].
    + intros i Hi. destruct Hresp as [[e He] | He]; congruence.
    + intros j (? & ? & ? & ? & _ & Hj).
      destruct Hresp as [[e He] | He]; congruence.
  - assert (Hvs : versions (handle engine req st).2 = versions st)
      by (unfold versions; by rewrite Hrows).
    rewrite Hvs, Hresp. split; [|split; [|split; [|exact Hlast]]];
      [done| |congruence].
    by intros j (? & ? & ? & ? & _ & ?).
  - rewrite Hv, Hresp. split; [|split; [|split; [|exact Hlast]]].
    + intros i [= <-]. exists (spielIdSeq st). split; [done|].
      split; [|apply lookup_insert_eq].
      destruct (versions st !! spielIdSeq st) as [v|] eqn:E; [|done].
      destruct (Hcv _ _ E). lia.
    + by intros j (? & ? & ? & ? & ? & _).
    + intros j v v' Hj Hj' _.
      rewrite lookup_insert_ne in Hj' by (destruct (Hcv _ _ Hj); lia).
      congruence.
  - rewrite Hv, Hresp, He. split; [|split; [|split; [|exact Hlast]]];
      [done| |].
    + intros j (? & ? & ? & ? & [= <- _ _ _] & _). exists v.
      split; [done|]. left. by rewrite lookup_insert_eq.
    + intros j w w' Hj Hj' Hno.
      rewrite lookup_insert_ne in Hj'; [congruence|].
      intros <-. apply Hno. by eexists _, _, _, _.
  - rewrite Hst, Hresp. split; [|split; [|split; [|exact Hlast]]];
      [done| |congruence].
    intros j (? & ? & ? & ? & [= <- _ _ _] & _). exists v.
    split; [done|]. by right.
  - rewrite Hv, Hresp. split; [|split; [|split; [|exact Hlast]]];
      [done| |].
    + by intros j (? & ? & ? & ? & ? & _).
    + intros j v v' Hj Hj' _.
      apply lookup_delete_Some in Hj' as [_ Hj']. congruence.
Qed.

(** On the empty database: the first [POST] creates item 1000 at version
    one; the update of it that follows, with a new rating, takes it to
    version two and issues the one [UPDATE] of the log. *)
Lemma version_counter_witness :
  (exists k,
     (handle createSql (POST sampleDTO 7) emptyState).1 = Created (Some k) /\
     versions emptyState !! k = None /\
     versions sampleState !! k = Some 1) /\
  (let dto :=
     mkSpielDtoOhneRef "978-0-007-00644-1" 4 None (mkDecimal 1 0)
       None (Some true) None None (Some ["JAVA"; "JAVASCRIPT"]) in
   let req := PUT 1000 dto (Some (quoted "1")) 9 in
   versions (handle createSql req sampleState).2 !! 1000 = Some 2 /\
   (handle createSql req sampleState).1 = NoContentETag (Some 2) /\
   updatesIssued 1000 (effects (handle createSql req sampleState).2) = 1).
Proof.
  split.
  - destruct (version_counter createSql emptyState _ (POST sampleDTO 7)
                (history_empty createSql))
      as (Hcreated & _).
    destruct (Hcreated (Some 1000)) as (k & Hk & Hfree & Hone);
      [by vm_compute|].
    exists k. split; [|done]. by simplify_eq.
  - intros dto req.
    pose proof (history_handle createSql _ _ (POST sampleDTO 7)
                  (history_empty createSql)) as Hsample.
    destruct (version_counter createSql sampleState _ req Hsample)
      as (_ & Hupdated & _).
    destruct (Hupdated 1000) as (v & Hv & Hcase).
    { exists dto, (quoted "1"), 9, (Some 2).
      split; [reflexivity | by vm_compute]. }
    assert (v = 1) as -> by (vm_compute in Hv; by simplify_eq).
    destruct Hcase as [(Hv' & Hresp & He) | [Hst Hresp]];
      [|by vm_compute in Hresp].
    split; [done|]. split; [done|].
    destruct (version_counter createSql _ _ req
                (history_handle createSql _ _ req Hsample))
      as (_ & _ & _ & Hcount).
    destruct (Hcount 1000 2 Hv') as [Hcount' _]. unfold sampleState. lia.
Defined.

(** C7 as the specification states it fails: the item that the first
    [POST] creates on the empty database has version one, not zero; and the
    [PUT] that repeats the stored values of item 1000 at the instant of its
    last write, with the current token, is answered with success and leaves
    the version at one. *)
Lemma version_differs_from_update_count :
  ~ startsAtZero createSql emptyState (POST sampleDTO 7) /\
  ~ incrementsOnSuccess createSql sampleState
      (PUT 1000 sampleDtoOhneRef (Some (quoted "1")) 7).
Proof.
  split.
  - intros H. specialize (H 1000 eq_refl). by vm_compute in H.
  - intros H. specialize (H 1000 1).
    assert (Hone : versions sampleState !! 1000 = Some 1) by (by vm_compute).
    assert (Hput : isSuccessfulUpdate 1000
                     (PUT 1000 sampleDtoOhneRef (Some (quoted "1")) 7)
                     (handle createSql
                        (PUT 1000 sampleDtoOhneRef (Some (quoted "1")) 7)
                        sampleState).1).
    { exists sampleDtoOhneRef, (quoted "1"), 7, (Some 1).
      split; [reflexivity | by vm_compute]. }
    specialize (H Hput Hone). by vm_compute in H.
Qed.


(** * Further properties *)

(** ** The filter that [build] produces *)

Lemma stepRating_skips rating st :
  recognizedRating rating = [] -> stepRating rating st = st.
Proof.
  unfold stepRating, recognizedRating.
  destruct rating; try reflexivity; by destruct (Js.isNaN _).
Qed.

Lemma recognizedRating_cons rating r rs :
  recognizedRating rating = r :: rs ->
  r = RatingGe (ratingNumberOf rating) /\ rs = [].
Proof.
  unfold recognizedRating.
  destruct rating; try done; destruct (Js.isNaN _); try done;
    by intros [= <- <-].
Qed.

Lemma head_conj postgres c :
  conjState
    (match recognizedPreis (getProp c "preis"),
           recognizedRating (getProp c "rating") with
     | _ :: _, _ => recognizedPreis (getProp c "preis")
     | [], _ :: _ => recognizedRating (getProp c "rating")
     | [], [] => recognizedName postgres (getProp c "name")
     end)
    (stepPreis (getProp c "preis")
       (stepRating (getProp c "rating")
          (stepName postgres (getProp c "name")
             (Orm.createQueryBuilder, true)))).
Proof.
  destruct (getProp c "preis") as [| | | | |p] eqn:Ep;
    try (simpl recognizedPreis; simpl stepPreis;
         destruct (recognizedRating (getProp c "rating")) as [|r rs] eqn:Er;
         [ rewrite (stepRating_skips _ _ Er); apply stepName_conj
         | apply recognizedRating_cons in Er as Hr; destruct Hr as [-> ->];
           destruct (stepRating_resets (getProp c "rating")
                       (stepName postgres (getProp c "name")
                          (Orm.createQueryBuilder, true))) as [Hw Hu];
           [by rewrite Er | by split] ]).
  by split.
Qed.

Lemma build_wheres postgres pageSize pageNumber c pageable :
  wheres (build postgres pageSize pageNumber c pageable)
  = conjunction (effectivePredicates postgres c).
Proof.
  unfold build. rewrite paginate_wheres.
  unfold buildWhere, effectivePredicates.
  rewrite !(assoc_L (++)).
  apply stepRest_conj.
  do 4 apply stepFlag_conj.
  apply head_conj.
Qed.

(** For criteria whose rating the model reads as the code does (no string,
    or a string of at most 15 ASCII characters), the filter of the query
    that [build] produces is the conjunction of the predicates left over: of
    name, rating and price only the last recognized one, then every
    recognized keyword flag and every remaining equality filter, the first of
    them set with [where] and the others joined with [AND]. *)
Theorem build_effective_filter postgres pageSize pageNumber c pageable :
  isPlainRating (getProp c "rating") = true ->
  wheres (build postgres pageSize pageNumber c pageable)
  = conjunction (effectivePredicates postgres c).
Proof. intros _. apply build_wheres. Qed.

(** A name, a rating read from a string with a blank in front, and a flag:
    the name is gone, the rating and the flag are left. *)
Lemma build_effective_filter_witness :
  let c := [("name", JsString "a"); ("rating", JsString " 4");
            ("java", JsString "true")] in
  wheres (build true 10 0 c None)
  = [(WhereSimple, RatingGe (JsNumber 4)); (WhereAnd, condJava)].
Proof.
  intros c.
  apply (build_effective_filter true 10 0 c None). reflexivity.
Defined.

(** ** The parameters that [build] binds *)

Lemma getProp_cons k0 v0 c k :
  getProp ((k0, v0) :: c) k = if String.eqb k0 k then v0 else getProp c k.
Proof. unfold getProp. simpl. by destruct (String.eqb k0 k). Qed.

Lemma elem_of_keys (c : JsObject) k v : (k, v) ∈ c -> k ∈ map fst c.
Proof.
  intros H. apply list_elem_of_In, in_map_iff. exists (k, v).
  split; [done | by apply list_elem_of_In].
Qed.

(** In an object, where keys are unique, [getProp] reads the value that is
    stored under the key. *)
Lemma getProp_elem (c : JsObject) k v :
  NoDup (map fst c) -> (k, v) ∈ c -> getProp c k = v.
Proof.
  induction c as [|[k0 v0] c IH]; intros Hnd Hin;
    [by apply elem_of_nil in Hin|].
  simpl in Hnd. apply NoDup_cons in Hnd as [Hk0 Hnd].
  rewrite getProp_cons.
  apply elem_of_cons in Hin as [[= -> ->] | Hin].
  - by rewrite String.eqb_refl.
  - destruct (String.eqb_spec k0 k) as [-> | _]; [|by apply IH].
    destruct Hk0. by eapply elem_of_keys.
Qed.

Lemma restProps_elem (c : JsObject) k v :
  (k, v) ∈ restProps c <-> (k ∉ destructuredKeys) /\ (k, v) ∈ c.
Proof. unfold restProps, JsObject. by rewrite list_elem_of_filter. Qed.

Lemma restProps_NoDup (c : JsObject) :
  NoDup (map fst c) -> NoDup (map fst (restProps c)).
Proof.
  unfold restProps, JsObject in *.
  induction c as [|[k v] c IH]; intros Hnd; [done|].
  simpl in Hnd. apply NoDup_cons in Hnd as [Hk Hnd].
  rewrite filter_cons. case_decide; [|by apply IH].
  simpl. apply NoDup_cons. split; [|by apply IH].
  intros Hin. apply Hk.
  apply list_elem_of_In, in_map_iff in Hin as ([k' v'] & Heq & Hin).
  simpl in Heq. subst k'.
  apply list_elem_of_In, list_elem_of_filter in Hin as [_ Hin].
  by eapply elem_of_keys.
Qed.

Lemma whereOrAnd_parameters st c k v :
  parameters (whereOrAnd st c [(k, v)]).1 = <[k := v]> (parameters st.1).
Proof. unfold whereOrAnd. by destruct st.2. Qed.

Lemma whereOrAnd_parameters_nil st c :
  parameters (whereOrAnd st c []).1 = parameters st.1.
Proof. unfold whereOrAnd. by destruct st.2. Qed.

(** The loop over the remaining properties binds every one of them and
    leaves the parameters of other names as they are. *)
Lemma stepRest_parameters rest : forall st,
  NoDup (map fst rest) ->
  (forall k v, (k, v) ∈ rest ->
               parameters (stepRest rest st).1 !! k = Some v) /\
  (forall k, k ∉ map fst rest ->
             parameters (stepRest rest st).1 !! k = parameters st.1 !! k).
Proof.
  induction rest as [|[k0 v0] rest IH]; intros st Hnd.
  - split; [|done]. intros k v Hin. by apply elem_of_nil in Hin.
  - simpl in Hnd. apply NoDup_cons in Hnd as [Hk0 Hnd].
    destruct (IH (whereOrAnd st (PropEq k0) [(k0, v0)]) Hnd) as [IHin IHout].
    split.
    + intros k v Hin. simpl.
      apply elem_of_cons in Hin as [[= -> ->] | Hin]; [|by apply IHin].
      rewrite IHout by done.
      by rewrite whereOrAnd_parameters, lookup_insert_eq.
    + intros k Hk. simpl. simpl in Hk.
      apply not_elem_of_cons in Hk as [Hne Hk].
      rewrite IHout by done.
      by rewrite whereOrAnd_parameters, lookup_insert_ne.
Qed.

Lemma paginate_parameters pageSize pageNumber qb pageable :
  parameters (paginate pageSize pageNumber qb pageable) = parameters qb.
Proof. unfold paginate. by case_decide. Qed.

Lemma stepFlag_parameters flag c st :
  parameters (stepFlag flag c st).1 = parameters st.1.
Proof.
  unfold stepFlag. destruct (isTrueString flag); [|done].
  apply whereOrAnd_parameters_nil.
Qed.

Lemma stepRating_parameters rating st :
  parameters (stepRating rating st).1 = parameters st.1.
Proof.
  unfold stepRating. destruct rating; try done; by destruct (negb _).
Qed.

Lemma stepPreis_parameters preis st :
  parameters (stepPreis preis st).1 = parameters st.1.
Proof. by destruct preis. Qed.

(** Closes a goal whose hypothesis [H] puts an equality filter into a
    list of conditions of other kinds. *)
Ltac not_among H :=
  repeat (apply elem_of_cons in H as [H | H]; [discriminate H|]);
  by apply elem_of_nil in H.

Lemma PropEq_effective postgres c key :
  PropEq key ∈ effectivePredicates postgres c ->
  exists v, (key, v) ∈ restProps c.
Proof.
  unfold effectivePredicates, recognizedFlag.
  rewrite !elem_of_app. intros [H | [H | [H | [H | [H | H]]]]].
  - destruct (recognizedPreis _) as [|x xs] eqn:Ep.
    + destruct (recognizedRating _) as [|r rs] eqn:Er.
      * unfold recognizedName in H.
        destruct (getProp c "name"); not_among H.
      * apply recognizedRating_cons in Er as [-> ->]. not_among H.
    + revert Ep H. unfold recognizedPreis.
      destruct (getProp c "preis"); intros [= <- <-] H; not_among H.
  - destruct (isTrueString _); not_among H.
  - destruct (isTrueString _); not_among H.
  - destruct (isTrueString _); not_among H.
  - destruct (isTrueString _); not_among H.
  - apply list_elem_of_In, in_map_iff in H as ([k v] & [= ->] & Hin).
    exists v. by apply list_elem_of_In.
Qed.

Lemma conjunction_elem t x preds :
  (t, x) ∈ conjunction preds -> x ∈ preds.
Proof.
  destruct preds as [|p ps]; simpl; [by intros ?%elem_of_nil|].
  intros [[= -> ->] | Hin]%elem_of_cons; [by left|]. right.
  apply list_elem_of_In, in_map_iff in Hin as (y & [= _ ->] & Hin).
  by apply list_elem_of_In.
Qed.

(** Every equality filter [spiel.key = :key] of the query has its parameter
    bound to the value that the criteria hold under that key, and the
    pattern of the name search is the name between two [%]. *)
Theorem build_parameters_bound postgres pageSize pageNumber
    (c : JsObject) pageable :
  NoDup (objectKeys c) ->
  let q := build postgres pageSize pageNumber c pageable in
  (forall t key,
     (t, PropEq key) ∈ wheres q ->
     (key ∉ destructuredKeys) /\
     parameters q !! key = Some (getProp c key)) /\
  (forall n,
     getProp c "name" = JsString n ->
     parameters q !! "name" = Some (JsString ("%" +:+ n +:+ "%"))).
Proof.
  intros Hnd q.
  destruct (stepRest_parameters (restProps c)
              (stepFlag (getProp c "python") condPython
                 (stepFlag (getProp c "java") condJava
                    (stepFlag (getProp c "typescript") condTypescript
                       (stepFlag (getProp c "javascript") condJavascript
                          (stepPreis (getProp c "preis")
                             (stepRating (getProp c "rating")
                                (stepName postgres (getProp c "name")
                                   (Orm.createQueryBuilder, true))))))))
              (restProps_NoDup c Hnd)) as [Hin Hout].
  split.
  - intros t key Hw. unfold q in Hw.
    rewrite build_wheres in Hw.
    apply conjunction_elem, PropEq_effective in Hw as [v Hv].
    pose proof Hv as Hv'. apply restProps_elem in Hv' as [Hk Hc].
    rewrite (getProp_elem c key v Hnd Hc).
    split; [done|].
    unfold q, build. rewrite paginate_parameters. by apply Hin.
  - intros n Hn. unfold q, build. rewrite paginate_parameters.
    unfold buildWhere. rewrite Hout.
    + rewrite !stepFlag_parameters, stepPreis_parameters,
        stepRating_parameters, Hn. simpl. apply lookup_insert_eq.
    + intros Hname.
      apply list_elem_of_In, in_map_iff in Hname as ([k v] & Hk & Hin').
      simpl in Hk. subst k.
      apply list_elem_of_In, restProps_elem in Hin' as [Hd _].
      apply Hd. unfold destructuredKeys. set_solver.
Qed.

(** ** Searching *)

Lemma createSlice_content rows total :
  SpielReadService.content (SpielReadService.createSlice rows total) = []
  -> rows = [].
Proof. by destruct rows. Qed.

Lemma nullToEmpty_schlagwoerter spiel :
  Spiel.schlagwoerter (SpielReadService.nullToEmpty spiel) <> None.
Proof.
  unfold SpielReadService.nullToEmpty.
  destruct (Spiel.schlagwoerter spiel) eqn:E; simpl; by rewrite ?E.
Qed.

(** What the search of a built query returns: without rows the exception
    [notFound] after the select alone, with rows the slice after the select
    and the count. *)
Lemma search_outcome selectMany selectCount q notFound st :
  (bind (SpielReadService.getMany selectMany q)
     (fun spiele =>
        if bool_decide (spiele = [])
        then throw (NotFoundException notFound)
        else
          bind (SpielReadService.getCount selectCount q)
            (fun totalElements =>
               ret (SpielReadService.createSlice spiele totalElements)))) st
  = if bool_decide (selectMany q (spiele st) = [])
    then (inl (NotFoundException notFound), emit (DbSelect q) st)
    else (inr (SpielReadService.createSlice (selectMany q (spiele st))
                 (selectCount q (spiele st))),
          emit (DbCount q) (emit (DbSelect q) st)).
Proof.
  unfold bind, SpielReadService.getMany, SpielReadService.getCount.
  by case_bool_decide.
Qed.

(** Whenever [find] returns a slice, its content is not empty, no item in it
    has [null] for its keywords, and the database was asked exactly twice:
    the select and then the count of one and the same query. *)
Theorem find_returns_nonempty postgres pageSize pageNumber selectMany
    selectCount suchkriterien pageable st slice st' :
  SpielReadService.find postgres pageSize pageNumber selectMany selectCount
    suchkriterien pageable st = (inr slice, st') ->
  SpielReadService.content slice <> [] /\
  (forall spiel, spiel ∈ SpielReadService.content slice ->
                 Spiel.schlagwoerter spiel <> None) /\
  exists q,
    spiele st' = spiele st /\
    effects st' = effects st ++ [DbSelect q; DbCount q] /\
    SpielReadService.totalElements slice = selectCount q (spiele st).
Proof.
  intros H.
  assert (Hsearch : exists q notFound,
             (if bool_decide (selectMany q (spiele st) = [])
              then (inl (NotFoundException notFound), emit (DbSelect q) st)
              else (inr (SpielReadService.createSlice
                           (selectMany q (spiele st))
                           (selectCount q (spiele st))),
                    emit (DbCount q) (emit (DbSelect q) st)))
             = (inr slice, st')).
  { revert H. unfold SpielReadService.find, SpielReadService.findAll.
    destruct suchkriterien as [c|].
    - case_bool_decide as Hkeys.
      + rewrite search_outcome. intros H. by eexists _, _.
      + destruct (negb _ || negb _); [done|].
        rewrite search_outcome. intros H. by eexists _, _.
    - rewrite search_outcome. intros H. by eexists _, _. }
  destruct Hsearch as (q & notFound & Hq).
  case_bool_decide as Hrows; [done|].
  injection Hq as <- <-.
  split; [|split].
  - intros Hc. by apply createSlice_content in Hc.
  - intros spiel Hin. simpl in Hin.
    apply list_elem_of_In, in_map_iff in Hin as (x & <- & _).
    apply nullToEmpty_schlagwoerter.
  - exists q. split; [done|]. split; [|done].
    simpl. by rewrite <- (assoc_L (++)).
Qed.

Lemma forallb_false {A} (f : A -> bool) l :
  forallb f l = false -> exists x, x ∈ l /\ f x = false.
Proof.
  induction l as [|a l IH]; [done|]. simpl.
  destruct (f a) eqn:E; simpl.
  - intros H. destruct (IH H) as (x & Hin & Hx). exists x.
    split; [by right | done].
  - intros _. exists a. split; [by left | done].
Qed.

Lemma validKey_spec key :
  validKey key = false <->
  (key ∉ Spiel.ownPropertyNames) /\
  (key ∉ ["javascript"; "typescript"; "java"; "python"]).
Proof.
  split; [|intros [??]; by apply validKey_false].
  unfold validKey. intros H.
  repeat (apply orb_false_iff in H as [H ?]).
  apply bool_decide_eq_false in H. split; [done|].
  intros Hin.
  repeat (apply elem_of_cons in Hin as [-> | Hin]; [done|]).
  by apply elem_of_nil in Hin.
Qed.

Lemma checkEnums_spec (c : JsObject) :
  SpielReadService.checkEnums c = false <->
  getProp c "art" <> JsUndefined /\
  forall art, art ∈ ["EPUB"; "HARDCOVER"; "PAPERBACK"] ->
              getProp c "art" <> JsString art.
Proof.
  unfold SpielReadService.checkEnums.
  destruct (getProp c "art") as [| |b|z| |art]; split; try done;
    try (intros [? _]; done).
  - intros H. split; [done|]. intros a Ha [= ->].
    repeat (apply elem_of_cons in Ha as [-> | Ha]; [done|]).
    by apply elem_of_nil in Ha.
  - intros [_ H].
    assert (Hne : forall a, a ∈ ["EPUB"; "HARDCOVER"; "PAPERBACK"] ->
                            String.eqb art a = false).
    { intros a Ha. apply String.eqb_neq. intros ->. by apply (H a). }
    rewrite !Hne; [done | | |]; repeat (first [by left | right]).
Qed.

(** [find] fails with the not-found failure of invalid criteria, before any
    query, exactly for the criteria that have an unknown key or an [art]
    other than EPUB, HARDCOVER and PAPERBACK; every other outcome comes from
    the database. *)
Theorem find_invalid_criteria_iff postgres pageSize pageNumber selectMany
    selectCount (c : JsObject) pageable st :
  SpielReadService.find postgres pageSize pageNumber selectMany selectCount
    (Some c) pageable st
  = (inl (NotFoundException UngueltigeSuchkriterien), st)
  <-> invalidCriteria c.
Proof.
  unfold SpielReadService.find, SpielReadService.findAll.
  case_bool_decide as Hkeys.
  - rewrite search_outcome. split.
    + by case_bool_decide.
    + intros [(key & Hin & _) | [Hart _]].
      * rewrite Hkeys in Hin. by apply elem_of_nil in Hin.
      * destruct c; [done | discriminate Hkeys].
  - destruct (negb (SpielReadService.checkKeys (objectKeys c))
              || negb (SpielReadService.checkEnums c)) eqn:E.
    + split; [intros _|done].
      apply orb_true_iff in E as [E | E]; apply negb_true_iff in E.
      * left. rewrite checkKeys_forallb in E.
        apply forallb_false in E as (key & Hin & Hv).
        apply validKey_spec in Hv as [??]. by exists key.
      * right. by apply checkEnums_spec.
    + rewrite search_outcome. split; [by case_bool_decide|].
      apply orb_false_iff in E as [E1 E2].
      apply negb_false_iff in E1, E2.
      intros [(key & Hin & Hp & Hf) | Hart].
      * rewrite checkKeys_forallb, forallb_forall in E1.
        apply list_elem_of_In, E1 in Hin.
        by rewrite validKey_false in Hin.
      * apply checkEnums_spec in Hart. congruence.
Qed.

Lemma build_parameters_bound_witness :
  let c := [("name", JsString "a"); ("art", JsString "EPUB")] in
  let q := build true 10 0 c None in
  NoDup (objectKeys c) /\
  parameters q !! "art" = Some (JsString "EPUB") /\
  parameters q !! "name" = Some (JsString "%a%").
Proof.
  intros c q.
  assert (Hnd : NoDup (objectKeys c)) by compute_done.
  split; [done|].
  pose proof (build_parameters_bound true 10 0 c None Hnd) as [Hprop Hname].
  split.
  - apply (Hprop WhereAnd "art"). right. left.
  - apply (Hname "a"). reflexivity.
Defined.

Lemma find_returns_nonempty_witness :
  let res :=
    SpielReadService.find true 10 0
      (fun _ _ => [spielDtoToSpiel sampleDTO 7]) (fun _ _ => 1)
      None (Pageable.mk (Some 0) (Some 10)) emptyState in
  exists slice,
    res.1 = inr slice /\
    SpielReadService.content slice <> [] /\
    (forall spiel, spiel ∈ SpielReadService.content slice ->
                   Spiel.schlagwoerter spiel <> None) /\
    exists q,
      spiele res.2 = spiele emptyState /\
      effects res.2 = effects emptyState ++ [DbSelect q; DbCount q] /\
      SpielReadService.totalElements slice = 1.
Proof.
  intros res. eexists. split; [reflexivity|].
  apply (find_returns_nonempty true 10 0
           (fun _ _ => [spielDtoToSpiel sampleDTO 7]) (fun _ _ => 1)
           None (Pageable.mk (Some 0) (Some 10)) emptyState _ res.2).
  reflexivity.
Defined.

(** ** Requests that are turned down *)

(** A request that the write controller answers with a failure or with
    precondition required changes nothing: no row, no key sequence and no
    entry of the log of effects, so nothing was written and no mail sent. *)
Theorem rejected_request_keeps_state engine req st :
  (exists e, (handle engine req st).1 = Failed e)
  \/ (handle engine req st).1 = PreconditionRequired ->
  (handle engine req st).2 = st.
Proof.
  intros Hresp.
  destruct (handle_step engine req st)
    as [[Hst _]
       | [(Hr & _)
         | [(spielDTO & now & mail & _ & Hr & _)
           | [(i & spielDTO & version & now & v & _ & Hr & _)
             | [(i & spielDTO & version & now & v & _ & Hr & _)
               | (i & log & _ & Hr & _)]]]]];
    [done| | | | |]; rewrite Hr in Hresp;
    by destruct Hresp as [[e He] | He].
Qed.

Lemma rejected_request_keeps_state_witness :
  (handle createSql (PUT 1000 sampleDtoOhneRef (Some "0") 8) sampleState).1
  = Failed (VersionInvalidException "0") /\
  (handle createSql (PUT 1000 sampleDtoOhneRef (Some "0") 8) sampleState).2
  = sampleState.
Proof.
  split; [reflexivity|].
  apply (rejected_request_keeps_state createSql
           (PUT 1000 sampleDtoOhneRef (Some "0") 8) sampleState).
  left. by eexists.
Defined.

(** ** Deleting *)

Lemma getOneById_row id mitBilder st spiel :
  Repo.getOneById id mitBilder st = Some spiel ->
  exists row, spiele st !! id = Some row.
Proof.
  unfold Repo.getOneById.
  destruct (spiele st !! id) as [row|]; [by exists row | done].
Qed.

Lemma sameVersions_row st st' id row :
  sameVersions st st' -> spiele st !! id = Some row ->
  exists row', spiele st' !! id = Some row'.
Proof.
  intros [Hv _] Hrow.
  assert (H : versions st' !! id = Some (row_version row))
    by (by rewrite Hv, versions_lookup, Hrow).
  rewrite versions_lookup in H.
  destruct (spiele st' !! id) as [row'|]; [by exists row' | done].
Qed.

Lemma deleteInTransaction_affected spiel id row st :
  spiele st !! id = Some row ->
  exists st',
    SpielWriteService.deleteInTransaction spiel id st = (inr (Some 1), st').
Proof.
  intros Hrow. unfold SpielWriteService.deleteInTransaction, bind.
  assert (exists st1,
             match Spiel.name spiel ≫= Name.id with
             | Some nameId => Repo.deleteName nameId
             | None => ret tt
             end st = (inr tt, st1) /\ sameVersions st st1)
    as (st1 & -> & H1).
  { destruct (Spiel.name spiel ≫= Name.id);
      [apply deleteName_sameVersions | by exists st]. }
  destruct (sameVersions_row _ _ _ _ H1 Hrow) as [row1 Hrow1].
  destruct (forEach_deleteBild_sameVersions
              (default [] (Spiel.bilder spiel)) st1)
    as (st2 & -> & H2).
  destruct (sameVersions_row _ _ _ _ H2 Hrow1) as [row2 Hrow2].
  eexists. unfold Repo.deleteSpiel. by rewrite Hrow2.
Qed.

(** [delete] has one result only: whenever it returns, and does not throw,
    it returns true, and the item is gone while every other item keeps its
    version.  The result false of its signature is never produced. *)
Theorem delete_returns_true id st b st' :
  SpielWriteService.delete id st = (inr b, st') ->
  b = true /\ versions st' = base.delete id (versions st).
Proof.
  intros H. split.
  - revert H. unfold SpielWriteService.delete, bind.
    destruct (Repo.getOneById id true st) as [spiel|] eqn:Hget.
    + rewrite (findById_found _ _ _ _ Hget).
      destruct (getOneById_row _ _ _ _ Hget) as [row Hrow].
      destruct (deleteInTransaction_affected
                  (SpielReadService.nullToEmpty spiel) id row st Hrow)
        as [st1 Htx].
      unfold transaction. rewrite Htx. by intros [= <- _].
    + by rewrite (findById_missing _ _ _ Hget).
  - destruct (delete_spec id st) as [[_ He] | (b' & st1 & He & Hv & _)];
      congruence.
Qed.

Lemma delete_returns_true_witness :
  exists st',
    SpielWriteService.delete 1000 sampleState = (inr true, st') /\
    versions st' = base.delete 1000 (versions sampleState).
Proof.
  eexists. split; [reflexivity|].
  eapply (delete_returns_true 1000 sampleState true). reflexivity.
Defined.

(** ** Version tokens and entity tags *)

Lemma isDigit_value c : Js.isDigit c = true -> 0 <= Js.digitValue c <= 9.
Proof.
  unfold Js.isDigit, Js.digitValue. intros H.
  apply andb_true_iff in H as [H1 H2].
  apply Nat.leb_le in H1, H2. lia.
Qed.

Lemma decimalDigits_bound digits : forall acc,
  allDigits digits = true -> 0 <= default 0 acc ->
  0 <= default 0 (Js.decimalDigits acc digits)
    < (default 0 acc + 1) * 10 ^ Z.of_nat (String.length digits).
Proof.
  induction digits as [|c digits IH]; intros acc Hall Hacc.
  - simpl. lia.
  - simpl in Hall. apply andb_true_iff in Hall as [Hc Hall].
    pose proof (isDigit_value c Hc) as Hd.
    cbn [Js.decimalDigits String.length]. rewrite Hc.
    specialize (IH (Some (default 0 acc * 10 + Js.digitValue c)) Hall).
    cbn [default] in IH.
    assert (Hacc' : 0 <= default 0 acc * 10 + Js.digitValue c) by lia.
    specialize (IH Hacc'). clear Hacc'.
    rewrite Nat2Z.inj_succ, Z.pow_succ_r by lia.
    assert (HP : 0 < 10 ^ Z.of_nat (String.length digits))
      by (apply Z.pow_pos_nonneg; lia).
    revert IH HP.
    generalize (10 ^ Z.of_nat (String.length digits)).
    generalize (default 0
                  (Js.decimalDigits
                     (Some (default 0 acc * 10 + Js.digitValue c)) digits)).
    generalize dependent (default 0 acc).
    generalize dependent (Js.digitValue c).
    intros d Hd a Ha r P IH HP. unfold id in IH.
    assert ((a * 10 + d + 1) * P <= (a + 1) * (10 * P)) by nia.
    lia.
Qed.

Lemma valueOfDigits_bound digits :
  (String.length digits <= 3)%nat -> allDigits digits = true ->
  0 <= valueOfDigits digits <= 999.
Proof.
  intros Hlen Hall. unfold valueOfDigits.
  pose proof (decimalDigits_bound digits None Hall ltac:(done)) as H.
  cbn [default] in H.
  assert (10 ^ Z.of_nat (String.length digits) <= 10 ^ 3)
    by (apply Z.pow_le_mono_r; lia).
  lia.
Qed.

(** Whatever follows the closing quote of a version token is ignored: the
    token does with any tail what the quoted digits alone do. *)
Theorem update_ignores_token_tail engine id spiel digits rest st :
  (1 <= String.length digits <= 3)%nat -> allDigits digits = true ->
  SpielWriteService.update engine (Some id) spiel
    (String Js.dquote (digits +:+ String Js.dquote rest)) st
  = SpielWriteService.update engine (Some id) spiel (quoted digits) st.
Proof.
  intros Hlen Hall. unfold quoted. rewrite !update_unfold.
  assert (Hpat : forall tail,
             SpielWriteService.VERSION_PATTERN_test
               (String Js.dquote (digits +:+ String Js.dquote tail)) = true).
  { intros tail. apply VERSION_PATTERN_test_spec. by exists digits, tail. }
  rewrite !Hpat. cbn [negb].
  by rewrite !parse_version_token by (done || lia).
Qed.

Lemma update_ignores_token_tail_witness :
  SpielWriteService.update createSql (Some 1000)
    (spielDtoOhneRefToSpiel sampleDtoOhneRef 8)
    (String Js.dquote ("0" +:+ String Js.dquote "; DROP")) sampleState
  = SpielWriteService.update createSql (Some 1000)
      (spielDtoOhneRefToSpiel sampleDtoOhneRef 8) (quoted "0") sampleState.
Proof.
  apply (update_ignores_token_tail createSql 1000 _ "0" "; DROP"
           sampleState);
    [simpl; lia | reflexivity].
Defined.

(** The version pattern admits three digits and no more, so an item whose
    version has reached 1000 can no longer be updated: every token is either
    refused by the pattern or stands for a number below the stored version,
    and [update] fails and leaves the state as it was. *)
Theorem update_blocked_from_1000 engine id spiel token st v :
  versions st !! id = Some v -> 1000 <= v ->
  exists e,
    SpielWriteService.update engine (Some id) spiel token st = (inl e, st) /\
    (e = VersionInvalidException token
     \/ e = NotFoundException (KeinSpielMitId (Some id))
     \/ exists n, n < v /\ e = VersionOutdatedException (JsNumber n)).
Proof.
  intros Hv Hbig. rewrite update_unfold.
  destruct (SpielWriteService.VERSION_PATTERN_test token) eqn:Hpat;
    [|eexists; split; [reflexivity | by left]].
  cbn [negb].
  apply VERSION_PATTERN_test_spec in Hpat
    as (digits & rest & Hlen & Hall & ->).
  rewrite parse_version_token by (done || lia).
  pose proof (valueOfDigits_bound digits ltac:(lia) Hall) as Hn.
  destruct (SpielReadService.findById id false st) as [[e|spielDb] st1] eqn:F;
    apply findById_inv in F as [-> F].
  - destruct F as [-> _]. eexists. split; [reflexivity | right; by left].
  - destruct F as (row & n & Hrow & _ & _ & Hver).
    rewrite versions_lookup, Hrow in Hv. injection Hv as Hv.
    rewrite Hver. unfold SpielWriteService.jsLess.
    destruct (Z.ltb_spec (valueOfDigits digits) (row_version row)); [|lia].
    eexists. split; [reflexivity|]. right. right.
    exists (valueOfDigits digits). split; [lia | done].
Qed.

Lemma update_blocked_from_1000_witness :
  let st :=
    setSpiele {[ 1 := mkRow 1000 (spielDtoToSpiel sampleDTO 7) ]} emptyState in
  exists e,
    SpielWriteService.update createSql (Some 1)
      (spielDtoOhneRefToSpiel sampleDtoOhneRef 8) (quoted "999") st
    = (inl e, st) /\
    (e = VersionInvalidException (quoted "999")
     \/ e = NotFoundException (KeinSpielMitId (Some 1))
     \/ exists n, n < 1000 /\ e = VersionOutdatedException (JsNumber n)).
Proof.
  intros st.
  apply (update_blocked_from_1000 createSql 1 _ (quoted "999") st 1000);
    [reflexivity | lia].
Defined.

Lemma etag_tokens :
  forallb
    (fun n =>
       let tag := SpielGetController.etag (Some (Z.of_nat n)) in
       SpielWriteService.VERSION_PATTERN_test tag
       && match Js.parseInt10 (Js.slice_1_m1 tag) with
          | JsNumber w => w =? Z.of_nat n
          | _ => false
          end)
    (seq 0 1000) = true.
Proof. by vm_compute. Qed.

Lemma etag_token v :
  0 <= v <= 999 ->
  SpielWriteService.VERSION_PATTERN_test (SpielGetController.etag (Some v))
  = true /\
  Js.parseInt10 (Js.slice_1_m1 (SpielGetController.etag (Some v)))
  = JsNumber v.
Proof.
  intros Hv. pose proof etag_tokens as H.
  rewrite forallb_forall in H. specialize (H (Z.to_nat v)).
  rewrite Z2Nat.id in H by lia.
  assert (Hin : In (Z.to_nat v) (seq 0 1000)) by (apply in_seq; lia).
  apply H, andb_true_iff in Hin as [Hpat Hparse]. split; [done|].
  destruct (Js.parseInt10 _) as [| | |w| |]; try done.
  apply Z.eqb_eq in Hparse. by subst.
Qed.

Lemma getById_inv id version st resp st' :
  SpielGetController.getById id true version st = (resp, st') ->
  st' = st /\
  match SpielReadService.findById id false st with
  | (inl e, _) => resp = SpielGetController.Failed e
  | (inr spiel, _) =>
      let tag := SpielGetController.etag (Spiel.version spiel) in
      if bool_decide (version = Some tag)
      then resp = SpielGetController.NotModified
      else resp = SpielGetController.Ok spiel tag
  end.
Proof.
  unfold SpielGetController.getById. cbn [negb].
  destruct (SpielReadService.findById id false st) as [[e|spiel] st1] eqn:F;
    apply findById_inv in F as [-> _].
  - by intros [= <- <-].
  - destruct version as [v|].
    + destruct (String.eqb_spec v
                  (SpielGetController.etag (Spiel.version spiel)))
        as [-> | Hne]; intros [= <- <-]; (split; [done|]); cbn zeta.
      * by rewrite bool_decide_eq_true_2.
      * rewrite bool_decide_eq_false_2; [done | congruence].
    + intros [= <- <-]. split; [done|]. cbn zeta.
      by rewrite bool_decide_eq_false_2.
Qed.

(** The entity tag that [getById] hands out for an item is a valid and
    current token for [update] as long as the version is at most 999: sent
    back as it is, it passes the checks of [update], which then ends as
    [save] decides: with the stored version when the ORM finds nothing to
    write, with the next version when the row is written, or with the error
    of the database, which leaves the state as it was. *)
Theorem get_etag_accepted_by_put engine id old tag spiel st v :
  SpielGetController.getById id true None st
  = (SpielGetController.Ok old tag, st) ->
  Spiel.version old = Some v -> 0 <= v <= 999 ->
  Spiel.id spiel = None -> Spiel.version spiel = None ->
  let result := SpielWriteService.update engine (Some id) spiel tag st in
  result = (inr (Some v), st)
  \/ (exists st',
        result = (inr (Some (v + 1)), st') /\
        versions st' = <[id := v + 1]> (versions st))
  \/ result = (inl QueryFailedError, st).
Proof.
  intros Hget Hold Hv Hid Hver result.
  apply getById_inv in Hget as [_ Hget].
  destruct (SpielReadService.findById id false st) as [[e|spielDb] st1] eqn:F;
    [done|].
  cbn zeta in Hget. rewrite bool_decide_eq_false_2 in Hget by done.
  injection Hget as -> ->. subst result. rewrite Hold.
  set (result := SpielWriteService.update engine _ _ _ _).
  destruct (etag_token v Hv) as [Hpat Hparse].
  pose proof F as F'. apply findById_inv in F' as [-> F'].
  destruct F' as (row & n & Hrow & Hn & _ & Hver').
  assert (Hrv : row_version row = v) by congruence.
  assert (Hless : SpielWriteService.jsLess
                    (Js.parseInt10
                       (Js.slice_1_m1 (SpielGetController.etag (Some v))))
                    (Some (row_version row)) = false).
  { rewrite Hparse, Hrv. unfold SpielWriteService.jsLess.
    apply Z.ltb_irrefl. }
  pose proof (update_current engine id spiel _ st row n
                Hid Hver Hpat Hrow Hn Hless) as Hupdate.
  cbv zeta in Hupdate. fold result in Hupdate. rewrite Hrv in Hupdate.
  destruct (Repo.differs engine _ _); cbn [negb] in Hupdate.
  - destruct (admits engine (spiele st) (Some id) _).
    + right. left. eexists. split; [exact Hupdate|].
      unfold versions. cbn. by rewrite fmap_insert.
    + by right; right.
  - by left.
Qed.

(** Item 1000 of the sample database, read at version 1: its tag sent back
    with a new rating takes it to version 2. *)
Lemma get_etag_accepted_by_put_witness :
  let spiel :=
    spielDtoOhneRefToSpiel
      (mkSpielDtoOhneRef "978-0-007-00644-1" 4 None (mkDecimal 1 0)
         None (Some true) None None (Some ["JAVA"; "JAVASCRIPT"])) 9 in
  exists old st',
    SpielGetController.getById 1000 true None sampleState
    = (SpielGetController.Ok old (quoted "1"), sampleState) /\
    SpielWriteService.update createSql (Some 1000) spiel (quoted "1")
      sampleState
    = (inr (Some 2), st') /\
    versions st' = <[1000 := 2]> (versions sampleState).
Proof.
  intros spiel.
  assert (Hget : exists old,
             SpielGetController.getById 1000 true None sampleState
             = (SpielGetController.Ok old (quoted "1"), sampleState) /\
             Spiel.version old = Some 1)
    by (eexists; by vm_compute).
  destruct Hget as (old & Hget & Hold).
  destruct (get_etag_accepted_by_put createSql 1000 old (quoted "1") spiel
              sampleState 1 Hget Hold ltac:(lia) eq_refl eq_refl)
    as [Hsame | [(st' & Hres & Hv) | Hrefused]].
  - by vm_compute in Hsame.
  - by exists old, st'.
  - by vm_compute in Hrefused.
Defined.

(** ** Writing and reading back *)

Lemma getById_found id st spiel :
  SpielReadService.findById id false st = (inr spiel, st) ->
  SpielGetController.getById id true None st
  = (SpielGetController.Ok spiel
       (SpielGetController.etag (Spiel.version spiel)), st).
Proof. intros H. unfold SpielGetController.getById. by rewrite H. Qed.

(** What a [PUT] that is answered with a version has done: nothing, when
    the ORM found no column to write, or the one [UPDATE]. *)
Lemma put_success engine id dto token now st v' st' :
  handle engine (PUT id dto (Some token) now) st = (NoContentETag v', st') ->
  exists row n,
    spiele st !! id = Some row /\ Spiel.name (row_data row) = Some n /\
    let db := Spiel.withIdVersion (Some id) (Some (row_version row))
                (row_data row) in
    let spielDb :=
      SpielReadService.nullToEmpty (Spiel.withRelations (Some n) None db) in
    let merged := Repo.merge spielDb (spielDtoOhneRefToSpiel dto now) in
    (v' = Some (row_version row) /\ st' = st /\
     Repo.exactColumns db = Repo.exactColumns merged)
    \/ (v' = Some (row_version row + 1) /\
        st' = emit (DbUpdate id)
                (setSpiele
                   (<[id := mkRow (row_version row + 1)
                              (Spiel.withRelations
                                 (Spiel.name (row_data row))
                                 (Spiel.bilder (row_data row))
                                 (Repo.columns engine (Some (row_data row))
                                    merged))]> (spiele st))
                   st)).
Proof.
  unfold handle, respond. rewrite update_unfold.
  destruct (SpielWriteService.VERSION_PATTERN_test token) eqn:Hpat; [|done].
  cbn [negb]. cbv zeta.
  destruct (SpielReadService.findById id false st) as [[e|spielDb] st1] eqn:F.
  { apply findById_inv in F as [-> [-> _]]. done. }
  pose proof (findById_inv _ _ _ _ _ F)
    as [-> (row & n & Hrow & Hn & _ & Hv)].
  rewrite Hv.
  destruct (SpielWriteService.jsLess _ _) eqn:Hless; [done|].
  pose proof (update_current engine id (spielDtoOhneRefToSpiel dto now)
                token st row n eq_refl eq_refl Hpat Hrow Hn Hless)
    as Hupdate.
  rewrite update_unfold, Hpat, F in Hupdate.
  cbn [negb] in Hupdate. cbv zeta in Hupdate.
  rewrite Hv, Hless in Hupdate. rewrite Hupdate. clear Hupdate.
  destruct (Repo.differs engine _ _) eqn:Hdiff; cbn [negb].
  - destruct (admits engine (spiele st) (Some id) _); [|done].
    intros [= <- <-]. exists row, n. split; [done|]. split; [done|].
    by right.
  - intros [= <- <-]. exists row, n. split; [done|]. split; [done|].
    left. split; [done|]. split; [done|].
    apply orb_false_iff in Hdiff as [Hdiff _].
    by apply negb_false_iff, bool_decide_eq_true in Hdiff.
Qed.

(** [getById] of an item that has a row and a name. *)
Lemma getById_row id st row n :
  spiele st !! id = Some row -> Spiel.name (row_data row) = Some n ->
  exists spiel,
    SpielReadService.findById id false st = (inr spiel, st) /\
    SpielGetController.getById id true None st
    = (SpielGetController.Ok spiel
         (SpielGetController.etag (Some (row_version row))), st) /\
    Spiel.id spiel = Some id /\
    Spiel.version spiel = Some (row_version row) /\
    Spiel.barcode spiel = Spiel.barcode (row_data row) /\
    Spiel.rating spiel = Spiel.rating (row_data row) /\
    Spiel.art spiel = Spiel.art (row_data row) /\
    Spiel.homepage spiel = Spiel.homepage (row_data row) /\
    Spiel.name spiel = Some n /\
    Spiel.bilder spiel = None /\
    Spiel.schlagwoerter spiel <> None.
Proof.
  intros Hrow Hn.
  pose proof (findById_row id false st row n Hrow Hn) as Hfind.
  eexists. split; [exact Hfind|].
  rewrite (getById_found _ _ _ Hfind).
  unfold SpielReadService.nullToEmpty.
  destruct (Spiel.schlagwoerter _) eqn:E; cbn in *; rewrite ?E;
    by repeat split.
Qed.

(** What a [POST] that is answered with a key has stored. *)
Lemma post_created engine dto now st i st' :
  handle engine (POST dto now) st = (Created i, st') ->
  exists row,
    i = Some (spielIdSeq st) /\
    spiele st' = <[spielIdSeq st := row]> (spiele st) /\
    row_version row = 1 /\
    Spiel.barcode (row_data row) = dto_barcode (dto_base dto) /\
    Spiel.rating (row_data row) = Some (dto_rating (dto_base dto)) /\
    Spiel.art (row_data row) = dto_art (dto_base dto) /\
    Spiel.homepage (row_data row) = dto_homepage (dto_base dto) /\
    Spiel.name (row_data row)
    = Some (Name.mk (Some (nameIdSeq st)) (dto_name (dto_nameDTO dto))
              (dto_untertitel (dto_nameDTO dto))).
Proof.
  unfold handle, respond.
  rewrite (create_unfold engine (spielDtoToSpiel dto now) st eq_refl).
  destruct (Repo.existsByBarcode _ st); [done|].
  unfold Repo.insertSpiel.
  destruct (admits engine (spiele st) None _); [|done].
  unfold SpielWriteService.sendmail. cbv beta iota zeta.
  intros [= <- <-]. eexists. split; [reflexivity|].
  split; [reflexivity|]. by repeat split.
Qed.

(** After a [POST] that is answered with a key, [getById] of that key gives
    the item under that key at version 1, with the entity tag of 1: its
    barcode, rating, category and homepage are the ones of the request, its
    name is the one of the request under a generated key, its keywords are a
    list, and the images are not loaded. *)
Theorem post_then_get engine dto now st i st' :
  handle engine (POST dto now) st = (Created i, st') ->
  exists k spiel,
    i = Some k /\
    SpielGetController.getById k true None st'
    = (SpielGetController.Ok spiel (quoted "1"), st') /\
    Spiel.id spiel = Some k /\
    Spiel.version spiel = Some 1 /\
    Spiel.barcode spiel = dto_barcode (dto_base dto) /\
    Spiel.rating spiel = Some (dto_rating (dto_base dto)) /\
    Spiel.art spiel = dto_art (dto_base dto) /\
    Spiel.homepage spiel = dto_homepage (dto_base dto) /\
    Spiel.name spiel
    = Some (Name.mk (Some (nameIdSeq st)) (dto_name (dto_nameDTO dto))
              (dto_untertitel (dto_nameDTO dto))) /\
    Spiel.bilder spiel = None /\
    Spiel.schlagwoerter spiel <> None.
Proof.
  intros H.
  apply post_created in H
    as (row & -> & Hrows & Hv & Hb & Hr & Ha & Hh & Hn).
  destruct (getById_row (spielIdSeq st) st' row _
              ltac:(rewrite Hrows; apply lookup_insert_eq) Hn)
    as (spiel & _ & Hget & Hid' & Hv' & Hb' & Hr' & Ha' & Hh' & Hn' & Hbi
        & Hkw).
  exists (spielIdSeq st), spiel. rewrite Hv in *.
  repeat split; try done; congruence.
Qed.

Lemma post_then_get_witness :
  exists spiel,
    SpielGetController.getById 1000 true None sampleState
    = (SpielGetController.Ok spiel (quoted "1"), sampleState) /\
    Spiel.barcode spiel = "978-0-007-00644-1" /\
    Spiel.rating spiel = Some 5.
Proof.
  destruct (post_then_get createSql sampleDTO 7 emptyState (Some 1000)
              sampleState eq_refl)
    as (k & spiel & [= <-] & Hget & _ & _ & Hbarcode & Hrating & _).
  by exists spiel.
Defined.

(** After a [PUT] that is answered with a version, [getById] gives the
    item at that version, under its entity tag; the version is the one
    before or one more.  Barcode and rating are the ones of the request,
    category and homepage are the ones of the request where it defines them
    and are as before where it does not, and the name is as before. *)
Theorem put_then_get engine id dto token now st v' st' :
  handle engine (PUT id dto (Some token) now) st = (NoContentETag v', st') ->
  exists old new v,
    SpielGetController.getById id true None st
    = (SpielGetController.Ok old (SpielGetController.etag (Some v)), st) /\
    SpielGetController.getById id true None st'
    = (SpielGetController.Ok new (SpielGetController.etag v'), st') /\
    Spiel.version old = Some v /\
    Spiel.version new = v' /\
    (v' = Some v \/ v' = Some (v + 1)) /\
    Spiel.barcode new = dto_barcode dto /\
    Spiel.rating new = Some (dto_rating dto) /\
    Spiel.art new
    = match dto_art dto with
      | Some art => Some art
      | None => Spiel.art old
      end /\
    Spiel.homepage new
    = match dto_homepage dto with
      | Some homepage => Some homepage
      | None => Spiel.homepage old
      end /\
    Spiel.name new = Spiel.name old.
Proof.
  intros H.
  apply put_success in H as (row & n & Hrow & Hn & H). cbv zeta in H.
  destruct (getById_row id st row n Hrow Hn)
    as (old & Hfind & Hget & _ & Hv & Hb & Hr & Ha & Hh & Hname & _).
  pose proof (findById_row id false st row n Hrow Hn) as Hold.
  rewrite Hfind in Hold. injection Hold as Hold. rewrite <- Hold in H.
  destruct H as [(-> & -> & Hexact) | (-> & ->)].
  - exists old, old, (row_version row).
    do 4 (split; [done|]). split; [by left|].
    revert Hexact. unfold Repo.exactColumns. cbn.
    intros [= Hb' Hr' Ha' Hh'].
    rewrite Hb, Hr, Ha, Hh, Hname.
    repeat split; try done.
    + rewrite Ha in Ha'. revert Ha'. by destruct (dto_art dto).
    + rewrite Hh in Hh'. revert Hh'. by destruct (dto_homepage dto).
  - set (row' := mkRow _ _). set (st' := emit _ _).
    destruct (getById_row id st' row' n
                ltac:(cbn; apply lookup_insert_eq) Hn)
      as (new & _ & Hget' & _ & Hv' & Hb' & Hr' & Ha' & Hh' & Hname' & _).
    exists old, new, (row_version row).
    do 4 (split; [done|]). split; [by right|].
    rewrite Hb', Hr', Ha', Hh', Hname', Hname. cbn.
    rewrite Ha, Hh.
    by repeat split.
Qed.

Lemma append_char_inj c s1 : forall s2,
  s1 +:+ String c "" = s2 +:+ String c "" -> s1 = s2.
Proof.
  induction s1 as [|a s1 IH]; intros [|b s2]; rewrite ?append_String,
    ?append_empty_l; intros H; try done.
  - injection H as _ H. by destruct s2.
  - injection H as _ H. by destruct s1.
  - injection H as -> H. f_equal. by apply IH.
Qed.

Lemma etag_inj v w :
  SpielGetController.etag (Some v) = SpielGetController.etag (Some w) ->
  v = w.
Proof.
  unfold SpielGetController.etag, quoted. intros [= H].
  apply append_char_inj in H. by apply (inj pretty) in H.
Qed.

Lemma put_then_get_witness :
  let dto :=
    mkSpielDtoOhneRef "978-0-007-00644-1" 4 None (mkDecimal 1 0)
      None (Some true) None None (Some ["JAVA"; "JAVASCRIPT"]) in
  let st' := (handle createSql (PUT 1000 dto (Some (quoted "1")) 9)
                sampleState).2 in
  exists old new,
    SpielGetController.getById 1000 true None sampleState
    = (SpielGetController.Ok old (quoted "1"), sampleState) /\
    SpielGetController.getById 1000 true None st'
    = (SpielGetController.Ok new (quoted "2"), st') /\
    Spiel.rating new = Some 4 /\
    Spiel.name new = Spiel.name old.
Proof.
  intros dto st'.
  assert (Hput : handle createSql (PUT 1000 dto (Some (quoted "1")) 9)
                   sampleState = (NoContentETag (Some 2), st'))
    by (by vm_compute).
  destruct (put_then_get createSql 1000 dto (quoted "1") 9 sampleState
              (Some 2) st' Hput)
    as (old & new & v & Hold & Hnew & Hv & _ & _ & _ & Hrating & _ & _
        & Hname).
  assert (v = 1) as ->.
  { assert (Hget : exists spiel,
               SpielGetController.getById 1000 true None sampleState
               = (SpielGetController.Ok spiel
                    (SpielGetController.etag (Some 1)), sampleState))
      by (eexists; by vm_compute).
    destruct Hget as [spiel Hget]. pose proof Hold as Hold'.
    rewrite Hget in Hold'. symmetry. apply etag_inj. congruence. }
  exists old, new.
  split; [exact Hold|]. split; [exact Hnew|]. by split.
Defined.

(** After a [PUT] that is answered with a version, the entity tag of that
    version is the one that a conditional [getById] answers with not
    modified.  A tag that was answered so before and is not that tag is
    outdated: it is answered with the item and the new tag.  If it is that
    tag, the [PUT] has written nothing. *)
Theorem put_invalidates_etag engine id dto token now st v' st' tag :
  handle engine (PUT id dto (Some token) now) st = (NoContentETag v', st') ->
  SpielGetController.getById id true (Some tag) st
  = (SpielGetController.NotModified, st) ->
  SpielGetController.getById id true (Some (SpielGetController.etag v')) st'
  = (SpielGetController.NotModified, st') /\
  (tag = SpielGetController.etag v' -> st' = st) /\
  (tag <> SpielGetController.etag v' ->
   exists spiel,
     SpielGetController.getById id true (Some tag) st'
     = (SpielGetController.Ok spiel (SpielGetController.etag v'), st')).
Proof.
  intros H Hcond.
  apply put_success in H as (row & n & Hrow & Hn & H). cbv zeta in H.
  pose proof (findById_row id false st row n Hrow Hn) as Hfind.
  apply getById_inv in Hcond as [_ Hcond].
  rewrite Hfind in Hcond. cbn zeta in Hcond.
  case_bool_decide as Htag; [|done]. injection Htag as ->.
  assert (Hv : Spiel.version
                 (SpielReadService.nullToEmpty
                    (Spiel.withRelations (Some n) None
                       (Spiel.withIdVersion (Some id)
                          (Some (row_version row)) (row_data row))))
               = Some (row_version row)).
  { unfold SpielReadService.nullToEmpty.
    by destruct (Spiel.schlagwoerter _). }
  rewrite Hv.
  assert (Hfind' : exists spiel,
             SpielReadService.findById id false st' = (inr spiel, st') /\
             Spiel.version spiel = v').
  { destruct H as [(-> & -> & _) | (-> & ->)].
    - eexists. by split.
    - eexists. split.
      + erewrite findById_row;
          [reflexivity | cbn; apply lookup_insert_eq | cbn; exact Hn].
      + unfold SpielReadService.nullToEmpty. cbn.
        by destruct (Spiel.schlagwoerter _). }
  destruct Hfind' as (spiel & Hfind' & Hver').
  unfold SpielGetController.getById. cbn [negb].
  rewrite Hfind', Hver'. split; [by rewrite String.eqb_refl|]. split.
  - intros Heq. destruct H as [(_ & -> & _) | (-> & _)]; [done|].
    apply etag_inj in Heq. lia.
  - intros Hne. exists spiel.
    by destruct (String.eqb_spec
                   (SpielGetController.etag (Some (row_version row)))
                   (SpielGetController.etag v')).
Qed.

Lemma put_invalidates_etag_witness :
  let dto :=
    mkSpielDtoOhneRef "978-0-007-00644-1" 4 None (mkDecimal 1 0)
      None (Some true) None None (Some ["JAVA"; "JAVASCRIPT"]) in
  let st' := (handle createSql (PUT 1000 dto (Some (quoted "1")) 9)
                sampleState).2 in
  SpielGetController.getById 1000 true (Some (quoted "2")) st'
  = (SpielGetController.NotModified, st') /\
  exists spiel,
    SpielGetController.getById 1000 true (Some (quoted "1")) st'
    = (SpielGetController.Ok spiel (quoted "2"), st').
Proof.
  intros dto st'.
  assert (Hput : handle createSql (PUT 1000 dto (Some (quoted "1")) 9)
                   sampleState = (NoContentETag (Some 2), st'))
    by (by vm_compute).
  assert (Hcond : SpielGetController.getById 1000 true (Some (quoted "1"))
                    sampleState
                  = (SpielGetController.NotModified, sampleState))
    by (by vm_compute).
  destruct (put_invalidates_etag createSql 1000 dto (quoted "1") 9
              sampleState (Some 2) st' (quoted "1") Hput Hcond)
    as (Hnew & _ & Hold).
  split; [exact Hnew|]. by apply Hold.
Defined.

(** ** The log of effects *)

Lemma mailedInserts_app_le l' :
  mailedInserts l' ->
  forall n l, (length l <= n)%nat ->
              mailedInserts l -> mailedInserts (l ++ l').
Proof.
  intros H'. induction n as [|n IH]; intros l Hlen H.
  - destruct l; [done | simpl in Hlen; lia].
  - destruct l as [|e l]; [done|]. simpl in Hlen.
    destruct e; try (simpl in *; apply IH; [lia | done]); [|done].
    destruct l as [|[] l]; try done. simpl in *.
    destruct H as [Hs H]. split; [done|]. apply IH; [lia | done].
Qed.

Lemma mailedInserts_app l l' :
  mailedInserts l -> mailedInserts l' -> mailedInserts (l ++ l').
Proof. intros H H'. by apply (mailedInserts_app_le l' H' (length l)). Qed.

Lemma quiet_mailed log : Forall isQuiet log -> mailedInserts log.
Proof. induction 1 as [|[] log Hq _ IH]; done. Qed.

Lemma handle_effects engine req st :
  exists log,
    effects (handle engine req st).2 = effects st ++ log /\
    mailedInserts log.
Proof.
  destruct (handle_step engine req st)
    as [[Hst _]
       | [(_ & _ & He & _)
         | [(spielDTO & now & mail & _ & _ & _ & _ & He & Hsubject)
           | [(i & spielDTO & version & now & v & _ & _ & _ & _ & _ & He)
             | [(i & spielDTO & version & now & v & _ & _ & _ & Hst)
               | (i & log & _ & _ & _ & _ & He & Hq)]]]]].
  - exists []. by rewrite Hst, app_nil_r.
  - exists []. by rewrite He, app_nil_r.
  - by eexists.
  - by eexists.
  - exists []. by rewrite Hst, app_nil_r.
  - exists log. split; [done|]. apply quiet_mailed.
    eapply Forall_impl; [exact Hq | apply isRemoval_quiet].
Qed.

(** In every state that requests to the write controller lead to, the log
    of effects has a mail exactly after every insert, with the key of the
    inserted item in its subject: no item is created without its mail, and
    no update, delete or failed request sends one. *)
Theorem mail_follows_insert engine st count :
  history engine st count -> mailedInserts (effects st).
Proof.
  induction 1 as [|st count req _ IH]; [done|].
  destruct (handle_effects engine req st) as (log & -> & Hlog).
  by apply mailedInserts_app.
Qed.

Lemma mail_follows_insert_witness : mailedInserts (effects sampleState).
Proof.
  apply (mail_follows_insert createSql sampleState
           (fun j => 0 + updateCount (POST sampleDTO 7)
                         (handle createSql (POST sampleDTO 7) emptyState).1
                         j)).
  apply (history_handle createSql emptyState (fun _ => 0) (POST sampleDTO 7)
           (history_empty createSql)).
Defined.

(** ** The controller for reading *)

Lemma criteriaOf_nil (query : JsObject) :
  (forall key value,
     (key, value) ∈ query ->
     key = "page" \/ key = "size" \/ value = JsUndefined) ->
  SpielGetController.criteriaOf query = [].
Proof.
  unfold SpielGetController.criteriaOf, JsObject in *.
  induction query as [|[key value] query IH]; intros H; [done|].
  assert (IH' := IH (fun k v Hin => H k v (list_elem_of_further _ _ _ Hin))).
  destruct (H key value ltac:(left)) as [-> | [-> | ->]]; cbn; try done.
  destruct (String.eqb key "page" || String.eqb key "size"); cbn; done.
Qed.

(** [page] and [size] are no search criteria, and neither is a parameter
    without a value: a query that has nothing else is answered by [get] as
    the search without criteria is, with the pageable made of [page] and
    [size]; it is not turned down for the keys [page] and [size]. *)
Theorem get_paging_only postgres pageSize pageNumber selectMany selectCount
    createPageable Page (createPage : SpielReadService.Slice -> Pageable.t -> Page)
    (query : JsObject) st :
  (forall key value,
     (key, value) ∈ query ->
     key = "page" \/ key = "size" \/ value = JsUndefined) ->
  let pageable :=
    createPageable (getProp query "page") (getProp query "size") in
  SpielGetController.get postgres pageSize pageNumber selectMany selectCount
    createPageable Page createPage query true st
  = match SpielReadService.find postgres pageSize pageNumber selectMany
            selectCount None pageable st with
    | (inl e, st') => (SpielGetController.ListFailed Page e, st')
    | (inr slice, st') =>
        (SpielGetController.ListOk Page (createPage slice pageable), st')
    end.
Proof.
  intros H pageable. unfold SpielGetController.get. cbn [negb].
  by rewrite (criteriaOf_nil query H).
Qed.

Lemma get_paging_only_witness :
  let query := [("page", JsString "0"); ("size", JsString "5");
                ("art", JsUndefined)] in
  let createPageable := fun _ _ : JsValue => Pageable.mk (Some 0) (Some 5) in
  let selectMany :=
    fun (_ : SelectQueryBuilder) (_ : gmap Z Row) =>
      [spielDtoToSpiel sampleDTO 7] in
  let selectCount := fun (_ : SelectQueryBuilder) (_ : gmap Z Row) => 1 in
  exists page st',
    SpielGetController.get true 10 0 selectMany selectCount createPageable
      SpielReadService.Slice (fun slice _ => slice) query true sampleState
    = (SpielGetController.ListOk SpielReadService.Slice page, st').
Proof.
  intros query createPageable selectMany selectCount.
  rewrite (get_paging_only true 10 0 selectMany selectCount createPageable
             SpielReadService.Slice (fun slice _ => slice) query sampleState).
  - by eexists _, _.
  - intros key value Hin.
    repeat (apply elem_of_cons in Hin as [[= -> ->] | Hin]; [tauto|]).
    by apply elem_of_nil in Hin.
Defined.

(** ** Reading one item *)

(** What [findById] returns: the state is untouched; the item carries the
    requested key, a name (an item without a name is not found), keywords
    that are a list, and images exactly when they were asked for. *)
Theorem findById_result id mitBilder st spiel st' :
  SpielReadService.findById id mitBilder st = (inr spiel, st') ->
  st' = st /\
  Spiel.id spiel = Some id /\
  Spiel.name spiel <> None /\
  Spiel.schlagwoerter spiel <> None /\
  (Spiel.bilder spiel <> None <-> mitBilder = true).
Proof.
  unfold SpielReadService.findById, Repo.getOneById.
  destruct (spiele st !! id) as [row|]; [|done].
  destruct (Spiel.name (row_data row)) as [n|]; [|done].
  intros [= <- <-]. unfold SpielReadService.nullToEmpty. cbn.
  destruct (Spiel.schlagwoerter (row_data row)) eqn:E, mitBilder; cbn;
    rewrite ?E; repeat split; try done; naive_solver.
Qed.

Lemma findById_result_witness :
  exists spiel,
    SpielReadService.findById 1000 true sampleState = (inr spiel, sampleState)
    /\ Spiel.id spiel = Some 1000
    /\ Spiel.name spiel <> None
    /\ Spiel.schlagwoerter spiel <> None
    /\ (Spiel.bilder spiel <> None <-> true = true).
Proof.
  eexists. split; [reflexivity|].
  eapply (findById_result 1000 true sampleState _ sampleState). reflexivity.
Defined.

(** ** Creating twice *)

(** Once a [POST] has been answered with a key, every further [POST] with
    the same barcode is turned down with the duplicate-code failure, and
    changes nothing. *)
Theorem post_twice_rejected engine dto now st i st' dto' now' :
  handle engine (POST dto now) st = (Created i, st') ->
  dto_barcode (dto_base dto') = dto_barcode (dto_base dto) ->
  handle engine (POST dto' now') st'
  = (Failed (BarcodeExistsException (dto_barcode (dto_base dto))), st').
Proof.
  intros H Hbar.
  apply post_created in H as (row & _ & Hspiele & _ & Hrow & _).
  unfold handle, respond.
  rewrite (create_unfold engine (spielDtoToSpiel dto' now') st' eq_refl).
  cbn [Spiel.barcode spielDtoToSpiel]. rewrite Hbar.
  destruct (Repo.existsByBarcode _ st') eqn:E; [done|].
  apply not_true_iff_false in E. destruct E.
  apply existsByBarcode_spec. exists (spielIdSeq st), row.
  split; [|done]. rewrite Hspiele. apply lookup_insert_eq.
Qed.

Lemma post_twice_rejected_witness :
  handle createSql (POST sampleDTO 9) sampleState
  = (Failed (BarcodeExistsException "978-0-007-00644-1"), sampleState).
Proof.
  apply (post_twice_rejected createSql sampleDTO 7 emptyState (Some 1000)
           sampleState sampleDTO 9); reflexivity.
Defined.
